(** * AeroDB realtime core: connection manager and channels

    A shallow embedding of [src/realtime/RealtimeClient.ts],
    [src/realtime/RealtimeChannel.ts], [src/realtime/types.ts] and the
    [REALTIME_CONFIG] block of [src/lib/constants.ts].

    JavaScript objects that are shared by reference (the [RealtimeChannel]
    instances handed out by [channel(name)]) live in an explicit heap and are
    named by their index; the registry of the client maps channel names to
    such references.  Everything outside the two classes (the WebSocket
    constructor, [send], [close], the timers and the application callbacks)
    is the environment: its calls are recorded in a trace, and the three
    calls that may raise ([new WebSocket], [send] and [getItem] of the
    storage adapter given to the constructor) read their outcome from an
    oracle carried by the world. *)

From Stdlib Require Import String List ZArith Lia Bool Arith PeanoNat.
Import ListNotations.
Open Scope string_scope.
Open Scope list_scope.

Set Implicit Arguments.

(** ** realtime/types.ts *)

(** [type RealtimeEventType = 'INSERT' | 'UPDATE' | 'DELETE' | '*'] *)
Inductive RealtimeEventType : Type :=
| INSERT
| UPDATE
| DELETE
| STAR.

Definition RealtimeEventType_eqb (a b : RealtimeEventType) : bool :=
  match a, b with
  | INSERT, INSERT | UPDATE, UPDATE | DELETE, DELETE | STAR, STAR => true
  | _, _ => false
  end.

(** [interface RealtimePayload]; a row ([T | null]) is kept as its text. *)
Record RealtimePayload : Type := mkPayload {
  ptype : RealtimeEventType;
  ptable : string;
  pschema : string;
  commit_timestamp : string;
  pnew : option string;
  pold : option string
}.

(** [type RealtimeHandler = (payload) => void].  A callback is a function
    object: [hid] is its identity (what a JS [Set] compares), [hthrows]
    tells on which payloads its body raises.  A callback is taken to touch
    no state of the channel or the client. *)
Record RealtimeHandler : Type := mkHandler {
  hid : nat;
  hthrows : RealtimePayload -> bool
}.

Definition RealtimeHandler_eqb (a b : RealtimeHandler) : bool :=
  Nat.eqb (hid a) (hid b).

(** [type ConnectionState] *)
Inductive ConnectionState : Type :=
| CONNECTING
| CONNECTED
| DISCONNECTED
| RECONNECTING.

Definition ConnectionState_eqb (a b : ConnectionState) : bool :=
  match a, b with
  | CONNECTING, CONNECTING | CONNECTED, CONNECTED
  | DISCONNECTED, DISCONNECTED | RECONNECTING, RECONNECTING => true
  | _, _ => false
  end.

(** ** lib/constants.ts, REALTIME_CONFIG *)

Definition HEARTBEAT_INTERVAL_MS : Z := 30000.
Definition RECONNECT_DELAY_MS : Z := 1000.
Definition MAX_RECONNECT_DELAY_MS : Z := 30000.
Definition RECONNECT_BACKOFF_MULTIPLIER : Z := 2.

(** ** JavaScript [Map] and [Set]

    Both iterate in insertion order; [set] on a present key keeps its
    position, [add] of a present element does nothing. *)

Section JsCollections.
Variables K V : Type.
Variable eqb : K -> K -> bool.

Fixpoint Map_get (k : K) (m : list (K * V)) : option V :=
  match m with
  | [] => None
  | (k', v) :: rest => if eqb k k' then Some v else Map_get k rest
  end.

Definition Map_has (k : K) (m : list (K * V)) : bool :=
  match Map_get k m with Some _ => true | None => false end.

Fixpoint Map_set (k : K) (v : V) (m : list (K * V)) : list (K * V) :=
  match m with
  | [] => [(k, v)]
  | (k', v') :: rest =>
      if eqb k k' then (k', v) :: rest else (k', v') :: Map_set k v rest
  end.

Fixpoint Map_delete (k : K) (m : list (K * V)) : list (K * V) :=
  match m with
  | [] => []
  | (k', v') :: rest =>
      if eqb k k' then rest else (k', v') :: Map_delete k rest
  end.

Definition Map_values (m : list (K * V)) : list V := map snd m.

Fixpoint Set_add (x : K) (s : list K) : list K :=
  match s with
  | [] => [x]
  | y :: rest => if eqb x y then y :: rest else y :: Set_add x rest
  end.

Fixpoint Set_delete (x : K) (s : list K) : list K :=
  match s with
  | [] => []
  | y :: rest => if eqb x y then rest else y :: Set_delete x rest
  end.
End JsCollections.

(** ** Objects *)

(** References: a channel object is its index in the heap, a socket is the
    number of sockets constructed before it. *)
Definition ChanRef : Type := nat.
Definition SocketId : Type := nat.

(** The control frames the two classes build ([{type: 'subscribe', channel}],
    [{type: 'unsubscribe', channel}], [{type: 'heartbeat'}]). *)
Inductive Frame : Type :=
| FSubscribe (channel : string)
| FUnsubscribe (channel : string)
| FHeartbeat.

(** Fields of [class RealtimeChannel]; the three injected functions are the
    parameters of the methods below. *)
Record RealtimeChannel : Type := mkChannel {
  name : string;
  handlers : list (RealtimeEventType * list RealtimeHandler);
  subscribed : bool
}.

(** Fields of [class RealtimeClient].  A timer handle is kept as the delay it
    was armed with; [wsUrl], [apiKey] and [storage] only feed the URL given to
    the WebSocket constructor and are part of the environment: the adapter
    behind [storage] is the caller's, and what its [getItem] does is given by
    the oracle [getItemThrows] of the world. *)
Record RealtimeClient : Type := mkClient {
  ws : option SocketId;
  channels : list (string * ChanRef);
  connectionState : ConnectionState;
  reconnectAttempts : nat;
  reconnectTimeout : option Z;
  heartbeatInterval : option Z;
  messageQueue : list Frame
}.

(** What the environment observes. *)
Inductive Effect : Type :=
| SocketCreated (s : SocketId)
| SocketClosed (s : SocketId)
| Sent (s : SocketId) (f : Frame)
| TimeoutSet (delay : Z)
| Invoked (h : nat) (p : RealtimePayload).

Record World : Type := mkWorld {
  client : RealtimeClient;
  heap : list RealtimeChannel;
  sockets : nat;
  wired : list SocketId;
  trace : list Effect;
  sendThrows : list bool;
  ctorThrows : list bool;
  getItemThrows : list bool
}.

(** Field updates. *)
Definition set_ws v (c : RealtimeClient) :=
  mkClient v (channels c) (connectionState c) (reconnectAttempts c)
           (reconnectTimeout c) (heartbeatInterval c) (messageQueue c).
Definition set_channels v (c : RealtimeClient) :=
  mkClient (ws c) v (connectionState c) (reconnectAttempts c)
           (reconnectTimeout c) (heartbeatInterval c) (messageQueue c).
Definition set_connectionState v (c : RealtimeClient) :=
  mkClient (ws c) (channels c) v (reconnectAttempts c)
           (reconnectTimeout c) (heartbeatInterval c) (messageQueue c).
Definition set_reconnectAttempts v (c : RealtimeClient) :=
  mkClient (ws c) (channels c) (connectionState c) v
           (reconnectTimeout c) (heartbeatInterval c) (messageQueue c).
Definition set_reconnectTimeout v (c : RealtimeClient) :=
  mkClient (ws c) (channels c) (connectionState c) (reconnectAttempts c)
           v (heartbeatInterval c) (messageQueue c).
Definition set_heartbeatInterval v (c : RealtimeClient) :=
  mkClient (ws c) (channels c) (connectionState c) (reconnectAttempts c)
           (reconnectTimeout c) v (messageQueue c).
Definition set_messageQueue v (c : RealtimeClient) :=
  mkClient (ws c) (channels c) (connectionState c) (reconnectAttempts c)
           (reconnectTimeout c) (heartbeatInterval c) v.

Definition set_client v (w : World) :=
  mkWorld v (heap w) (sockets w) (wired w) (trace w) (sendThrows w) (ctorThrows w)
          (getItemThrows w).
Definition set_heap v (w : World) :=
  mkWorld (client w) v (sockets w) (wired w) (trace w) (sendThrows w) (ctorThrows w)
          (getItemThrows w).
Definition set_sockets v (w : World) :=
  mkWorld (client w) (heap w) v (wired w) (trace w) (sendThrows w) (ctorThrows w)
          (getItemThrows w).
Definition set_wired v (w : World) :=
  mkWorld (client w) (heap w) (sockets w) v (trace w) (sendThrows w) (ctorThrows w)
          (getItemThrows w).
Definition set_trace v (w : World) :=
  mkWorld (client w) (heap w) (sockets w) (wired w) v (sendThrows w) (ctorThrows w)
          (getItemThrows w).
Definition set_sendThrows v (w : World) :=
  mkWorld (client w) (heap w) (sockets w) (wired w) (trace w) v (ctorThrows w)
          (getItemThrows w).
Definition set_ctorThrows v (w : World) :=
  mkWorld (client w) (heap w) (sockets w) (wired w) (trace w) (sendThrows w) v
          (getItemThrows w).
Definition set_getItemThrows v (w : World) :=
  mkWorld (client w) (heap w) (sockets w) (wired w) (trace w) (sendThrows w)
          (ctorThrows w) v.

(** ** A state monad with exceptions

    A computation ends normally with a value or by a throw; in both cases the
    writes done so far stay. *)

Inductive Completion (A : Type) : Type :=
| Normal (a : A)
| Throw.
Arguments Throw {A}.

Definition M (A : Type) : Type := World -> Completion A * World.

Definition ret {A} (a : A) : M A := fun w => (Normal a, w).

Definition bind {A B} (m : M A) (k : A -> M B) : M B :=
  fun w =>
    match m w with
    | (Normal a, w') => k a w'
    | (Throw, w') => (Throw, w')
    end.

Definition throw {A} : M A := fun w => (Throw, w).

(** [try { body } catch { handler }] *)
Definition try_catch (body handler : M unit) : M unit :=
  fun w =>
    match body w with
    | (Normal a, w') => (Normal a, w')
    | (Throw, w') => handler w'
    end.

Definition get : M World := fun w => (Normal w, w).
Definition modify (f : World -> World) : M unit := fun w => (Normal tt, f w).
Definition this (f : RealtimeClient -> RealtimeClient) : M unit :=
  modify (fun w => set_client (f (client w)) w).

Declare Scope monad_scope.
Delimit Scope monad_scope with monad.
Notation "x <- m ;; k" := (bind m (fun x => k))
  (at level 61, m at next level, right associativity) : monad_scope.
Notation "m ;; k" := (bind m (fun _ => k))
  (at level 61, right associativity) : monad_scope.
Open Scope monad_scope.

(** [for (const x of xs) body(x)], over a snapshot of the collection. *)
Fixpoint for_of {A} (xs : list A) (body : A -> M unit) : M unit :=
  match xs with
  | [] => ret tt
  | x :: rest => body x ;; for_of rest body
  end.

Definition exec {A} (m : M A) (w : World) : World := snd (m w).

(** ** The environment *)

Definition emit (e : Effect) : M unit :=
  modify (fun w => set_trace (trace w ++ [e]) w).

(** [new WebSocket(url)]: raises when the oracle says so, otherwise returns a
    fresh socket. *)
Definition new_WebSocket : M SocketId :=
  fun w =>
    let w1 := set_ctorThrows (tl (ctorThrows w)) w in
    if hd false (ctorThrows w) then (Throw, w1)
    else
      let s := sockets w1 in
      (Normal s, set_trace (trace w1 ++ [SocketCreated s]) (set_sockets (S s) w1)).

(** [socket.send(JSON.stringify(message))]: raises when the oracle says so,
    otherwise the frame is on the wire. *)
Definition ws_send (s : SocketId) (message : Frame) : M unit :=
  fun w =>
    let w1 := set_sendThrows (tl (sendThrows w)) w in
    if hd false (sendThrows w) then (Throw, w1)
    else (Normal tt, set_trace (trace w1 ++ [Sent s message]) w1).

(** [this.storage.getItem('aerodb.auth.token')] on the adapter the caller
    gave to the constructor: raises when the oracle says so.  The token it
    returns only feeds the URL. *)
Definition storage_getItem : M unit :=
  fun w =>
    let w1 := set_getItemThrows (tl (getItemThrows w)) w in
    if hd false (getItemThrows w) then (Throw, w1) else (Normal tt, w1).

(** [socket.close()] *)
Definition ws_close (s : SocketId) : M unit := emit (SocketClosed s).

(** [handler(payload)] *)
Definition call (handler : RealtimeHandler) (payload : RealtimePayload) : M unit :=
  emit (Invoked (hid handler) payload) ;;
  if hthrows handler payload then throw else ret tt.

(** ** realtime/RealtimeChannel.ts *)

(** Reading and writing the object behind a reference.  [channel] hands out
    references to existing objects only; a method called through any other
    reference raises at once and changes nothing. *)
Definition deref (r : ChanRef) : M RealtimeChannel :=
  fun w =>
    match nth_error (heap w) r with
    | Some c => (Normal c, w)
    | None => (Throw, w)
    end.

Fixpoint list_update {A} (l : list A) (i : nat) (x : A) : list A :=
  match l, i with
  | [], _ => []
  | _ :: rest, O => x :: rest
  | y :: rest, S j => y :: list_update rest j x
  end.

Definition store (r : ChanRef) (c : RealtimeChannel) : M unit :=
  modify (fun w => set_heap (list_update (heap w) r c) w).

Definition set_handlers v (c : RealtimeChannel) := mkChannel (name c) v (subscribed c).
Definition set_subscribed v (c : RealtimeChannel) := mkChannel (name c) (handlers c) v.

Section Channel.
(** The functions given to the constructor. *)
Variable sendMessage : Frame -> M unit.
Variable onSubscribe : ChanRef -> M unit.
Variable onUnsubscribe : ChanRef -> M unit.

Definition getName (r : ChanRef) : M string :=
  c <- deref r ;; ret (name c).

Definition isSubscribed (r : ChanRef) : M bool :=
  c <- deref r ;; ret (subscribed c).

Definition on (r : ChanRef) (event : RealtimeEventType)
           (callback : RealtimeHandler) : M unit :=
  c <- deref r ;;
  let hs :=
    if Map_has RealtimeEventType_eqb event (handlers c) then handlers c
    else Map_set RealtimeEventType_eqb event [] (handlers c) in
  match Map_get RealtimeEventType_eqb event hs with
  | Some set =>
      store r (set_handlers
                 (Map_set RealtimeEventType_eqb event
                          (Set_add RealtimeHandler_eqb callback set) hs) c)
  | None => throw
  end.

Definition off (r : ChanRef) (event : RealtimeEventType)
           (callback : option RealtimeHandler) : M unit :=
  c <- deref r ;;
  match callback with
  | None =>
      store r (set_handlers (Map_delete RealtimeEventType_eqb event (handlers c)) c)
  | Some cb =>
      match Map_get RealtimeEventType_eqb event (handlers c) with
      | Some eventHandlers =>
          store r (set_handlers
                     (Map_set RealtimeEventType_eqb event
                              (Set_delete RealtimeHandler_eqb cb eventHandlers)
                              (handlers c)) c)
      | None => ret tt
      end
  end.

Definition subscribe (r : ChanRef) : M unit :=
  c <- deref r ;;
  if subscribed c then ret tt
  else
    sendMessage (FSubscribe (name c)) ;;
    c1 <- deref r ;;
    store r (set_subscribed true c1) ;;
    onSubscribe r.

Definition unsubscribe (r : ChanRef) : M unit :=
  c <- deref r ;;
  if negb (subscribed c) then ret tt
  else
    sendMessage (FUnsubscribe (name c)) ;;
    c1 <- deref r ;;
    store r (set_handlers [] (set_subscribed false c1)) ;;
    onUnsubscribe r.

Definition dispatch (r : ChanRef) (payload : RealtimePayload) : M unit :=
  c <- deref r ;;
  match Map_get RealtimeEventType_eqb (ptype payload) (handlers c) with
  | Some eventHandlers =>
      for_of eventHandlers (fun handler => try_catch (call handler payload) (ret tt))
  | None => ret tt
  end ;;
  c1 <- deref r ;;
  match Map_get RealtimeEventType_eqb STAR (handlers c1) with
  | Some wildcardHandlers =>
      for_of wildcardHandlers (fun handler => try_catch (call handler payload) (ret tt))
  | None => ret tt
  end.
End Channel.

(** ** realtime/RealtimeClient.ts *)

Definition getConnectionState : M ConnectionState :=
  w <- get ;; ret (connectionState (client w)).

Definition enqueue (message : Frame) : M unit :=
  this (fun c => set_messageQueue (messageQueue c ++ [message]) c).

(** [if (state !== 'CONNECTED' || !this.ws) { push; return } try { send }
    catch { push }] *)
Definition sendMessage (message : Frame) : M unit :=
  w <- get ;;
  match connectionState (client w), ws (client w) with
  | CONNECTED, Some s => try_catch (ws_send s message) (enqueue message)
  | _, _ => enqueue message
  end.

Definition stopHeartbeat : M unit :=
  w <- get ;;
  match heartbeatInterval (client w) with
  | Some _ => this (set_heartbeatInterval None)
  | None => ret tt
  end.

Definition startHeartbeat : M unit :=
  stopHeartbeat ;;
  this (set_heartbeatInterval (Some HEARTBEAT_INTERVAL_MS)).

Definition stopReconnect : M unit :=
  w <- get ;;
  match reconnectTimeout (client w) with
  | Some _ => this (set_reconnectTimeout None)
  | None => ret tt
  end.

(** [Math.min(RECONNECT_DELAY_MS * Math.pow(MULTIPLIER, attempts), MAX)].
    The attempts are a natural number; the product is a power of two times
    1000, which a double holds exactly until it overflows to [Infinity], and
    the minimum with the cap is then the cap: the result is that of the same
    expression over [Z]. *)
Definition reconnectDelay (attempts : nat) : Z :=
  Z.min (RECONNECT_DELAY_MS * Z.pow RECONNECT_BACKOFF_MULTIPLIER (Z.of_nat attempts))
        MAX_RECONNECT_DELAY_MS.

Definition scheduleReconnect : M unit :=
  w <- get ;;
  match reconnectTimeout (client w) with
  | Some _ => ret tt
  | None =>
      let delay := reconnectDelay (reconnectAttempts (client w)) in
      emit (TimeoutSet delay) ;;
      this (set_reconnectTimeout (Some delay))
  end.

Definition handleDisconnect : M unit :=
  stopHeartbeat ;;
  this (set_ws None) ;;
  w <- get ;;
  if negb (ConnectionState_eqb (connectionState (client w)) DISCONNECTED) then
    this (set_connectionState RECONNECTING) ;;
    scheduleReconnect
  else ret tt.

(** Installs [onopen], [onclose], [onerror] and [onmessage] (defined below)
    on the current socket: from then on the socket delivers its events. *)
Definition setupWebSocket : M unit :=
  w <- get ;;
  match ws (client w) with
  | None => ret tt
  | Some s => modify (fun w => set_wired (s :: wired w) w)
  end.

(** The URL ([wsUrl] with [apikey] and the stored [token] as query
    parameters) is computed between the state change and the [try]: the
    read of the token is outside the [try], so a [getItem] that raises ends
    [connect] by that throw, after the state change.  The URL only reaches
    the WebSocket constructor, whose outcome the oracle gives. *)
Definition connect : M unit :=
  w <- get ;;
  match connectionState (client w) with
  | CONNECTED | CONNECTING => ret tt
  | _ =>
      this (set_connectionState CONNECTING) ;;
      storage_getItem ;;
      try_catch
        (s <- new_WebSocket ;;
         this (set_ws (Some s)) ;;
         setupWebSocket)
        handleDisconnect
  end.

Definition disconnect : M unit :=
  stopHeartbeat ;;
  stopReconnect ;;
  w <- get ;;
  match ws (client w) with
  | Some s => ws_close s ;; this (set_ws None)
  | None => ret tt
  end ;;
  this (set_connectionState DISCONNECTED) ;;
  this (set_channels []) ;;
  this (set_messageQueue []).

Definition flushMessageQueue : M unit :=
  w <- get ;;
  let queue := messageQueue (client w) in
  this (set_messageQueue []) ;;
  for_of queue sendMessage.

Definition resubscribeChannels : M unit :=
  w <- get ;;
  for_of (Map_values (channels (client w)))
         (fun channel =>
            b <- isSubscribed channel ;;
            if b then
              n <- getName channel ;;
              sendMessage (FSubscribe n)
            else ret tt).

(** [channel.isSubscribed()] as read by [Array.some] below. *)
Definition subscribed_at (w : World) (r : ChanRef) : bool :=
  match nth_error (heap w) r with
  | Some c => subscribed c
  | None => false
  end.

Definition handleChannelSubscribe (_channel : ChanRef) : M unit :=
  w <- get ;;
  if ConnectionState_eqb (connectionState (client w)) DISCONNECTED then connect
  else ret tt.

Definition handleChannelUnsubscribe (channel : ChanRef) : M unit :=
  n <- getName channel ;;
  this (fun c => set_channels (Map_delete String.eqb n (channels c)) c) ;;
  w <- get ;;
  let hasSubscribed := existsb (subscribed_at w) (Map_values (channels (client w))) in
  if negb hasSubscribed && Nat.eqb (length (channels (client w))) 0 then disconnect
  else ret tt.

(** [channel(name)]: the registered object, or a new one bound to
    [sendMessage], [handleChannelSubscribe] and [handleChannelUnsubscribe]. *)
Definition channel (n : string) : M ChanRef :=
  w <- get ;;
  match Map_get String.eqb n (channels (client w)) with
  | Some r => ret r
  | None =>
      let r := length (heap w) in
      modify (fun w => set_heap (heap w ++ [mkChannel n [] false]) w) ;;
      this (fun c => set_channels (Map_set String.eqb n r (channels c)) c) ;;
      ret r
  end.

(** The methods of a channel made by [channel(name)]. *)
Definition channel_subscribe : ChanRef -> M unit :=
  subscribe sendMessage handleChannelSubscribe.
Definition channel_unsubscribe : ChanRef -> M unit :=
  unsubscribe sendMessage handleChannelUnsubscribe.

(** An inbound text frame after [JSON.parse]: text that does not parse, or
    the fields [handleMessage] reads. *)
Inductive Inbound : Type :=
| Unparsable
| Envelope (mtype : string) (mchannel : option string)
           (mpayload : option RealtimePayload).

Definition JSON_parse (data : Inbound) : M (string * option string * option RealtimePayload) :=
  match data with
  | Unparsable => throw
  | Envelope t c p => ret (t, c, p)
  end.

Definition handleMessage (data : Inbound) : M unit :=
  try_catch
    (message <- JSON_parse data ;;
     let '(mtype, mchannel, mpayload) := message in
     match mchannel with
     | Some cname =>
         if String.eqb mtype "event" && negb (String.eqb cname "") then
           w <- get ;;
           match Map_get String.eqb cname (channels (client w)), mpayload with
           | Some ch, Some payload => dispatch ch payload
           | _, _ => ret tt
           end
         else ret tt
     | None => ret tt
     end)
    (ret tt).

(** The four callbacks of [setupWebSocket]. *)
Definition onopen : M unit :=
  this (set_connectionState CONNECTED) ;;
  this (set_reconnectAttempts 0) ;;
  startHeartbeat ;;
  flushMessageQueue ;;
  resubscribeChannels.

Definition onclose : M unit := handleDisconnect.
Definition onerror : M unit := ret tt.
Definition onmessage (data : Inbound) : M unit := handleMessage data.

(** The callback of [setTimeout] in [scheduleReconnect] and the one of
    [setInterval] in [startHeartbeat]. *)
Definition reconnectTimer : M unit :=
  this (set_reconnectTimeout None) ;;
  this (fun c => set_reconnectAttempts (S (reconnectAttempts c)) c) ;;
  connect.

Definition heartbeatTimer : M unit := sendMessage FHeartbeat.

(** ** The client as a reactive system

    One event is one run-to-completion turn of the JavaScript event loop: a
    call of the public interface, a callback of a socket whose handlers were
    installed (whatever the manager did with that socket since), or a timer
    that is armed. *)
Inductive Event : Type :=
| Call_channel (n : string)
| Call_on (r : ChanRef) (event : RealtimeEventType) (callback : RealtimeHandler)
| Call_off (r : ChanRef) (event : RealtimeEventType) (callback : option RealtimeHandler)
| Call_subscribe (r : ChanRef)
| Call_unsubscribe (r : ChanRef)
| Call_connect
| Call_disconnect
| Socket_open (s : SocketId)
| Socket_close (s : SocketId)
| Socket_error (s : SocketId)
| Socket_message (s : SocketId) (data : Inbound)
| Timer_reconnect
| Timer_heartbeat.

Definition is_wired (s : SocketId) (w : World) : bool :=
  existsb (Nat.eqb s) (wired w).

Definition when (b : bool) (m : M unit) : M unit := if b then m else ret tt.

Definition handle (e : Event) : M unit :=
  match e with
  | Call_channel n => channel n ;; ret tt
  | Call_on r event callback => on r event callback
  | Call_off r event callback => off r event callback
  | Call_subscribe r => channel_subscribe r
  | Call_unsubscribe r => channel_unsubscribe r
  | Call_connect => connect
  | Call_disconnect => disconnect
  | Socket_open s => w <- get ;; when (is_wired s w) onopen
  | Socket_close s => w <- get ;; when (is_wired s w) onclose
  | Socket_error s => w <- get ;; when (is_wired s w) onerror
  | Socket_message s data => w <- get ;; when (is_wired s w) (onmessage data)
  | Timer_reconnect =>
      w <- get ;;
      match reconnectTimeout (client w) with
      | Some _ => reconnectTimer
      | None => ret tt
      end
  | Timer_heartbeat =>
      w <- get ;;
      match heartbeatInterval (client w) with
      | Some _ => heartbeatTimer
      | None => ret tt
      end
  end.

Definition step (w : World) (e : Event) : World := exec (handle e) w.

Definition run (w : World) (es : list Event) : World := fold_left step es w.

(** [new RealtimeClient(wsUrl, apiKey, storage)] in an environment with the
    given outcomes for [send], for the WebSocket constructor and for
    [getItem] of the storage adapter. *)
Definition new_RealtimeClient : RealtimeClient :=
  mkClient None [] DISCONNECTED 0 None None [].

Definition initial (sendOutcomes ctorOutcomes getItemOutcomes : list bool) : World :=
  mkWorld new_RealtimeClient [] 0 [] [] sendOutcomes ctorOutcomes getItemOutcomes.

(** Observations on a trace. *)
Definition is_subscribe_for (n : string) (e : Effect) : bool :=
  match e with
  | Sent _ (FSubscribe n') => String.eqb n n'
  | _ => false
  end.

Definition scheduled_delays (t : list Effect) : list Z :=
  flat_map (fun e => match e with TimeoutSet d => [d] | _ => [] end) t.

Definition invocations (t : list Effect) : list (nat * RealtimePayload) :=
  flat_map (fun e => match e with Invoked h p => [(h, p)] | _ => [] end) t.

Definition closed_sockets (t : list Effect) : list SocketId :=
  flat_map (fun e => match e with SocketClosed s => [s] | _ => [] end) t.

Definition created_sockets (t : list Effect) : list SocketId :=
  flat_map (fun e => match e with SocketCreated s => [s] | _ => [] end) t.

(** What a flush does with a queue, given the outcomes of the successive
    [send] calls ([true]: the call raises; past the end of the list no call
    raises): the frames that reach the wire and the frames put back. *)
Fixpoint transmitted (outcomes : list bool) (queue : list Frame) : list Frame :=
  match queue with
  | [] => []
  | f :: rest =>
      if hd false outcomes then transmitted (tl outcomes) rest
      else f :: transmitted (tl outcomes) rest
  end.

Fixpoint requeued (outcomes : list bool) (queue : list Frame) : list Frame :=
  match queue with
  | [] => []
  | f :: rest =>
      if hd false outcomes then f :: requeued (tl outcomes) rest
      else requeued (tl outcomes) rest
  end.

(** [subseq l1 l2]: [l1] is [l2] with some elements left out, order kept. *)
Inductive subseq {A : Type} : list A -> list A -> Prop :=
| subseq_nil : subseq [] []
| subseq_skip x l1 l2 : subseq l1 l2 -> subseq l1 (x :: l2)
| subseq_keep x l1 l2 : subseq l1 l2 -> subseq (x :: l1) (x :: l2).

(** The handlers [dispatch] looks up for a payload. *)
Definition handlers_for (event : RealtimeEventType) (c : RealtimeChannel)
  : list RealtimeHandler :=
  match Map_get RealtimeEventType_eqb event (handlers c) with
  | Some hs => hs
  | None => []
  end.

(** The world after [this.messageQueue.push(f)]. *)
Definition enqueued (f : Frame) (w : World) : World :=
  set_client (set_messageQueue (messageQueue (client w) ++ [f]) (client w)) w.

(** [keeps view m]: running [m] leaves the observation [view] of the world
    as it was, whether [m] returns or raises. *)
Definition keeps {X A : Type} (view : World -> X) (m : M A) : Prop :=
  forall w, view (exec m w) = view w.

(** Sockets the manager has closed, and the attempt counter. *)
Definition closed (w : World) : list SocketId := closed_sockets (trace w).
Definition attempts (w : World) : nat := reconnectAttempts (client w).

(** While the state is DISCONNECTED or RECONNECTING no socket is held. *)
Definition handle_consistent (w : World) : Prop :=
  match connectionState (client w) with
  | DISCONNECTED | RECONNECTING => ws (client w) = None
  | CONNECTING | CONNECTED => True
  end.

(** Handle, state and number of sockets made. *)
Definition cs (w : World) : option SocketId * ConnectionState * nat :=
  (ws (client w), connectionState (client w), sockets w).

(** The six things one turn of the event loop can do to the handle, the
    state and the number of sockets made; the last is a [connect] that the
    storage adapter ends by a throw. *)
Inductive cs_step (w w' : World) : Prop :=
| cs_same : cs w' = cs w -> cs_step w w'
| cs_disconnected :
    connectionState (client w) = DISCONNECTED \/ channels (client w') = [] ->
    cs w' = (None, DISCONNECTED, sockets w) -> cs_step w w'
| cs_reconnecting : cs w' = (None, RECONNECTING, sockets w) -> cs_step w w'
| cs_opened : cs w' = (ws (client w), CONNECTED, sockets w) -> cs_step w w'
| cs_created :
    connectionState (client w) = DISCONNECTED \/
    connectionState (client w) = RECONNECTING ->
    cs w' = (Some (sockets w), CONNECTING, S (sockets w)) ->
    cs_step w w'
| cs_stalled :
    connectionState (client w) = DISCONNECTED \/
    connectionState (client w) = RECONNECTING ->
    cs w' = (ws (client w), CONNECTING, sockets w) ->
    cs_step w w'.

(** [k] failed connection attempts in a row, the first on socket [s]: the
    pending socket closes, the reconnect timer fires and makes the next
    socket. *)
Definition failures (s : SocketId) (k : nat) : list Event :=
  flat_map (fun i => [Socket_close i; Timer_reconnect]) (seq s k).

(** The channel object [r], named [n], is registered and not subscribed. *)
Definition idle_in_registry (n : string) (r : ChanRef) (w : World) : Prop :=
  Map_get String.eqb n (channels (client w)) = Some r /\
  exists c, nth_error (heap w) r = Some c /\ name c = n /\ subscribed c = false.

(** Events that leave the idle channel [r] alone: no [disconnect()], no
    [subscribe()] on [r], and no [unsubscribe()] on another object that
    carries the same name [n]. *)
Definition spares (n : string) (r : ChanRef) (w : World) (e : Event) : bool :=
  match e with
  | Call_disconnect => false
  | Call_subscribe r' => negb (Nat.eqb r' r)
  | Call_unsubscribe r' =>
      Nat.eqb r' r ||
      match nth_error (heap w) r' with
      | Some c' => negb (String.eqb n (name c'))
      | None => true
      end
  | _ => true
  end.

Fixpoint spared (n : string) (r : ChanRef) (w : World) (es : list Event) : bool :=
  match es with
  | [] => true
  | e :: rest => spares n r w e && spared n r (step w e) rest
  end.

(** Registry, heap and sockets closed so far. *)
Definition rhc (w : World) : list (string * ChanRef) * list RealtimeChannel * list SocketId :=
  (channels (client w), heap w, closed w).

(** Number of "subscribe" frames for channel [n] put on the wire. *)
Definition subscribe_frames (n : string) (t : list Effect) : nat :=
  length (filter (is_subscribe_for n) t).

(** The reading of [disconnect()] under which every channel object handed
    out before is reset: state, registry and queue are cleared and every
    object of the heap has no handlers and is not subscribed. *)
Definition disconnect_resets_channels (w : World) : Prop :=
  let w' := exec disconnect w in
  connectionState (client w') = DISCONNECTED /\
  channels (client w') = [] /\
  messageQueue (client w') = [] /\
  forall r c, nth_error (heap w') r = Some c ->
              handlers c = [] /\ subscribed c = false.

(** A callback that returns. *)
Definition quiet (i : nat) : RealtimeHandler := mkHandler i (fun _ => false).
(** A callback that raises on every payload. *)
Definition faulty (i : nat) : RealtimeHandler := mkHandler i (fun _ => true).

(** Sample worlds and inputs. *)

(** [channel("a").subscribe()] on a fresh client: socket 0 is pending. *)
Definition pending_world : World :=
  run (initial [] [] []) [Call_channel "a"; Call_subscribe 0].

(** The same after the socket has opened. *)
Definition connected_world : World :=
  run (initial [] [] []) [Call_channel "a"; Call_subscribe 0; Socket_open 0].

(** A connected client with a channel "idle" that was never subscribed
    (object 0) and a subscribed channel "b" (object 1). *)
Definition idle_world : World :=
  run (initial [] [] [])
      [Call_channel "idle"; Call_channel "b"; Call_subscribe 1; Socket_open 0].

(** A channel with two UPDATE handlers, two wildcard handlers and an INSERT
    handler; the first of each pair raises. *)
Definition handlers_world : World :=
  run (initial [] [] [])
      [Call_channel "a";
       Call_on 0 UPDATE (faulty 1); Call_on 0 UPDATE (quiet 2);
       Call_on 0 STAR (faulty 3); Call_on 0 STAR (quiet 4);
       Call_on 0 INSERT (quiet 5)].

Definition handlers_channel : RealtimeChannel :=
  mkChannel "a"
            [(UPDATE, [faulty 1; quiet 2]); (STAR, [faulty 3; quiet 4]);
             (INSERT, [quiet 5])]
            false.

Definition update_payload : RealtimePayload :=
  mkPayload UPDATE "todos" "public" "2024-01-01T00:00:00Z" (Some "{}") (Some "{}").

(** ** Connections that exist

    The close callbacks a run delivers tell which sockets the transport has
    closed; a socket that was made and that neither the manager nor the
    transport has closed is an open connection. *)
Definition transport_closed (es : list Event) : list SocketId :=
  flat_map (fun e => match e with Socket_close s => [s] | _ => [] end) es.

Definition live_sockets (w0 : World) (es : list Event) : list SocketId :=
  filter (fun s => negb (existsb (Nat.eqb s) (closed (run w0 es))) &&
                   negb (existsb (Nat.eqb s) (transport_closed es)))
         (created_sockets (trace (run w0 es))).

(** Events other than [disconnect()] and [subscribe()] on the object [r]. *)
Definition leaves_unsubscribed (r : ChanRef) (e : Event) : bool :=
  match e with
  | Call_disconnect => false
  | Call_subscribe r' => negb (Nat.eqb r' r)
  | _ => true
  end.

(** The reading under which a registered channel that is never subscribed
    stays in the registry whatever else is called, short of [disconnect()],
    and no teardown closes a socket meanwhile. *)
Definition idle_channel_stays (n : string) (r : ChanRef) (w : World) : Prop :=
  idle_in_registry n r w ->
  forall es, forallb (leaves_unsubscribed r) es = true ->
             Map_get String.eqb n (channels (client (run w es))) = Some r /\
             closed (run w es) = closed w.

(** ** Further observations *)

(** The registry is well formed: no name and no object occurs twice, and
    every entry names an object of the heap that carries the entry's name. *)
Definition registry_wf (w : World) : Prop :=
  NoDup (map fst (channels (client w))) /\
  NoDup (map snd (channels (client w))) /\
  forall n r, In (n, r) (channels (client w)) ->
              nth_error (map name (heap w)) r = Some n.

(** Registry and names of the objects. *)
Definition reg (w : World) : list (string * ChanRef) * list string :=
  (channels (client w), map name (heap w)).

(** Calls that only look up or create a channel or change its handlers. *)
Definition is_registration (e : Event) : bool :=
  match e with
  | Call_channel _ | Call_on _ _ _ | Call_off _ _ _ => true
  | _ => false
  end.

(** Everything but the registry and the heap. *)
Definition transport (w : World) :=
  (ws (client w), connectionState (client w), reconnectAttempts (client w),
   reconnectTimeout (client w), heartbeatInterval (client w),
   messageQueue (client w), sockets w, wired w, trace w,
   sendThrows w, ctorThrows w, getItemThrows w).

(** A handler map as a JavaScript [Map] of [Set]s has it: no event type
    twice, and in each set no callback twice. *)
Definition channel_wf (c : RealtimeChannel) : Prop :=
  NoDup (map fst (handlers c)) /\
  forall ev hs, In (ev, hs) (handlers c) -> NoDup (map hid hs).

Definition heap_wf (w : World) : Prop := Forall channel_wf (heap w).

(** No heartbeat runs unless the state is CONNECTED; a client that is
    RECONNECTING has its reconnect timer armed; a client that is
    DISCONNECTED has none. *)
Definition timers_consistent (w : World) : Prop :=
  (heartbeatInterval (client w) <> None -> connectionState (client w) = CONNECTED) /\
  (connectionState (client w) = RECONNECTING -> reconnectTimeout (client w) <> None) /\
  (connectionState (client w) = DISCONNECTED -> reconnectTimeout (client w) = None).

Definition timers (w : World) : ConnectionState * option Z * option Z :=
  (connectionState (client w), heartbeatInterval (client w), reconnectTimeout (client w)).

(** The sockets are numbered in the order of their making, each has its
    callbacks installed, the manager has closed none twice and none that was
    not made, and the handle, when there is one, is a socket that was made
    and that the manager has not closed. *)
Definition sockets_consistent (w : World) : Prop :=
  created_sockets (trace w) = seq 0 (sockets w) /\
  (forall s, is_wired s w = true <-> s < sockets w) /\
  NoDup (closed w) /\
  (forall s, In s (closed w) -> s < sockets w) /\
  (forall s, ws (client w) = Some s -> s < sockets w /\ ~ In s (closed w)).

Definition socks (w : World) :=
  (ws (client w), sockets w, wired w, closed w, created_sockets (trace w)).

(** Events that reach neither [connect] nor [disconnect] nor a socket or
    timer callback that changes the connection. *)
Definition neutral (e : Event) : bool :=
  match e with
  | Call_channel _ | Call_on _ _ _ | Call_off _ _ _
  | Socket_error _ | Socket_message _ _ | Timer_heartbeat => true
  | _ => false
  end.

(** The names [resubscribeChannels] asks for: of each registered object, in
    registry order, [getName()] when [isSubscribed()]. *)
Definition subscribed_names (w : World) : list string :=
  flat_map (fun r => match nth_error (heap w) r with
                     | Some c => if subscribed c then [name c] else []
                     | None => []
                     end)
           (Map_values (channels (client w))).

(** ** lib/helpers.ts, MemoryStorageAdapter

    The adapter that [connect] reads the access token from outside a
    browser: a [Map] from keys to values. *)
Definition MemoryStorage : Type := list (string * string).

(** [this.storage.get(key) ?? null] *)
Definition getItem (st : MemoryStorage) (key : string) : option string :=
  Map_get String.eqb key st.

Definition setItem (st : MemoryStorage) (key value : string) : MemoryStorage :=
  Map_set String.eqb key value st.

Definition removeItem (st : MemoryStorage) (key : string) : MemoryStorage :=
  Map_delete String.eqb key st.

Inductive StorageOp : Type :=
| SetItem (key value : string)
| RemoveItem (key : string).

(** A new adapter after a sequence of writes. *)
Definition storage_after (ops : list StorageOp) : MemoryStorage :=
  fold_left (fun st op => match op with
                          | SetItem k v => setItem st k v
                          | RemoveItem k => removeItem st k
                          end) ops [].

(** Three channels, "a" and "b" subscribed and "c" not, before and after
    the socket has opened. *)
Definition abc_pending : list Event :=
  [Call_channel "a"; Call_channel "b"; Call_channel "c";
   Call_subscribe 0; Call_subscribe 1].

Definition abc_connected : list Event := abc_pending ++ [Socket_open 0].

(** The calls that make [handlers_world]. *)
Definition handlers_events : list Event :=
  [Call_channel "a";
   Call_on 0 UPDATE (faulty 1); Call_on 0 UPDATE (quiet 2);
   Call_on 0 STAR (faulty 3); Call_on 0 STAR (quiet 4);
   Call_on 0 INSERT (quiet 5)].

(** * Properties *)

Unset Implicit Arguments.

(** Unfolds the field updates and computes the projections. *)
Ltac fields :=
  unfold set_ws, set_channels, set_connectionState, set_reconnectAttempts,
    set_reconnectTimeout, set_heartbeatInterval, set_messageQueue, enqueued,
    set_client, set_heap, set_sockets, set_wired, set_trace, set_sendThrows,
    set_ctorThrows, set_getItemThrows, set_handlers, set_subscribed in *;
  cbn [client heap sockets wired trace sendThrows ctorThrows getItemThrows
       ws channels connectionState reconnectAttempts reconnectTimeout
       heartbeatInterval messageQueue name handlers subscribed fst snd] in *.

(** ** The monad *)

Lemma bind_normal {A B} (m : M A) (k : A -> M B) w a w' :
  m w = (Normal a, w') -> bind m k w = k a w'.
Proof. intros H. unfold bind. now rewrite H. Qed.

Lemma bind_throw {A B} (m : M A) (k : A -> M B) w w' :
  m w = (Throw, w') -> bind m k w = (Throw, w').
Proof. intros H. unfold bind. now rewrite H. Qed.

Lemma deref_some r c w : nth_error (heap w) r = Some c -> deref r w = (Normal c, w).
Proof. intros H. unfold deref. now rewrite H. Qed.

(** ** sendMessage *)

Lemma sendMessage_cases f w :
  sendMessage f w =
  (Normal tt,
   match connectionState (client w), ws (client w) with
   | CONNECTED, Some s =>
       if hd false (sendThrows w)
       then enqueued f (set_sendThrows (tl (sendThrows w)) w)
       else set_trace (trace w ++ [Sent s f]) (set_sendThrows (tl (sendThrows w)) w)
   | _, _ => enqueued f w
   end).
Proof.
  unfold sendMessage, bind, get, try_catch, ws_send, enqueue, this, modify, enqueued.
  destruct (connectionState (client w)); try reflexivity.
  destruct (ws (client w)); try reflexivity.
  destruct (hd false (sendThrows w)); reflexivity.
Qed.

Lemma sendMessage_not_connected f w :
  connectionState (client w) <> CONNECTED ->
  sendMessage f w = (Normal tt, enqueued f w).
Proof.
  intros H. rewrite sendMessage_cases.
  destruct (connectionState (client w)); congruence.
Qed.

(** C6.  For every frame and every world, [sendMessage] returns; when the
    state is CONNECTED and the socket handle exists the frame is sent on
    that socket, unless [send] raises, and then it is appended to the
    queue; in every other state it is appended to the queue; so the frame
    is always either on the wire or at the end of the queue. *)
Theorem sendMessage_transmits_or_enqueues :
  forall (f : Frame) (w : World),
    let w' := exec (sendMessage f) w in
    fst (sendMessage f w) = Normal tt /\
    match connectionState (client w), ws (client w) with
    | CONNECTED, Some s =>
        if hd false (sendThrows w)
        then trace w' = trace w /\
             messageQueue (client w') = messageQueue (client w) ++ [f]
        else trace w' = trace w ++ [Sent s f] /\
             messageQueue (client w') = messageQueue (client w)
    | _, _ =>
        trace w' = trace w /\
        messageQueue (client w') = messageQueue (client w) ++ [f]
    end /\
    ((exists s, trace w' = trace w ++ [Sent s f]) \/
     messageQueue (client w') = messageQueue (client w) ++ [f]).
Proof.
  intros f w w'. subst w'. unfold exec. rewrite sendMessage_cases. cbn [fst snd].
  split; [reflexivity|].
  destruct (connectionState (client w)); cbn; auto.
  destruct (ws (client w)) as [s|]; cbn; auto.
  destruct (hd false (sendThrows w)); cbn; auto.
  split; auto. left. now exists s.
Qed.

(** ** The outbound queue *)

Lemma transmitted_subseq outcomes queue :
  subseq (transmitted outcomes queue) queue.
Proof.
  revert outcomes. induction queue as [|f rest IH]; intros outcomes; cbn.
  - constructor.
  - destruct (hd false outcomes); constructor; apply IH.
Qed.

Lemma transmitted_no_throw queue : transmitted [] queue = queue.
Proof. induction queue as [|f rest IH]; cbn; [reflexivity | now rewrite IH]. Qed.

Lemma requeued_no_throw queue : requeued [] queue = [].
Proof. induction queue as [|f rest IH]; cbn; [reflexivity | exact IH]. Qed.

Lemma for_of_enqueue fs :
  forall w,
    connectionState (client w) <> CONNECTED ->
    for_of fs sendMessage w =
    (Normal tt,
     set_client (set_messageQueue (messageQueue (client w) ++ fs) (client w)) w).
Proof.
  induction fs as [|f rest IH]; intros w Hst; cbn [for_of].
  - unfold ret. rewrite app_nil_r. f_equal.
    destruct w as [c ? ? ? ? ? ? ?]; destruct c; reflexivity.
  - erewrite bind_normal by (apply sendMessage_not_connected; exact Hst).
    rewrite IH by exact Hst.
    unfold enqueued, set_client, set_messageQueue; cbn.
    now rewrite <- app_assoc.
Qed.

Lemma for_of_send q :
  forall w s,
    connectionState (client w) = CONNECTED ->
    ws (client w) = Some s ->
    for_of q sendMessage w =
    (Normal tt,
     mkWorld
       (set_messageQueue (messageQueue (client w) ++ requeued (sendThrows w) q)
                         (client w))
       (heap w) (sockets w) (wired w)
       (trace w ++ map (Sent s) (transmitted (sendThrows w) q))
       (skipn (length q) (sendThrows w)) (ctorThrows w) (getItemThrows w)).
Proof.
  induction q as [|f rest IH]; intros w s Hst Hws; cbn [for_of].
  - cbn. rewrite !app_nil_r. unfold ret. f_equal.
    destruct w as [c ? ? ? ? ? ? ?]; destruct c; reflexivity.
  - erewrite bind_normal by apply sendMessage_cases.
    rewrite Hst, Hws.
    destruct w as [c hp sk wi tr st ct gt]; cbn in *.
    destruct st as [|[|] st]; cbn [hd tl]; cbn -[skipn];
      rewrite (IH _ s) by assumption; cbn -[skipn];
      rewrite <- ?app_assoc, ?skipn_nil; reflexivity.
Qed.

Lemma flushMessageQueue_connected w s :
  connectionState (client w) = CONNECTED ->
  ws (client w) = Some s ->
  flushMessageQueue w =
  (Normal tt,
   mkWorld
     (set_messageQueue (requeued (sendThrows w) (messageQueue (client w))) (client w))
     (heap w) (sockets w) (wired w)
     (trace w ++ map (Sent s) (transmitted (sendThrows w) (messageQueue (client w))))
     (skipn (length (messageQueue (client w))) (sendThrows w)) (ctorThrows w) (getItemThrows w)).
Proof.
  intros Hst Hws. unfold flushMessageQueue, bind, get, this, modify.
  rewrite (for_of_send _ _ s) by (cbn; assumption).
  reflexivity.
Qed.

Lemma startHeartbeat_eq w :
  startHeartbeat w =
  (Normal tt, set_client (set_heartbeatInterval (Some HEARTBEAT_INTERVAL_MS) (client w)) w).
Proof.
  unfold startHeartbeat, stopHeartbeat, bind, get, this, modify, ret.
  destruct (heartbeatInterval (client w)); reflexivity.
Qed.

(** C7.  Frames handed to [sendMessage] while the state is not CONNECTED are
    appended to the queue in the order of the calls and nothing is sent; when
    the socket opens, the flush sends the queue from its head to its tail:
    the frames on the wire are the queued frames whose [send] did not raise,
    in their queue order, and they are the whole queue, in order, when no
    [send] raises; [onopen] is this flush followed by the resubscription. *)
Theorem flush_is_fifo :
  forall (w : World) (s : SocketId) (fs : list Frame),
    connectionState (client w) <> CONNECTED ->
    ws (client w) = Some s ->
    let q := messageQueue (client w) ++ fs in
    let w1 := exec (for_of fs sendMessage) w in
    let w2 := exec (this (set_connectionState CONNECTED) ;;
                    this (set_reconnectAttempts 0) ;;
                    startHeartbeat ;;
                    flushMessageQueue) w1 in
    messageQueue (client w1) = q /\
    trace w1 = trace w /\
    trace w2 = trace w ++ map (Sent s) (transmitted (sendThrows w) q) /\
    messageQueue (client w2) = requeued (sendThrows w) q /\
    subseq (transmitted (sendThrows w) q) q /\
    (sendThrows w = [] ->
     trace w2 = trace w ++ map (Sent s) q /\ messageQueue (client w2) = []) /\
    exec onopen w1 = exec resubscribeChannels w2.
Proof.
  intros w s fs Hst Hws q w1 w2.
  assert (E1 : w1 = set_client (set_messageQueue q (client w)) w).
  { subst w1. unfold exec. now rewrite for_of_enqueue. }
  assert (E2 : (this (set_connectionState CONNECTED) ;;
                this (set_reconnectAttempts 0) ;;
                startHeartbeat ;;
                flushMessageQueue) w1 =
               (Normal tt,
                mkWorld
                  (mkClient (Some s) (channels (client w)) CONNECTED 0
                            (reconnectTimeout (client w))
                            (Some HEARTBEAT_INTERVAL_MS)
                            (requeued (sendThrows w) q))
                  (heap w) (sockets w) (wired w)
                  (trace w ++ map (Sent s) (transmitted (sendThrows w) q))
                  (skipn (length q) (sendThrows w)) (ctorThrows w) (getItemThrows w))).
  { rewrite E1. unfold bind at 1. unfold this at 1. unfold modify.
    unfold bind at 1. unfold this at 1. unfold modify.
    unfold bind at 1. rewrite startHeartbeat_eq.
    rewrite (flushMessageQueue_connected _ s) by (cbn; auto).
    fields. now rewrite Hws. }
  assert (E3 : w2 = snd ((this (set_connectionState CONNECTED) ;;
                          this (set_reconnectAttempts 0) ;;
                          startHeartbeat ;;
                          flushMessageQueue) w1)) by reflexivity.
  rewrite E2 in E3. cbn [snd] in E3.
  repeat split.
  - now rewrite E1.
  - now rewrite E1.
  - now rewrite E3.
  - now rewrite E3.
  - apply transmitted_subseq.
  - rewrite E3. cbn. rewrite H. now rewrite transmitted_no_throw.
  - rewrite E3. cbn. rewrite H. now rewrite requeued_no_throw.
  - unfold onopen, exec.
    unfold bind at 1. unfold this at 1. unfold modify.
    unfold bind at 1. unfold this at 1. unfold modify.
    unfold bind at 1. rewrite startHeartbeat_eq.
    unfold bind at 1.
    revert E2. unfold bind at 1. unfold this at 1. unfold modify.
    unfold bind at 1. unfold this at 1. unfold modify.
    unfold bind at 1. rewrite startHeartbeat_eq.
    intros E2. rewrite E2. now rewrite E3.
Qed.

(** ** dispatch *)

Lemma for_of_handlers p hs :
  forall w,
    for_of hs (fun handler => try_catch (call handler p) (ret tt)) w =
    (Normal tt, set_trace (trace w ++ map (fun h => Invoked (hid h) p) hs) w).
Proof.
  induction hs as [|h rest IH]; intros w; cbn [for_of map].
  - unfold ret. rewrite app_nil_r. f_equal. now destruct w.
  - unfold bind at 1. unfold try_catch, call, bind, emit, modify, throw, ret.
    destruct (hthrows h p); rewrite IH; fields; now rewrite <- app_assoc.
Qed.

Lemma dispatch_eq w r c p :
  nth_error (heap w) r = Some c ->
  dispatch r p w =
  (Normal tt,
   set_trace (trace w ++ map (fun h => Invoked (hid h) p)
                             (handlers_for (ptype p) c ++ handlers_for STAR c)) w).
Proof.
  intros Hc. unfold dispatch.
  erewrite bind_normal by (apply deref_some; exact Hc).
  assert (E : (match Map_get RealtimeEventType_eqb (ptype p) (handlers c) with
               | Some eventHandlers =>
                   for_of eventHandlers
                          (fun handler => try_catch (call handler p) (ret tt))
               | None => ret tt
               end) w =
              (Normal tt,
               set_trace (trace w ++ map (fun h => Invoked (hid h) p)
                                         (handlers_for (ptype p) c)) w)).
  { unfold handlers_for.
    destruct (Map_get RealtimeEventType_eqb (ptype p) (handlers c)).
    - apply for_of_handlers.
    - unfold ret. cbn. rewrite app_nil_r. f_equal. now destruct w. }
  erewrite bind_normal by exact E.
  erewrite bind_normal by (apply deref_some; exact Hc).
  rewrite map_app, app_assoc.
  generalize (handlers_for (ptype p) c) as hs1. intros hs1.
  unfold handlers_for.
  destruct (Map_get RealtimeEventType_eqb STAR (handlers c)).
  - rewrite for_of_handlers. reflexivity.
  - unfold ret. cbn. rewrite app_nil_r. reflexivity.
Qed.

Lemma handleMessage_returns data w : fst (handleMessage data w) = Normal tt.
Proof.
  unfold handleMessage, try_catch.
  match goal with |- context [match ?b w with _ => _ end] => destruct (b w) as [[[]|] w'] end;
    reflexivity.
Qed.

(** C8.  For every channel object and payload, [dispatch] returns normally
    and calls, in this order, every handler registered for the payload's
    type and then every handler registered for ['*'], each with that payload,
    whichever of them raise; nothing but the trace of calls changes, and
    [handleMessage], the caller in the connection manager, returns normally
    as well. *)
Theorem dispatch_isolates_handlers :
  forall (w : World) (r : ChanRef) (c : RealtimeChannel) (p : RealtimePayload),
    nth_error (heap w) r = Some c ->
    let called := handlers_for (ptype p) c ++ handlers_for STAR c in
    dispatch r p w =
      (Normal tt, set_trace (trace w ++ map (fun h => Invoked (hid h) p) called) w) /\
    (forall h, In h (handlers_for (ptype p) c) \/ In h (handlers_for STAR c) ->
               In (Invoked (hid h) p)
                  (skipn (length (trace w)) (trace (exec (dispatch r p) w)))) /\
    (forall data w0, fst (handleMessage data w0) = Normal tt).
Proof.
  intros w r c p Hc called. split; [|split].
  - now apply dispatch_eq.
  - intros h Hh. unfold exec. rewrite (dispatch_eq w r c p Hc). fields.
    rewrite skipn_app, skipn_all, Nat.sub_diag. cbn [skipn app].
    apply in_map with (f := fun h => Invoked (hid h) p).
    apply in_or_app. exact Hh.
  - apply handleMessage_returns.
Qed.

(** ** Frame conditions *)

Section Keeps.
Context {X : Type} (view : World -> X).

Lemma keeps_ret {A} (a : A) : keeps view (ret a).
Proof. intros w. reflexivity. Qed.

Lemma keeps_get : keeps view get.
Proof. intros w. reflexivity. Qed.

Lemma keeps_throw {A} : keeps view (@throw A).
Proof. intros w. reflexivity. Qed.

Lemma keeps_bind {A B} (m : M A) (k : A -> M B) :
  keeps view m -> (forall a, keeps view (k a)) -> keeps view (bind m k).
Proof.
  intros Hm Hk w. specialize (Hm w). unfold exec, bind in *.
  destruct (m w) as [[a|] w1]; cbn in *.
  - rewrite <- Hm. apply Hk.
  - exact Hm.
Qed.

Lemma keeps_try_catch (body handler : M unit) :
  keeps view body -> keeps view handler -> keeps view (try_catch body handler).
Proof.
  intros Hb Hh w. specialize (Hb w). unfold exec, try_catch in *.
  destruct (body w) as [[a|] w1]; cbn in *.
  - exact Hb.
  - rewrite <- Hb. apply Hh.
Qed.

Lemma keeps_for_of {A} (xs : list A) (body : A -> M unit) :
  (forall x, keeps view (body x)) -> keeps view (for_of xs body).
Proof.
  intros Hb. induction xs as [|x rest IH]; cbn [for_of].
  - apply keeps_ret.
  - apply keeps_bind; [apply Hb | intros _; exact IH].
Qed.

End Keeps.

Ltac leaf :=
  let w := fresh "w" in
  intro w;
  unfold exec, new_WebSocket, ws_send, storage_getItem, deref, this, emit,
    ws_close, store;
  unfold modify, get, ret, throw;
  repeat match goal with
         | |- context [match ?x with _ => _ end] => destruct x
         | |- context [if ?x then _ else _] => destruct x
         end;
  unfold rhc, reg, transport, timers, socks, closed, attempts, cs, closed_sockets,
    created_sockets;
  fields; rewrite ?flat_map_app; cbn; rewrite ?app_nil_r; reflexivity.

Ltac keeps_step :=
  lazymatch goal with
  | |- keeps _ (bind _ _) => apply keeps_bind; [| intros ?]
  | |- keeps _ (ret _) => apply keeps_ret
  | |- keeps _ get => apply keeps_get
  | |- keeps _ throw => apply keeps_throw
  | |- keeps _ (try_catch _ _) => apply keeps_try_catch
  | |- keeps _ (for_of _ _) => apply keeps_for_of; intros ?
  | |- keeps _ (when _ _) => unfold when
  | |- keeps _ (match ?x with _ => _ end) => destruct x
  | |- keeps _ (if ?x then _ else _) => destruct x
  | |- keeps _ (modify _) => leaf
  | |- keeps _ (this _) => leaf
  | |- keeps _ (emit _) => leaf
  | |- keeps _ (ws_close _) => leaf
  | |- keeps _ (store _ _) => leaf
  | |- keeps _ (deref _) => leaf
  | |- keeps _ new_WebSocket => leaf
  | |- keeps _ (ws_send _ _) => leaf
  | |- keeps _ storage_getItem => leaf
  | |- keeps _ _ =>
      progress unfold sendMessage, enqueue, stopHeartbeat, startHeartbeat,
        stopReconnect, scheduleReconnect, handleDisconnect, setupWebSocket,
        connect, disconnect, flushMessageQueue, resubscribeChannels,
        handleChannelSubscribe, handleChannelUnsubscribe, channel,
        channel_subscribe, channel_unsubscribe, subscribe, unsubscribe,
        getName, isSubscribed, on, off, dispatch, call, JSON_parse,
        handleMessage, onopen, onclose, onerror, onmessage, reconnectTimer,
        heartbeatTimer, getConnectionState
  end.

Ltac keeps_all := repeat keeps_step.

(** ** The socket handle *)

(** Symbolic evaluation of the loop-free methods. *)
Ltac crunch :=
  unfold step, exec, handle, when in *;
  unfold channel_subscribe, channel_unsubscribe, subscribe, unsubscribe,
    onclose, onerror, reconnectTimer, heartbeatTimer, channel, on, off in *;
  unfold handleChannelSubscribe, handleChannelUnsubscribe in *;
  unfold connect, disconnect in *;
  unfold handleDisconnect, setupWebSocket, startHeartbeat in *;
  unfold scheduleReconnect, stopHeartbeat, stopReconnect, sendMessage,
    getName, isSubscribed, getConnectionState in *;
  unfold enqueue, bind, try_catch, new_WebSocket, ws_send, storage_getItem,
    deref, this, emit, ws_close, store in *;
  unfold modify, get, ret, throw in *;
  repeat (fields; cbn;
          match goal with
          | |- context [match ?x with _ => _ end] =>
              lazymatch x with
              | context [match _ with _ => _ end] => fail
              | _ => destruct x eqn:?
              end
          end);
  fields; cbn in *; try discriminate; try reflexivity.

Lemma connect_cs w :
  cs (exec connect w) =
  match connectionState (client w) with
  | CONNECTED | CONNECTING => cs w
  | _ =>
      if hd false (getItemThrows w) then (ws (client w), CONNECTING, sockets w)
      else if hd false (ctorThrows w) then (None, RECONNECTING, sockets w)
      else (Some (sockets w), CONNECTING, S (sockets w))
  end.
Proof. unfold cs. crunch; try congruence. Qed.

Lemma disconnect_cs w : cs (exec disconnect w) = (None, DISCONNECTED, sockets w).
Proof. unfold cs. crunch; try congruence. Qed.

Lemma handleDisconnect_cs w :
  cs (exec handleDisconnect w) =
  (None,
   match connectionState (client w) with
   | DISCONNECTED => DISCONNECTED
   | _ => RECONNECTING
   end, sockets w).
Proof. unfold cs. crunch; try congruence. Qed.

Lemma disconnect_eq w :
  disconnect w =
  (Normal tt,
   mkWorld
     (mkClient None [] DISCONNECTED (reconnectAttempts (client w)) None None [])
     (heap w) (sockets w) (wired w)
     (trace w ++ match ws (client w) with
                 | Some s => [SocketClosed s]
                 | None => []
                 end)
     (sendThrows w) (ctorThrows w) (getItemThrows w)).
Proof.
  destruct w as [c hp sk wi tr st ct gt]. destruct c as [ws0 ch cst att rt hb q].
  unfold disconnect, stopHeartbeat, stopReconnect, bind, get, this, modify, ret,
    ws_close, emit.
  cbn. destruct hb, rt, ws0; cbn; rewrite ?app_nil_r; reflexivity.
Qed.

Lemma onopen_cs w : cs (exec onopen w) = (ws (client w), CONNECTED, sockets w).
Proof.
  unfold onopen.
  assert (K : keeps cs (this (set_reconnectAttempts 0) ;; startHeartbeat ;;
                        flushMessageQueue ;; resubscribeChannels))
    by keeps_all.
  unfold exec, bind at 1, this at 1, modify.
  apply K.
Qed.

Lemma connect_cs_step w w0 :
  cs w0 = cs w -> cs_step w (exec connect w0).
Proof.
  intros E. pose proof (connect_cs w0) as H.
  unfold cs in E. injection E as E1 E2 E3. rewrite E1, E2, E3 in H.
  destruct (connectionState (client w)) eqn:Hst.
  - apply cs_same. rewrite H. unfold cs. congruence.
  - apply cs_same. rewrite H. unfold cs. congruence.
  - destruct (hd false (getItemThrows w0)); [apply cs_stalled; auto|].
    destruct (hd false (ctorThrows w0)).
    + now apply cs_reconnecting.
    + apply cs_created; auto.
  - destruct (hd false (getItemThrows w0)); [apply cs_stalled; auto|].
    destruct (hd false (ctorThrows w0)).
    + now apply cs_reconnecting.
    + apply cs_created; auto.
Qed.

Lemma sendMessage_normal f w : sendMessage f w = (Normal tt, exec (sendMessage f) w).
Proof. unfold exec. now rewrite sendMessage_cases. Qed.

Lemma sendMessage_keeps_cs f : keeps cs (sendMessage f).
Proof. keeps_all. Qed.

Ltac same_by_keeps :=
  apply cs_same; unfold step, handle;
  match goal with
  | |- ?v (exec ?m ?w) = _ =>
      let K := fresh "K" in
      assert (K : keeps v m) by keeps_all; apply K
  end.

Lemma step_cs w e : cs_step w (step w e).
Proof.
  destruct e.
  - same_by_keeps.
  - same_by_keeps.
  - same_by_keeps.
  - (* subscribe *)
    unfold step, handle, channel_subscribe, subscribe, exec.
    unfold bind at 1. unfold deref at 1.
    destruct (nth_error (heap w) r) as [c|]; [|now apply cs_same].
    destruct (subscribed c); [now apply cs_same|].
    erewrite bind_normal by apply sendMessage_normal.
    set (w1 := exec (sendMessage _) w).
    assert (E1 : cs w1 = cs w) by apply sendMessage_keeps_cs.
    unfold bind at 1. unfold deref at 1.
    destruct (nth_error (heap w1) r) as [c1|]; [|now apply cs_same].
    unfold bind at 1. unfold store at 1. unfold modify.
    set (w2 := set_heap _ w1).
    assert (E2 : cs w2 = cs w) by (subst w2; rewrite <- E1; reflexivity).
    unfold handleChannelSubscribe, bind, get.
    destruct (ConnectionState_eqb (connectionState (client w2)) DISCONNECTED).
    + now apply connect_cs_step.
    + now apply cs_same.
  - (* unsubscribe *)
    unfold step, handle, channel_unsubscribe, unsubscribe, exec.
    unfold bind at 1. unfold deref at 1.
    destruct (nth_error (heap w) r) as [c|]; [|now apply cs_same].
    destruct (negb (subscribed c)); [now apply cs_same|].
    erewrite bind_normal by apply sendMessage_normal.
    set (w1 := exec (sendMessage _) w).
    assert (E1 : cs w1 = cs w) by apply sendMessage_keeps_cs.
    unfold bind at 1. unfold deref at 1.
    destruct (nth_error (heap w1) r) as [c1|]; [|now apply cs_same].
    unfold bind at 1. unfold store at 1. unfold modify.
    set (w2 := set_heap _ w1).
    assert (E2 : cs w2 = cs w) by (rewrite <- E1; reflexivity).
    unfold handleChannelUnsubscribe.
    unfold bind at 1. unfold getName, bind at 1, deref.
    destruct (nth_error (heap w2) r) as [c2|]; [|now apply cs_same].
    unfold ret at 1. unfold bind at 1, this at 1, modify.
    set (w3 := set_client _ w2).
    assert (E3 : cs w3 = cs w) by (rewrite <- E2; reflexivity).
    unfold bind at 1, get.
    match goal with |- context [if ?b then _ else _] => destruct b end.
    + apply cs_disconnected.
      * right. now rewrite disconnect_eq.
      * change (cs (exec disconnect w3) = (None, DISCONNECTED, sockets w)).
        rewrite disconnect_cs. unfold cs in E3. congruence.
    + now apply cs_same.
  - now apply connect_cs_step.
  - apply cs_disconnected; [right | apply disconnect_cs].
    unfold step, handle, exec. now rewrite disconnect_eq.
  - (* open *)
    unfold step, handle, exec, bind, get, when.
    destruct (is_wired s w); [|now apply cs_same].
    apply cs_opened. apply onopen_cs.
  - (* close *)
    unfold step, handle, exec, bind, get, when, onclose.
    destruct (is_wired s w); [|now apply cs_same].
    pose proof (handleDisconnect_cs w) as H. unfold exec in H.
    destruct (connectionState (client w)) eqn:Hst;
      try (now apply cs_reconnecting).
    apply cs_disconnected; [now left | exact H].
  - same_by_keeps.
  - same_by_keeps.
  - (* reconnect timer *)
    unfold step, handle, exec, bind at 1, get.
    destruct (reconnectTimeout (client w)); [|now apply cs_same].
    unfold reconnectTimer.
    unfold bind at 1, this at 1, modify. unfold bind at 1, this at 1, modify.
    now apply connect_cs_step.
  - same_by_keeps.
Qed.

Lemma step_consistent w e : handle_consistent w -> handle_consistent (step w e).
Proof.
  intros H. unfold handle_consistent in *.
  destruct (step_cs w e) as [E|_ E|E|E|_ E|_ E]; unfold cs in E;
    injection E as E1 E2 E3; rewrite E2; auto.
  rewrite E1. exact H.
Qed.

Lemma run_app w es1 es2 : run w (es1 ++ es2) = run (run w es1) es2.
Proof. apply fold_left_app. Qed.

Lemma run_consistent w es : handle_consistent w -> handle_consistent (run w es).
Proof.
  revert w. induction es as [|e es IH]; intros w H; cbn.
  - exact H.
  - apply IH, step_consistent, H.
Qed.

Lemma run_makes_socket_without_handle so co go es e :
  let w := run (initial so co go) es in
  sockets (step w e) <> sockets w ->
  ws (client w) = None /\
  sockets (step w e) = S (sockets w) /\
  ws (client (step w e)) = Some (sockets w).
Proof.
  intros w Hne.
  assert (Hc : handle_consistent w) by (apply run_consistent; exact (eq_refl : None = None)).
  destruct (step_cs w e) as [E|_ E|E|E|Hst E|_ E]; unfold cs in E;
    injection E as E1 E2 E3; try congruence.
  repeat split; try assumption.
  unfold handle_consistent in Hc.
  destruct Hst as [Hst|Hst]; rewrite Hst in Hc; exact Hc.
Qed.

(** ** Reconnection backoff *)

Lemma reconnectDelay_closed_form n :
  reconnectDelay n = Z.min (1000 * 2 ^ Z.of_nat n) 30000.
Proof. reflexivity. Qed.

Lemma reconnectDelay_mono n : (reconnectDelay n <= reconnectDelay (S n))%Z.
Proof.
  rewrite !reconnectDelay_closed_form, Nat2Z.inj_succ, Z.pow_succ_r by lia.
  assert (0 < 2 ^ Z.of_nat n)%Z by (apply Z.pow_pos_nonneg; lia).
  lia.
Qed.

Lemma reconnectDelay_cap n : (reconnectDelay n <= 30000)%Z.
Proof. rewrite reconnectDelay_closed_form. apply Z.le_min_r. Qed.

Lemma reconnectDelay_capped n : reconnectDelay (5 + n) = 30000%Z.
Proof.
  rewrite reconnectDelay_closed_form, Nat2Z.inj_add, Z.pow_add_r by lia.
  assert (0 < 2 ^ Z.of_nat n)%Z by (apply Z.pow_pos_nonneg; lia).
  change (2 ^ Z.of_nat 5)%Z with 32%Z. lia.
Qed.

Lemma reconnectTimer_attempts w :
  attempts (exec reconnectTimer w) = S (attempts w).
Proof.
  assert (K : keeps attempts connect) by keeps_all.
  unfold reconnectTimer, exec.
  unfold bind at 1, this at 1, modify. unfold bind at 1, this at 1, modify.
  apply K.
Qed.

Lemma onopen_attempts w : attempts (exec onopen w) = 0.
Proof.
  assert (K : keeps attempts (startHeartbeat ;; flushMessageQueue ;; resubscribeChannels))
    by keeps_all.
  unfold onopen, exec.
  unfold bind at 1, this at 1, modify. unfold bind at 1, this at 1, modify.
  apply K.
Qed.

(** One failed attempt from a pending socket. *)
Lemma failure_round w s :
  connectionState (client w) = CONNECTING ->
  reconnectTimeout (client w) = None ->
  ctorThrows w = [] ->
  getItemThrows w = [] ->
  sockets w = S s ->
  is_wired s w = true ->
  let w' := step (step w (Socket_close s)) Timer_reconnect in
  connectionState (client w') = CONNECTING /\
  reconnectTimeout (client w') = None /\
  ctorThrows w' = [] /\
  getItemThrows w' = [] /\
  sockets w' = S (S s) /\
  is_wired (S s) w' = true /\
  attempts w' = S (attempts w) /\
  scheduled_delays (trace w') =
    scheduled_delays (trace w) ++ [reconnectDelay (attempts w)].
Proof.
  intros Hst Hrt Hct Hgt Hso Hwi w'. subst w'.
  unfold attempts, scheduled_delays, is_wired in *.
  destruct w as [c hp sk wi tr st ct gt]. destruct c as [ws0 ch cst att rt hb q].
  cbn in Hst, Hrt, Hct, Hgt, Hso, Hwi. subst.
  unfold step, handle, exec, bind, get, when, onclose, is_wired.
  cbn [wired]. rewrite Hwi.
  destruct hb; cbn; rewrite Nat.eqb_refl; cbn;
    rewrite !flat_map_app; cbn; rewrite !app_nil_r; repeat split; reflexivity.
Qed.

Lemma failures_delays k :
  forall w s,
    connectionState (client w) = CONNECTING ->
    reconnectTimeout (client w) = None ->
    ctorThrows w = [] ->
    getItemThrows w = [] ->
    sockets w = S s ->
    is_wired s w = true ->
    scheduled_delays (trace (run w (failures s k))) =
    scheduled_delays (trace w) ++ map reconnectDelay (seq (attempts w) k).
Proof.
  induction k as [|k IH]; intros w s Hst Hrt Hct Hgt Hso Hwi.
  - cbn. now rewrite app_nil_r.
  - destruct (failure_round w s Hst Hrt Hct Hgt Hso Hwi)
      as (Hst' & Hrt' & Hct' & Hgt' & Hso' & Hwi' & Hat' & Htr').
    unfold failures. cbn [seq flat_map]. fold (failures (S s) k).
    cbn [app run fold_left]. fold (run (step (step w (Socket_close s)) Timer_reconnect)
                                       (failures (S s) k)).
    rewrite (IH _ (S s)) by assumption.
    rewrite Htr', Hat'. cbn [map]. now rewrite <- app_assoc.
Qed.

(** C4.  The delay armed by [scheduleReconnect] with attempt count [n] is
    [min (1000 * 2^n) 30000]; [k] failed attempts in a row after the first
    connection attempt arm the delays of the counts 0, 1, ..., k-1, that is
    1000, 2000, 4000, 8000, 16000, 30000, 30000 and 30000 from then on; the
    delays never decrease and never exceed 30000; the counter of a new
    client is 0, the reconnect timer adds one to it and [onopen] resets it
    to 0. *)
Theorem reconnect_backoff :
  (forall n, reconnectDelay n = Z.min (1000 * 2 ^ Z.of_nat n) 30000) /\
  (forall w, reconnectTimeout (client w) = None ->
             trace (exec scheduleReconnect w) =
             trace w ++ [TimeoutSet (reconnectDelay (attempts w))]) /\
  (forall n sendOutcomes k,
      scheduled_delays
        (trace (run (initial sendOutcomes [] [])
                    ([Call_channel n; Call_subscribe 0] ++ failures 0 k))) =
      map reconnectDelay (seq 0 k)) /\
  map reconnectDelay (seq 0 7) =
    [1000; 2000; 4000; 8000; 16000; 30000; 30000]%Z /\
  (forall n, reconnectDelay (5 + n) = 30000%Z) /\
  (forall n, (reconnectDelay n <= reconnectDelay (S n))%Z) /\
  (forall n, (reconnectDelay n <= 30000)%Z) /\
  attempts (initial [] [] []) = 0 /\
  (forall w, attempts (exec reconnectTimer w) = S (attempts w)) /\
  (forall w, attempts (exec onopen w) = 0).
Proof.
  repeat apply conj.
  - apply reconnectDelay_closed_form.
  - intros w H. unfold scheduleReconnect, exec, bind, get, emit, this, modify, attempts.
    rewrite H. reflexivity.
  - intros n so k. rewrite run_app.
    rewrite (failures_delays k _ 0); try reflexivity.
  - reflexivity.
  - apply reconnectDelay_capped.
  - apply reconnectDelay_mono.
  - apply reconnectDelay_cap.
  - reflexivity.
  - apply reconnectTimer_attempts.
  - apply onopen_attempts.
Qed.

(** ** Tearing down *)

Lemma nth_error_list_update {A} (l : list A) i x y :
  nth_error l i = Some y -> nth_error (list_update l i x) i = Some x.
Proof.
  revert i. induction l as [|a l IH]; intros [|i] H; cbn in *; try discriminate.
  - reflexivity.
  - now apply IH.
Qed.

Lemma nth_error_list_update_other {A} (l : list A) i j x :
  i <> j -> nth_error (list_update l i x) j = nth_error l j.
Proof.
  revert i j. induction l as [|a l IH]; intros [|i] [|j] H; cbn; try reflexivity.
  - congruence.
  - apply IH. congruence.
Qed.

Lemma closed_app w l :
  closed_sockets (trace w ++ l) = closed w ++ closed_sockets l.
Proof. unfold closed, closed_sockets. apply flat_map_app. Qed.

(** C9.  When the registry holds exactly one channel, registered under its
    name and subscribed, [unsubscribe] on it returns and leaves the
    registry empty, the state DISCONNECTED and no socket handle; the socket
    that was held, if any, has been closed; both timers are off, the
    queue is empty and the channel is no longer subscribed. *)
Theorem unsubscribe_last_tears_down :
  forall (w : World) (r : ChanRef) (c : RealtimeChannel),
    channels (client w) = [(name c, r)] ->
    nth_error (heap w) r = Some c ->
    subscribed c = true ->
    let w' := exec (channel_unsubscribe r) w in
    channel_unsubscribe r w = (Normal tt, w') /\
    channels (client w') = [] /\
    connectionState (client w') = DISCONNECTED /\
    ws (client w') = None /\
    closed w' = closed w ++ match ws (client w) with
                            | Some s => [s]
                            | None => []
                            end /\
    reconnectTimeout (client w') = None /\
    heartbeatInterval (client w') = None /\
    messageQueue (client w') = [] /\
    subscribed_at w' r = false.
Proof.
  intros w r c Hreg Hc Hsub w'.
  assert (K : keeps (fun w => (ws (client w), channels (client w), heap w, closed w))
                    (sendMessage (FUnsubscribe (name c)))) by keeps_all.
  specialize (K w). cbv beta in K. injection K as K1 K2 K3 K4.
  set (w1 := exec (sendMessage (FUnsubscribe (name c))) w) in *.
  assert (E : channel_unsubscribe r w =
              disconnect
                (set_client (set_channels [] (client w1))
                   (set_heap (list_update (heap w1) r
                                          (set_handlers [] (set_subscribed false c)))
                             w1))).
  { unfold channel_unsubscribe, unsubscribe.
    erewrite bind_normal by (apply deref_some; exact Hc).
    rewrite Hsub. cbn [negb].
    erewrite bind_normal by apply sendMessage_normal. fold w1.
    erewrite bind_normal by (apply deref_some; rewrite K3; exact Hc).
    unfold bind at 1, store at 1, modify.
    unfold handleChannelUnsubscribe.
    unfold bind at 1, getName, bind at 1.
    rewrite (deref_some r (set_handlers [] (set_subscribed false c)))
      by (cbn; apply nth_error_list_update with (y := c); rewrite K3; exact Hc).
    unfold ret at 1. unfold bind at 1, this at 1, modify.
    unfold bind, get. fields. rewrite K2, Hreg. cbn.
    rewrite String.eqb_refl. cbn. reflexivity. }
  assert (E' : w' = snd (channel_unsubscribe r w)) by reflexivity.
  rewrite E, disconnect_eq in E'. rewrite E, disconnect_eq.
  cbn [snd] in E'. fields.
  rewrite E'. unfold subscribed_at, closed. cbn.
  repeat split.
  - fold (closed w1). rewrite K1.
    rewrite closed_app, K4. destruct (ws (client w)); reflexivity.
  - erewrite nth_error_list_update by (rewrite K3; exact Hc). reflexivity.
Qed.

(** ** A channel that is never subscribed *)

Lemma Map_get_set_other {V} k k' (v : V) m :
  String.eqb k k' = false ->
  Map_get String.eqb k (Map_set String.eqb k' v m) = Map_get String.eqb k m.
Proof.
  intros H. induction m as [|[k0 v0] m IH]; cbn.
  - now rewrite H.
  - destruct (String.eqb k' k0) eqn:E1; cbn.
    + apply String.eqb_eq in E1. subst k0. now rewrite H.
    + destruct (String.eqb k k0); [reflexivity | exact IH].
Qed.

Lemma Map_get_delete_other {V} k k' (m : list (string * V)) :
  String.eqb k k' = false ->
  Map_get String.eqb k (Map_delete String.eqb k' m) = Map_get String.eqb k m.
Proof.
  intros H. induction m as [|[k0 v0] m IH]; cbn.
  - reflexivity.
  - destruct (String.eqb k' k0) eqn:E1; cbn.
    + apply String.eqb_eq in E1. subst k0. now rewrite H.
    + destruct (String.eqb k k0); [reflexivity | exact IH].
Qed.

Lemma unsubscribe_not_subscribed w r c :
  nth_error (heap w) r = Some c ->
  subscribed c = false ->
  channel_unsubscribe r w = (Normal tt, w).
Proof.
  intros Hc Hs. unfold channel_unsubscribe, unsubscribe.
  erewrite bind_normal by (apply deref_some; exact Hc).
  now rewrite Hs.
Qed.

Lemma handleChannelUnsubscribe_eq w r c :
  nth_error (heap w) r = Some c ->
  handleChannelUnsubscribe r w =
  let w1 := set_client (set_channels (Map_delete String.eqb (name c) (channels (client w)))
                                     (client w)) w in
  if negb (existsb (subscribed_at w1) (Map_values (channels (client w1)))) &&
     Nat.eqb (length (channels (client w1))) 0
  then disconnect w1
  else (Normal tt, w1).
Proof.
  intros Hc. unfold handleChannelUnsubscribe.
  unfold bind at 1, getName, bind at 1. rewrite (deref_some r c w Hc).
  unfold ret at 1. unfold bind at 1, this at 1, modify.
  unfold bind, get. cbv zeta.
  match goal with |- context [if ?b then _ else _] => destruct b end; reflexivity.
Qed.

Lemma sendMessage_keeps_rhc f : keeps rhc (sendMessage f).
Proof. keeps_all. Qed.

(** The world in which [subscribe] and [unsubscribe] notify the manager. *)
Lemma channel_subscribe_eq w r c :
  nth_error (heap w) r = Some c ->
  subscribed c = false ->
  let w1 := exec (sendMessage (FSubscribe (name c))) w in
  channel_subscribe r w =
  handleChannelSubscribe r
    (set_heap (list_update (heap w1) r (set_subscribed true c)) w1).
Proof.
  intros Hc Hs w1.
  pose proof (sendMessage_keeps_rhc (FSubscribe (name c)) w) as K.
  unfold rhc in K. injection K as _ K _. fold w1 in K.
  unfold channel_subscribe, subscribe.
  erewrite bind_normal by (apply deref_some; exact Hc).
  rewrite Hs.
  erewrite bind_normal by apply sendMessage_normal. fold w1.
  erewrite bind_normal by (apply deref_some; rewrite K; exact Hc).
  reflexivity.
Qed.

Lemma channel_unsubscribe_eq w r c :
  nth_error (heap w) r = Some c ->
  subscribed c = true ->
  let w1 := exec (sendMessage (FUnsubscribe (name c))) w in
  channel_unsubscribe r w =
  handleChannelUnsubscribe r
    (set_heap (list_update (heap w1) r (set_handlers [] (set_subscribed false c))) w1).
Proof.
  intros Hc Hs w1.
  pose proof (sendMessage_keeps_rhc (FUnsubscribe (name c)) w) as K.
  unfold rhc in K. injection K as _ K _. fold w1 in K.
  unfold channel_unsubscribe, unsubscribe.
  erewrite bind_normal by (apply deref_some; exact Hc).
  rewrite Hs. cbn [negb].
  erewrite bind_normal by apply sendMessage_normal. fold w1.
  erewrite bind_normal by (apply deref_some; rewrite K; exact Hc).
  reflexivity.
Qed.

Lemma idle_of_rhc n r w w' :
  rhc w' = rhc w ->
  idle_in_registry n r w ->
  idle_in_registry n r w' /\ closed w' = closed w.
Proof.
  unfold rhc, idle_in_registry. intros E H. injection E as E1 E2 E3.
  now rewrite E1, E2, E3.
Qed.

Lemma idle_store n r w r' c1 :
  idle_in_registry n r w ->
  (r' = r -> name c1 = n /\ subscribed c1 = false) ->
  idle_in_registry n r (set_heap (list_update (heap w) r' c1) w) /\
  closed (set_heap (list_update (heap w) r' c1) w) = closed w.
Proof.
  intros [Hreg (c & Hc & Hn & Hs)] Hsame. split; [|reflexivity].
  split; [exact Hreg|]. cbn.
  destruct (Nat.eq_dec r' r) as [->|Hne].
  - exists c1. split; [|now apply Hsame].
    now apply nth_error_list_update with (y := c).
  - exists c. rewrite nth_error_list_update_other by exact Hne. auto.
Qed.

Lemma idle_channel n r w m :
  idle_in_registry n r w ->
  idle_in_registry n r (exec (channel m) w) /\ closed (exec (channel m) w) = closed w.
Proof.
  intros [Hreg (c & Hc & Hn & Hs)].
  unfold channel, exec, bind, get.
  destruct (Map_get String.eqb m (channels (client w))) eqn:Hm; cbn.
  - split; [|reflexivity]. split; [exact Hreg|]. now exists c.
  - split; [|reflexivity]. split; fields.
    + rewrite Map_get_set_other; [exact Hreg|].
      destruct (String.eqb n m) eqn:E; [|reflexivity].
      apply String.eqb_eq in E. subst m. congruence.
    + exists c. split; [|auto].
      rewrite nth_error_app1; [exact Hc|].
      apply nth_error_Some. congruence.
Qed.

Lemma deref_none r w : nth_error (heap w) r = None -> deref r w = (Throw, w).
Proof. intros H. unfold deref. now rewrite H. Qed.

Lemma idle_on n r w r' ev h :
  idle_in_registry n r w ->
  idle_in_registry n r (exec (on r' ev h) w) /\ closed (exec (on r' ev h) w) = closed w.
Proof.
  intros H. unfold on, exec.
  destruct (nth_error (heap w) r') as [c'|] eqn:Hc'.
  2:{ erewrite bind_throw by (apply deref_none; exact Hc'). now split. }
  erewrite bind_normal by (apply deref_some; exact Hc').
  match goal with |- context [match ?x with Some _ => _ | None => _ end] => destruct x end;
    [|now split].
  unfold store, modify. cbn [snd].
  apply idle_store; [exact H|].
  intros ->. destruct H as [_ (c & Hc & Hn & Hs)].
  assert (c' = c) by congruence. subst c'. now split.
Qed.

Lemma idle_off n r w r' ev h :
  idle_in_registry n r w ->
  idle_in_registry n r (exec (off r' ev h) w) /\ closed (exec (off r' ev h) w) = closed w.
Proof.
  intros H. unfold off, exec.
  destruct (nth_error (heap w) r') as [c'|] eqn:Hc'.
  2:{ erewrite bind_throw by (apply deref_none; exact Hc'). now split. }
  erewrite bind_normal by (apply deref_some; exact Hc').
  assert (Hsame : forall hs, r' = r ->
                    name (set_handlers hs c') = n /\
                    subscribed (set_handlers hs c') = false).
  { intros hs ->. destruct H as [_ (c & Hc & Hn & Hs)].
    assert (c' = c) by congruence. subst c'. now split. }
  destruct h as [cb|].
  - match goal with |- context [match ?x with Some _ => _ | None => _ end] => destruct x end;
      [|now split].
    unfold store, modify. cbn [snd]. apply idle_store; [exact H | apply Hsame].
  - unfold store, modify. cbn [snd]. apply idle_store; [exact H | apply Hsame].
Qed.

Lemma handleChannelSubscribe_keeps_rhc r : keeps rhc (handleChannelSubscribe r).
Proof. keeps_all. Qed.

Lemma idle_subscribe n r w r' :
  idle_in_registry n r w ->
  r' <> r ->
  idle_in_registry n r (exec (channel_subscribe r') w) /\
  closed (exec (channel_subscribe r') w) = closed w.
Proof.
  intros H Hne.
  destruct (nth_error (heap w) r') as [c'|] eqn:Hc'.
  - destruct (subscribed c') eqn:Hs'.
    + unfold exec, channel_subscribe, subscribe.
      erewrite bind_normal by (apply deref_some; exact Hc').
      rewrite Hs'. now split.
    + unfold exec. rewrite (channel_subscribe_eq w r' c' Hc' Hs'). cbv zeta.
      set (w1 := exec (sendMessage (FSubscribe (name c'))) w).
      destruct (idle_of_rhc n r w w1 (sendMessage_keeps_rhc _ w) H) as [H1 C1].
      destruct (idle_store n r w1 r' (set_subscribed true c') H1) as [H2 C2];
        [congruence|].
      set (w2 := set_heap _ w1) in *.
      destruct (idle_of_rhc n r w2 _ (handleChannelSubscribe_keeps_rhc r' w2) H2)
        as [H3 C3].
      split; [exact H3|]. unfold exec in C3. congruence.
  - unfold exec, channel_subscribe, subscribe.
    erewrite bind_throw by (apply deref_none; exact Hc'). now split.
Qed.

Lemma idle_unsubscribe n r w r' :
  idle_in_registry n r w ->
  spares n r w (Call_unsubscribe r') = true ->
  idle_in_registry n r (exec (channel_unsubscribe r') w) /\
  closed (exec (channel_unsubscribe r') w) = closed w.
Proof.
  intros H Hsp. cbn in Hsp.
  destruct (nth_error (heap w) r') as [c'|] eqn:Hc'.
  2:{ unfold exec, channel_unsubscribe, unsubscribe.
      erewrite bind_throw by (apply deref_none; exact Hc'). now split. }
  destruct (subscribed c') eqn:Hs'.
  2:{ unfold exec. rewrite (unsubscribe_not_subscribed w r' c' Hc' Hs'). now split. }
  assert (Hne : r' <> r).
  { intros ->. destruct H as [_ (c & Hc & _ & Hs)]. congruence. }
  apply Nat.eqb_neq in Hne. rewrite Hne in Hsp. cbn in Hsp.
  apply Nat.eqb_neq in Hne.
  apply negb_true_iff in Hsp.
  unfold exec. rewrite (channel_unsubscribe_eq w r' c' Hc' Hs'). cbv zeta.
  set (w1 := exec (sendMessage (FUnsubscribe (name c'))) w).
  destruct (idle_of_rhc n r w w1 (sendMessage_keeps_rhc _ w) H) as [H1 C1].
  assert (Hh : heap w1 = heap w).
  { pose proof (sendMessage_keeps_rhc (FUnsubscribe (name c')) w) as K.
    unfold rhc in K. now injection K. }
  destruct (idle_store n r w1 r' (set_handlers [] (set_subscribed false c')) H1)
    as [H2 C2]; [congruence|].
  set (w2 := set_heap _ w1) in *.
  rewrite (handleChannelUnsubscribe_eq w2 r' (set_handlers [] (set_subscribed false c'))).
  2:{ subst w2. cbn. apply nth_error_list_update with (y := c'). now rewrite Hh. }
  cbv zeta. cbn [name set_handlers set_subscribed].
  set (w3 := set_client _ w2).
  assert (H3 : idle_in_registry n r w3).
  { destruct H2 as [Hreg Hobj]. split; [|exact Hobj].
    subst w3. cbn. now rewrite Map_get_delete_other. }
  assert (Hlen : Nat.eqb (length (channels (client w3))) 0 = false).
  { destruct H3 as [Hreg _]. destruct (channels (client w3)); [discriminate|reflexivity]. }
  rewrite Hlen, andb_false_r. cbn [snd].
  split; [exact H3|]. change (closed w3) with (closed w2). congruence.
Qed.

Lemma step_spared n r w e :
  idle_in_registry n r w ->
  spares n r w e = true ->
  idle_in_registry n r (step w e) /\ closed (step w e) = closed w.
Proof.
  intros H Hsp.
  assert (Hk : forall m : M unit, keeps rhc m ->
               idle_in_registry n r (exec m w) /\ closed (exec m w) = closed w).
  { intros m K. apply idle_of_rhc; [apply K | exact H]. }
  destruct e; unfold step, handle; try discriminate.
  - assert (E : exec (channel n0 ;; ret tt) w = exec (channel n0) w).
    { unfold exec, bind, ret. now destruct (channel n0 w) as [[a|] w1]. }
    rewrite E. now apply idle_channel.
  - now apply idle_on.
  - now apply idle_off.
  - apply idle_subscribe; [exact H|]. cbn in Hsp.
    apply negb_true_iff, Nat.eqb_neq in Hsp. exact Hsp.
  - now apply idle_unsubscribe.
  - apply Hk. keeps_all.
  - apply Hk. keeps_all.
  - apply Hk. keeps_all.
  - apply Hk. keeps_all.
  - apply Hk. keeps_all.
  - apply Hk. keeps_all.
  - apply Hk. keeps_all.
Qed.

Lemma run_spared n r es :
  forall w,
    idle_in_registry n r w ->
    spared n r w es = true ->
    idle_in_registry n r (run w es) /\ closed (run w es) = closed w.
Proof.
  induction es as [|e es IH]; intros w H Hsp; cbn in *.
  - now split.
  - apply andb_true_iff in Hsp. destruct Hsp as [Hsp1 Hsp2].
    destruct (step_spared n r w e H Hsp1) as [H1 C1].
    destruct (IH _ H1 Hsp2) as [H2 C2]. unfold run in H2, C2.
    split; [exact H2 | congruence].
Qed.

Lemma step_stays_up n r w e :
  idle_in_registry n r (step w e) ->
  connectionState (client (step w e)) = DISCONNECTED ->
  connectionState (client w) = DISCONNECTED.
Proof.
  intros [Hreg _] Hd.
  destruct (step_cs w e) as [E|[Hw|He] E|E|E|_ E|_ E]; unfold cs in E;
    injection E as E1 E2 E3; try congruence.
  rewrite He in Hreg. discriminate.
Qed.

Lemma run_spared_state n r es :
  forall w,
    idle_in_registry n r w ->
    spared n r w es = true ->
    connectionState (client (run w es)) = DISCONNECTED ->
    connectionState (client w) = DISCONNECTED.
Proof.
  induction es as [|e es IH]; intros w H Hsp Hd; cbn in *.
  - exact Hd.
  - apply andb_true_iff in Hsp. destruct Hsp as [Hsp1 Hsp2].
    destruct (step_spared n r w e H Hsp1) as [H1 _].
    apply (step_stays_up n r w e H1).
    now apply IH.
Qed.

(** C10, as stated, fails: the registry is keyed by name.  After
    [channel("a").subscribe()] and [unsubscribe()], a second [channel("a")]
    registers a new object that is never subscribed; [subscribe()] and
    [unsubscribe()] on the first object then delete the entry of the second
    and, the registry being empty, tear the connection down. *)
Lemma idle_channel_stays_fails :
  ~ idle_channel_stays
      "a" 1
      (run (initial [] [] [])
           [Call_channel "a"; Call_subscribe 0; Call_unsubscribe 0; Call_channel "a"]).
Proof.
  intros H.
  assert (I : idle_in_registry
                "a" 1
                (run (initial [] [] [])
                     [Call_channel "a"; Call_subscribe 0; Call_unsubscribe 0;
                      Call_channel "a"])).
  { split; [vm_compute; reflexivity|]. exists (mkChannel "a" [] false).
    repeat apply conj; vm_compute; reflexivity. }
  destruct (H I [Call_subscribe 0; Call_unsubscribe 0] eq_refl) as [E _].
  vm_compute in E. discriminate.
Qed.

(** C10, amended.  [unsubscribe] on a channel object that is not subscribed
    returns with the world unchanged: nothing is sent or queued, the
    handlers and the registry stay.  When that object is registered, the
    removal of a channel of another name by [handleChannelUnsubscribe] never
    reaches [disconnect]; and along every run without [disconnect()],
    without [subscribe()] on the object and without [unsubscribe()] on
    another object of the same name, the object stays registered and
    unsubscribed, the registry stays non-empty, the manager closes no socket
    and the state does not become DISCONNECTED. *)
Theorem unsubscribe_idle_channel :
  forall (w : World) (r : ChanRef) (c : RealtimeChannel),
    nth_error (heap w) r = Some c ->
    subscribed c = false ->
    channel_unsubscribe r w = (Normal tt, w) /\
    (Map_get String.eqb (name c) (channels (client w)) = Some r ->
     (forall r' c',
         nth_error (heap w) r' = Some c' ->
         name c' <> name c ->
         handleChannelUnsubscribe r' w =
         (Normal tt,
          set_client
            (set_channels (Map_delete String.eqb (name c') (channels (client w)))
                          (client w)) w)) /\
     (forall es,
         spared (name c) r w es = true ->
         let w' := run w es in
         Map_get String.eqb (name c) (channels (client w')) = Some r /\
         channels (client w') <> [] /\
         subscribed_at w' r = false /\
         closed w' = closed w /\
         (connectionState (client w') = DISCONNECTED ->
          connectionState (client w) = DISCONNECTED))).
Proof.
  intros w r c Hc Hs. split.
  - now apply unsubscribe_not_subscribed with (c := c).
  - intros Hreg.
    assert (Hidle : idle_in_registry (name c) r w).
    { split; [exact Hreg|]. now exists c. }
    split.
    + intros r' c' Hc' Hne.
      rewrite (handleChannelUnsubscribe_eq w r' c' Hc'). cbv zeta.
      set (w1 := set_client _ w).
      assert (Hget : Map_get String.eqb (name c) (channels (client w1)) = Some r).
      { subst w1. cbn. rewrite Map_get_delete_other; [exact Hreg|].
        apply String.eqb_neq. congruence. }
      destruct (channels (client w1)); [discriminate|].
      cbn [length Nat.eqb]. now rewrite andb_false_r.
    + intros es Hsp w'.
      destruct (run_spared (name c) r es w Hidle Hsp) as [[Hreg' (c1 & Hc1 & _ & Hs1)] Hcl].
      fold w' in Hreg', Hc1, Hcl.
      repeat split.
      * exact Hreg'.
      * intros E. rewrite E in Hreg'. discriminate.
      * unfold subscribed_at. now rewrite Hc1.
      * exact Hcl.
      * apply (run_spared_state (name c) r es w Hidle Hsp).
Qed.

(** ** subscribe *)

Lemma subscribe_subscribed w r c :
  nth_error (heap w) r = Some c ->
  subscribed c = true ->
  channel_subscribe r w = (Normal tt, w).
Proof.
  intros Hc Hs. unfold channel_subscribe, subscribe.
  erewrite bind_normal by (apply deref_some; exact Hc).
  now rewrite Hs.
Qed.

(** On an open connection whose [send] does not raise, two calls of
    [subscribe()] put one frame on the wire. *)
Lemma subscribe_twice_connected w r c s :
  nth_error (heap w) r = Some c ->
  subscribed c = false ->
  connectionState (client w) = CONNECTED ->
  ws (client w) = Some s ->
  hd false (sendThrows w) = false ->
  trace (run w [Call_subscribe r; Call_subscribe r]) =
  trace w ++ [Sent s (FSubscribe (name c))].
Proof.
  intros Hc Hs Hst Hws Hsend.
  cbn [run fold_left]. unfold step at 2. unfold handle, exec.
  rewrite (channel_subscribe_eq w r c Hc Hs). cbv zeta.
  assert (E1 : exec (sendMessage (FSubscribe (name c))) w =
               set_trace (trace w ++ [Sent s (FSubscribe (name c))])
                         (set_sendThrows (tl (sendThrows w)) w)).
  { unfold exec. now rewrite sendMessage_cases, Hst, Hws, Hsend. }
  rewrite E1.
  set (w2 := set_heap _ _).
  assert (E2 : handleChannelSubscribe r w2 = (Normal tt, w2)).
  { unfold handleChannelSubscribe, bind, get. subst w2. cbn. now rewrite Hst. }
  rewrite E2. cbn [snd].
  unfold step, handle, exec.
  rewrite (subscribe_subscribed w2 r (set_subscribed true c)).
  - reflexivity.
  - subst w2. cbn. now apply nth_error_list_update with (y := c).
  - reflexivity.
Qed.

(** C1.  A second [subscribe()] on a subscribed channel does nothing, and on
    an open connection two calls put one "subscribe" frame on the wire.  But
    on a fresh client, [channel(n)], [subscribe()], [subscribe()] and then
    the opening of the socket put two "subscribe" frames for [n] on the
    wire: the one queued by the lazy connect, sent by the flush, and the one
    of [resubscribeChannels]. *)
Theorem lazy_subscribe_sends_twice :
  (forall w r c, nth_error (heap w) r = Some c -> subscribed c = true ->
                 channel_subscribe r w = (Normal tt, w)) /\
  (forall w r c s,
      nth_error (heap w) r = Some c -> subscribed c = false ->
      connectionState (client w) = CONNECTED -> ws (client w) = Some s ->
      hd false (sendThrows w) = false ->
      trace (run w [Call_subscribe r; Call_subscribe r]) =
      trace w ++ [Sent s (FSubscribe (name c))]) /\
  forall n : string,
    let w := run (initial [] [] [])
                 [Call_channel n; Call_subscribe 0; Call_subscribe 0; Socket_open 0] in
    trace w = [SocketCreated 0; Sent 0 (FSubscribe n); Sent 0 (FSubscribe n)] /\
    subscribe_frames n (trace w) = 2.
Proof.
  split; [exact subscribe_subscribed|].
  split; [exact subscribe_twice_connected|].
  intros n w.
  assert (E : trace w = [SocketCreated 0; Sent 0 (FSubscribe n); Sent 0 (FSubscribe n)])
    by (vm_compute; reflexivity).
  split; [exact E|].
  rewrite E. unfold subscribe_frames. cbn. rewrite String.eqb_refl. reflexivity.
Qed.

(** ** disconnect *)

(** C2, as stated, fails: after [channel("a")], [on(INSERT, h)],
    [subscribe()] and [disconnect()], the object still has its handler and
    is still subscribed. *)
Lemma disconnect_resets_channels_fails :
  ~ disconnect_resets_channels
      (run (initial [] [] [])
           [Call_channel "a"; Call_on 0 INSERT (quiet 0); Call_subscribe 0]).
Proof.
  unfold disconnect_resets_channels. intros (_ & _ & _ & H).
  destruct (H 0 (mkChannel "a" [(INSERT, [quiet 0])] true)) as [H1 _].
  - vm_compute. reflexivity.
  - discriminate.
Qed.

(** C2, amended.  [disconnect()] returns and leaves the state
    DISCONNECTED, the registry and the queue empty, no socket handle and no
    timer; the channel objects are not touched: each keeps its handlers and
    its subscribed flag. *)
Theorem disconnect_clears_manager_only :
  forall w : World,
    let w' := exec disconnect w in
    disconnect w = (Normal tt, w') /\
    connectionState (client w') = DISCONNECTED /\
    channels (client w') = [] /\
    messageQueue (client w') = [] /\
    ws (client w') = None /\
    reconnectTimeout (client w') = None /\
    heartbeatInterval (client w') = None /\
    heap w' = heap w.
Proof.
  intros w w'. subst w'. unfold exec. rewrite disconnect_eq. cbn.
  repeat split.
Qed.

(** C5.  [onopen] sets the state to CONNECTED in every world: it looks at
    no state.  After [subscribe()] the state is CONNECTING; [disconnect()]
    makes it DISCONNECTED with no heartbeat; the close and error callbacks
    of the abandoned socket then change nothing, but its open callback sets
    the state to CONNECTED and starts the heartbeat. *)
Theorem open_after_disconnect_reconnects :
  (forall w, connectionState (client (exec onopen w)) = CONNECTED) /\
  forall n : string,
    let w0 := run (initial [] [] []) [Call_channel n; Call_subscribe 0] in
    let w1 := step w0 Call_disconnect in
    let w2 := step w1 (Socket_open 0) in
    connectionState (client w0) = CONNECTING /\
    connectionState (client w1) = DISCONNECTED /\
    heartbeatInterval (client w1) = None /\
    step w1 (Socket_close 0) = w1 /\
    step w1 (Socket_error 0) = w1 /\
    connectionState (client w2) = CONNECTED /\
    heartbeatInterval (client w2) = Some HEARTBEAT_INTERVAL_MS /\
    trace w2 = trace w1.
Proof.
  split.
  - intros w. pose proof (onopen_cs w) as E. unfold cs in E. now injection E.
  - intros n w0 w1 w2. repeat apply conj; vm_compute; reflexivity.
Qed.

(** ** Connections left open *)

(** The world after [channel(n).subscribe()] and [unsubscribe()] on a fresh
    client: the socket of the lazy connect has been closed by the teardown,
    its close callback is still to come. *)
Lemma subscribe_unsubscribe_world n :
  run (initial [] [] []) [Call_channel n; Call_subscribe 0; Call_unsubscribe 0] =
  mkWorld (mkClient None [] DISCONNECTED 0 None None [])
          [mkChannel n [] false] 1 [0] [SocketCreated 0; SocketClosed 0] [] [] [].
Proof.
  assert (E : run (initial [] [] []) [Call_channel n; Call_subscribe 0] =
              mkWorld (mkClient (Some 0) [(n, 0)] CONNECTING 0 None None [FSubscribe n])
                      [mkChannel n [] true] 1 [0] [SocketCreated 0] [] [] [])
    by (vm_compute; reflexivity).
  rewrite (run_app (initial [] [] []) [Call_channel n; Call_subscribe 0]
                   [Call_unsubscribe 0]
           : run (initial [] [] []) [Call_channel n; Call_subscribe 0; Call_unsubscribe 0] = _).
  rewrite E. clear E.
  set (W := mkWorld _ _ _ _ _ _ _ _).
  assert (E1 : run W [Call_unsubscribe 0] = snd (channel_unsubscribe 0 W)) by reflexivity.
  rewrite E1. clear E1.
  rewrite (channel_unsubscribe_eq W 0 (mkChannel n [] true) eq_refl eq_refl).
  cbv zeta.
  match goal with
  | |- snd (handleChannelUnsubscribe 0 ?w) = _ =>
      assert (E2 : w = mkWorld (mkClient (Some 0) [(n, 0)] CONNECTING 0 None None
                                         [FSubscribe n; FUnsubscribe n])
                               [mkChannel n [] false] 1 [0] [SocketCreated 0] [] [] [])
        by (vm_compute; reflexivity);
      rewrite E2; clear E2
  end.
  clear W.
  set (W := mkWorld _ _ _ _ _ _ _ _).
  rewrite (handleChannelUnsubscribe_eq W 0 (mkChannel n [] false) eq_refl).
  subst W.
  cbv zeta. cbn [name channels client Map_delete].
  rewrite String.eqb_refl.
  vm_compute. reflexivity.
Qed.

(** The world after the close callback of that socket has reached a client
    that has connected again, and the reconnect timer has fired. *)
Lemma stale_close_world n :
  run (initial [] [] [])
      [Call_channel n; Call_subscribe 0; Call_unsubscribe 0;
       Call_channel n; Call_subscribe 1; Socket_close 0; Timer_reconnect] =
  mkWorld (mkClient (Some 2) [(n, 1)] CONNECTING 1 None None [FSubscribe n])
          [mkChannel n [] false; mkChannel n [] true] 3 [2; 1; 0]
          [SocketCreated 0; SocketClosed 0; SocketCreated 1;
           TimeoutSet 1000; SocketCreated 2] [] [] [].
Proof.
  rewrite (run_app (initial [] [] [])
                   [Call_channel n; Call_subscribe 0; Call_unsubscribe 0]
                   [Call_channel n; Call_subscribe 1; Socket_close 0; Timer_reconnect]
           : run (initial [] [] [])
                 [Call_channel n; Call_subscribe 0; Call_unsubscribe 0;
                  Call_channel n; Call_subscribe 1; Socket_close 0; Timer_reconnect] = _).
  rewrite subscribe_unsubscribe_world. vm_compute. reflexivity.
Qed.

(** C3.  The handle field alone is used as the claim says: after every run
    from a fresh client no handle is held while DISCONNECTED or
    RECONNECTING, and a turn that makes a socket starts with the handle
    absent and ends with the new socket as the handle.  But the connections
    are not one at a time: after [channel(n).subscribe()], [unsubscribe()],
    [channel(n).subscribe()], the close callback of the first socket (which
    the teardown closed) and the reconnect timer, the second socket is
    still open with its callbacks installed, the manager has dropped its
    handle without closing it, and a third socket has been made beside
    it. *)
Theorem stale_close_leaks_socket :
  (forall (sendOutcomes ctorOutcomes getItemOutcomes : list bool) (es : list Event),
      let w := run (initial sendOutcomes ctorOutcomes getItemOutcomes) es in
      handle_consistent w /\
      forall e, sockets (step w e) <> sockets w ->
                ws (client w) = None /\
                sockets (step w e) = S (sockets w) /\
                ws (client (step w e)) = Some (sockets w)) /\
  forall n : string,
    let es := [Call_channel n; Call_subscribe 0; Call_unsubscribe 0;
               Call_channel n; Call_subscribe 1; Socket_close 0; Timer_reconnect] in
    let w := run (initial [] [] []) es in
    created_sockets (trace w) = [0; 1; 2] /\
    closed w = [0] /\
    transport_closed es = [0] /\
    live_sockets (initial [] [] []) es = [1; 2] /\
    ws (client w) = Some 2 /\
    is_wired 1 w = true /\
    connectionState (client (step w (Socket_open 1))) = CONNECTED.
Proof.
  split.
  - intros so co go es w. split.
    + apply run_consistent. exact (eq_refl : None = None).
    + apply run_makes_socket_without_handle.
  - intros n. cbv zeta. unfold live_sockets. rewrite !stale_close_world.
    repeat apply conj; vm_compute; reflexivity.
Qed.

(** ** The theorems at sample inputs *)

Lemma flush_is_fifo_witness :
  connectionState (client pending_world) <> CONNECTED /\
  ws (client pending_world) = Some 0 /\
  trace (exec (this (set_connectionState CONNECTED) ;;
               this (set_reconnectAttempts 0) ;;
               startHeartbeat ;;
               flushMessageQueue)
              (exec (for_of [FHeartbeat; FSubscribe "b"; FUnsubscribe "b"] sendMessage)
                    pending_world)) =
  [SocketCreated 0; Sent 0 (FSubscribe "a"); Sent 0 FHeartbeat;
   Sent 0 (FSubscribe "b"); Sent 0 (FUnsubscribe "b")].
Proof.
  assert (H1 : connectionState (client pending_world) <> CONNECTED)
    by (vm_compute; discriminate).
  assert (H2 : ws (client pending_world) = Some 0) by (vm_compute; reflexivity).
  split; [exact H1|]. split; [exact H2|].
  destruct (flush_is_fifo pending_world 0
                          [FHeartbeat; FSubscribe "b"; FUnsubscribe "b"] H1 H2)
    as (_ & _ & _ & _ & _ & H & _).
  destruct (H eq_refl) as [E _]. rewrite E. vm_compute. reflexivity.
Defined.

Lemma dispatch_isolates_handlers_witness :
  nth_error (heap handlers_world) 0 = Some handlers_channel /\
  fst (dispatch 0 update_payload handlers_world) = Normal tt /\
  invocations (trace (exec (dispatch 0 update_payload) handlers_world)) =
  [(1, update_payload); (2, update_payload); (3, update_payload); (4, update_payload)].
Proof.
  assert (H : nth_error (heap handlers_world) 0 = Some handlers_channel)
    by (vm_compute; reflexivity).
  split; [exact H|].
  destruct (dispatch_isolates_handlers handlers_world 0 handlers_channel
                                       update_payload H) as (E & _ & _).
  unfold exec. rewrite E. split; vm_compute; reflexivity.
Defined.

Lemma unsubscribe_last_tears_down_witness :
  channels (client connected_world) = [("a", 0)] /\
  nth_error (heap connected_world) 0 = Some (mkChannel "a" [] true) /\
  connectionState (client connected_world) = CONNECTED /\
  connectionState (client (exec (channel_unsubscribe 0) connected_world)) = DISCONNECTED /\
  channels (client (exec (channel_unsubscribe 0) connected_world)) = [] /\
  ws (client (exec (channel_unsubscribe 0) connected_world)) = None /\
  closed (exec (channel_unsubscribe 0) connected_world) = [0].
Proof.
  assert (H1 : channels (client connected_world) = [(name (mkChannel "a" [] true), 0)])
    by (vm_compute; reflexivity).
  assert (H2 : nth_error (heap connected_world) 0 = Some (mkChannel "a" [] true))
    by (vm_compute; reflexivity).
  destruct (unsubscribe_last_tears_down connected_world 0 (mkChannel "a" [] true)
                                        H1 H2 eq_refl)
    as (_ & E1 & E2 & E3 & E4 & _).
  repeat apply conj.
  - exact H1.
  - exact H2.
  - vm_compute. reflexivity.
  - exact E2.
  - exact E1.
  - exact E3.
  - rewrite E4. vm_compute. reflexivity.
Defined.

Lemma unsubscribe_idle_channel_witness :
  nth_error (heap idle_world) 0 = Some (mkChannel "idle" [] false) /\
  channel_unsubscribe 0 idle_world = (Normal tt, idle_world) /\
  Map_get String.eqb "idle"
          (channels (client (run idle_world [Call_unsubscribe 1; Call_unsubscribe 0]))) =
  Some 0 /\
  closed (run idle_world [Call_unsubscribe 1; Call_unsubscribe 0]) = [].
Proof.
  assert (H : nth_error (heap idle_world) 0 = Some (mkChannel "idle" [] false))
    by (vm_compute; reflexivity).
  destruct (unsubscribe_idle_channel idle_world 0 (mkChannel "idle" [] false) H eq_refl)
    as [E1 E2].
  destruct (E2 eq_refl) as [_ E3].
  destruct (E3 [Call_unsubscribe 1; Call_unsubscribe 0] eq_refl)
    as (R1 & _ & _ & R2 & _).
  repeat apply conj.
  - exact H.
  - exact E1.
  - exact R1.
  - rewrite R2. vm_compute. reflexivity.
Defined.

(** * Further properties of the two classes *)

(** ** JavaScript maps and sets *)

Section MapFacts.
Context {K V : Type} (eqb : K -> K -> bool).
Hypothesis eqb_eq : forall a b, eqb a b = true <-> a = b.

Lemma eqb_same a : eqb a a = true.
Proof. now apply eqb_eq. Qed.

Lemma eqb_diff a b : a <> b -> eqb a b = false.
Proof.
  intros H. destruct (eqb a b) eqn:E; [|reflexivity].
  apply eqb_eq in E. contradiction.
Qed.

Lemma Map_get_set_same k (v : V) m : Map_get eqb k (Map_set eqb k v m) = Some v.
Proof.
  induction m as [|[k0 v0] m IH]; cbn.
  - now rewrite eqb_same.
  - destruct (eqb k k0) eqn:E; cbn; rewrite E; [reflexivity | exact IH].
Qed.

Lemma Map_get_set_diff k k' (v : V) m :
  k' <> k -> Map_get eqb k' (Map_set eqb k v m) = Map_get eqb k' m.
Proof.
  intros H. induction m as [|[k0 v0] m IH]; cbn.
  - now rewrite eqb_diff.
  - destruct (eqb k k0) eqn:E; cbn.
    + apply eqb_eq in E. subst k0. now rewrite eqb_diff.
    + destruct (eqb k' k0); [reflexivity | exact IH].
Qed.

Lemma Map_get_delete_diff k k' (m : list (K * V)) :
  k' <> k -> Map_get eqb k' (Map_delete eqb k m) = Map_get eqb k' m.
Proof.
  intros H. induction m as [|[k0 v0] m IH]; cbn.
  - reflexivity.
  - destruct (eqb k k0) eqn:E; cbn.
    + apply eqb_eq in E. subst k0. now rewrite eqb_diff.
    + destruct (eqb k' k0); [reflexivity | exact IH].
Qed.

Lemma Map_get_none_notin k (m : list (K * V)) :
  ~ In k (map fst m) -> Map_get eqb k m = None.
Proof.
  induction m as [|[k0 v0] m IH]; cbn; intros H.
  - reflexivity.
  - rewrite eqb_diff by (intros ->; apply H; now left).
    apply IH. intros Hin. apply H. now right.
Qed.

Lemma Map_get_in k (v : V) m : Map_get eqb k m = Some v -> In (k, v) m.
Proof.
  induction m as [|[k0 v0] m IH]; cbn; intros H.
  - discriminate.
  - destruct (eqb k k0) eqn:E.
    + apply eqb_eq in E. subst k0. injection H as ->. now left.
    + right. now apply IH.
Qed.

Lemma Map_delete_incl k (m : list (K * V)) x : In x (Map_delete eqb k m) -> In x m.
Proof.
  induction m as [|[k0 v0] m IH]; cbn; intros H.
  - contradiction.
  - destruct (eqb k k0); [now right|].
    destruct H as [H|H]; [now left | right; now apply IH].
Qed.

Lemma Map_delete_keys_in k (m : list (K * V)) x :
  In x (map fst (Map_delete eqb k m)) -> In x (map fst m).
Proof.
  rewrite !in_map_iff. intros (y & E & H). exists y. split; [exact E|].
  now apply Map_delete_incl with (k := k).
Qed.

Lemma Map_delete_values_in k (m : list (K * V)) x :
  In x (map snd (Map_delete eqb k m)) -> In x (map snd m).
Proof.
  rewrite !in_map_iff. intros (y & E & H). exists y. split; [exact E|].
  now apply Map_delete_incl with (k := k).
Qed.

Lemma Map_delete_NoDup_keys k (m : list (K * V)) :
  NoDup (map fst m) -> NoDup (map fst (Map_delete eqb k m)).
Proof.
  induction m as [|[k0 v0] m IH]; cbn; intros H.
  - constructor.
  - inversion H as [|? ? Hn Hd]; subst.
    destruct (eqb k k0); [exact Hd|]. cbn. constructor.
    + intros Hin. apply Hn. now apply Map_delete_keys_in with (k := k).
    + now apply IH.
Qed.

Lemma Map_delete_NoDup_values k (m : list (K * V)) :
  NoDup (map snd m) -> NoDup (map snd (Map_delete eqb k m)).
Proof.
  induction m as [|[k0 v0] m IH]; cbn; intros H.
  - constructor.
  - inversion H as [|? ? Hn Hd]; subst.
    destruct (eqb k k0); [exact Hd|]. cbn. constructor.
    + intros Hin. apply Hn. now apply Map_delete_values_in with (k := k).
    + now apply IH.
Qed.

Lemma Map_get_delete_same k (m : list (K * V)) :
  NoDup (map fst m) -> Map_get eqb k (Map_delete eqb k m) = None.
Proof.
  induction m as [|[k0 v0] m IH]; cbn; intros H.
  - reflexivity.
  - inversion H as [|? ? Hn Hd]; subst.
    destruct (eqb k k0) eqn:E; cbn.
    + apply eqb_eq in E. subst k0. now apply Map_get_none_notin.
    + rewrite E. now apply IH.
Qed.

Lemma Map_set_fresh k (v : V) m :
  Map_get eqb k m = None -> Map_set eqb k v m = m ++ [(k, v)].
Proof.
  induction m as [|[k0 v0] m IH]; cbn; intros H.
  - reflexivity.
  - destruct (eqb k k0); [discriminate|]. now rewrite IH.
Qed.

Lemma Map_get_none_keys k (m : list (K * V)) :
  Map_get eqb k m = None -> ~ In k (map fst m).
Proof.
  induction m as [|[k0 v0] m IH]; cbn; intros H.
  - tauto.
  - destruct (eqb k k0) eqn:E; [discriminate|].
    intros [->|Hin]; [now rewrite eqb_same in E | now apply IH].
Qed.
End MapFacts.

Lemma RealtimeEventType_eqb_eq a b : RealtimeEventType_eqb a b = true <-> a = b.
Proof. destruct a, b; cbn; split; congruence. Qed.

(** ** channel(name) and the registry *)

Lemma channel_cases n w :
  channel n w =
  match Map_get String.eqb n (channels (client w)) with
  | Some r => (Normal r, w)
  | None =>
      (Normal (length (heap w)),
       set_client
         (set_channels (Map_set String.eqb n (length (heap w)) (channels (client w)))
                       (client w))
         (set_heap (heap w ++ [mkChannel n [] false]) w))
  end.
Proof.
  unfold channel, bind, get, modify, this, ret.
  destruct (Map_get String.eqb n (channels (client w))); reflexivity.
Qed.

Lemma channel_registers n w :
  exists r,
    channel n w = (Normal r, exec (channel n) w) /\
    Map_get String.eqb n (channels (client (exec (channel n) w))) = Some r /\
    (Map_get String.eqb n (channels (client w)) = None ->
     r = length (heap w) /\
     nth_error (heap (exec (channel n) w)) r = Some (mkChannel n [] false)).
Proof.
  unfold exec. rewrite channel_cases.
  destruct (Map_get String.eqb n (channels (client w))) as [r|] eqn:E; cbn [snd].
  - exists r. repeat split; [exact E | discriminate | discriminate].
  - exists (length (heap w)). fields.
    rewrite (Map_get_set_same String.eqb String.eqb_eq).
    repeat split.
    rewrite nth_error_app2, Nat.sub_diag by apply Nat.le_refl. reflexivity.
Qed.

(** X1.  [channel(name)] returns normally; a second call with the same name
    returns the same object and changes nothing; the object returned is the
    one registered under the name, and when the name was registered before
    the call the world is not changed at all. *)
Theorem channel_memoized :
  forall (w : World) (n : string),
    let w1 := exec (channel n) w in
    exists r,
      channel n w = (Normal r, w1) /\
      channel n w1 = (Normal r, w1) /\
      Map_get String.eqb n (channels (client w1)) = Some r /\
      (Map_has String.eqb n (channels (client w)) = true -> w1 = w) /\
      (Map_has String.eqb n (channels (client w)) = false ->
       r = length (heap w) /\
       nth_error (heap w1) r = Some (mkChannel n [] false) /\
       channels (client w1) = channels (client w) ++ [(n, r)]).
Proof.
  intros w n w1. subst w1. unfold exec, Map_has. rewrite channel_cases.
  destruct (Map_get String.eqb n (channels (client w))) as [r|] eqn:E; cbn [snd].
  - exists r. rewrite channel_cases, E. repeat split; try reflexivity; discriminate.
  - exists (length (heap w)). rewrite channel_cases. fields.
    rewrite (Map_get_set_same String.eqb String.eqb_eq).
    repeat split; try reflexivity; try discriminate.
    + rewrite nth_error_app2, Nat.sub_diag by apply Nat.le_refl. reflexivity.
    + now apply (Map_set_fresh String.eqb).
Qed.

Lemma names_store w r c c' :
  nth_error (heap w) r = Some c ->
  name c' = name c ->
  map name (list_update (heap w) r c') = map name (heap w).
Proof.
  generalize (heap w) as l. intros l. revert r.
  induction l as [|a l IH]; intros [|r] H E; cbn in *; try reflexivity.
  - injection H as ->. now rewrite E.
  - now rewrite IH.
Qed.

Lemma wf_of_reg w w' : reg w' = reg w -> registry_wf w -> registry_wf w'.
Proof.
  unfold reg, registry_wf. intros E H. injection E as E1 E2. now rewrite E1, E2.
Qed.

Lemma wf_store w r c c' :
  nth_error (heap w) r = Some c ->
  name c' = name c ->
  reg (set_heap (list_update (heap w) r c') w) = reg w.
Proof.
  intros Hc Hn. unfold reg. cbn. now rewrite (names_store w r c c').
Qed.

Lemma wf_channel w n : registry_wf w -> registry_wf (exec (channel n) w).
Proof.
  intros (Hk & Hv & Hobj). unfold exec. rewrite channel_cases.
  destruct (Map_get String.eqb n (channels (client w))) as [r|] eqn:E; cbn [snd].
  - now repeat split.
  - assert (Hlt : forall n0 r0, In (n0, r0) (channels (client w)) -> r0 < length (heap w)).
    { intros n0 r0 Hin. apply Hobj in Hin.
      rewrite <- (length_map name). apply nth_error_Some. congruence. }
    unfold registry_wf. fields.
    rewrite (Map_set_fresh String.eqb) by exact E.
    rewrite !map_app. cbn [map fst snd].
    repeat split.
    + apply NoDup_app.
      * exact Hk.
      * constructor; [tauto | constructor].
      * intros a Ha [<-|[]].
        now apply (Map_get_none_keys String.eqb String.eqb_eq) in E.
    + apply NoDup_app.
      * exact Hv.
      * constructor; [tauto | constructor].
      * intros a Ha [<-|[]].
        apply in_map_iff in Ha. destruct Ha as ([n0 r0] & Er & Hin). cbn in Er. subst r0.
        apply Hlt in Hin. lia.
    + intros n0 r0 Hin. apply in_app_or in Hin. destruct Hin as [Hin|[Hin|[]]].
      * rewrite nth_error_app1.
        -- now apply Hobj.
        -- rewrite length_map. now apply Hlt with (n0 := n0).
      * injection Hin as <- <-.
        rewrite nth_error_app2; rewrite length_map; [|apply Nat.le_refl].
        now rewrite Nat.sub_diag.
Qed.

Lemma on_keeps_reg r ev h w : reg (exec (on r ev h) w) = reg w.
Proof.
  unfold on, exec.
  destruct (nth_error (heap w) r) as [c|] eqn:Hc.
  2:{ now erewrite bind_throw by (apply deref_none; exact Hc). }
  erewrite bind_normal by (apply deref_some; exact Hc).
  match goal with |- context [match ?x with Some _ => _ | None => _ end] => destruct x end;
    [|reflexivity].
  unfold store, modify. cbn [snd]. now apply wf_store with (c := c).
Qed.

Lemma off_keeps_reg r ev h w : reg (exec (off r ev h) w) = reg w.
Proof.
  unfold off, exec.
  destruct (nth_error (heap w) r) as [c|] eqn:Hc.
  2:{ now erewrite bind_throw by (apply deref_none; exact Hc). }
  erewrite bind_normal by (apply deref_some; exact Hc).
  destruct h as [cb|].
  - match goal with |- context [match ?x with Some _ => _ | None => _ end] => destruct x end;
      [|reflexivity].
    unfold store, modify. cbn [snd]. now apply wf_store with (c := c).
  - unfold store, modify. cbn [snd]. now apply wf_store with (c := c).
Qed.

Lemma sendMessage_keeps_reg f : keeps reg (sendMessage f).
Proof. keeps_all. Qed.

Lemma handleChannelSubscribe_keeps_reg r : keeps reg (handleChannelSubscribe r).
Proof. keeps_all. Qed.

Lemma sendMessage_keeps_heap f : keeps heap (sendMessage f).
Proof. keeps_all. Qed.

Lemma subscribe_keeps_reg r w : reg (exec (channel_subscribe r) w) = reg w.
Proof.
  destruct (nth_error (heap w) r) as [c|] eqn:Hc.
  - destruct (subscribed c) eqn:Hs.
    + unfold exec. now rewrite (subscribe_subscribed w r c Hc Hs).
    + unfold exec. rewrite (channel_subscribe_eq w r c Hc Hs). cbv zeta.
      set (w1 := exec (sendMessage (FSubscribe (name c))) w).
      etransitivity; [apply (handleChannelSubscribe_keeps_reg r)|].
      rewrite (wf_store w1 r c).
      * apply sendMessage_keeps_reg.
      * subst w1. now rewrite sendMessage_keeps_heap.
      * reflexivity.
  - unfold exec, channel_subscribe, subscribe.
    now erewrite bind_throw by (apply deref_none; exact Hc).
Qed.

Lemma wf_delete w n :
  registry_wf w ->
  registry_wf (set_client (set_channels (Map_delete String.eqb n (channels (client w)))
                                        (client w)) w).
Proof.
  intros (Hk & Hv & Hobj). unfold registry_wf. fields. repeat split.
  - now apply Map_delete_NoDup_keys.
  - now apply Map_delete_NoDup_values.
  - intros n0 r0 Hin. apply Hobj. now apply Map_delete_incl with (eqb := String.eqb) (k := n).
Qed.

Lemma wf_disconnect w : registry_wf (exec disconnect w).
Proof.
  unfold exec. rewrite disconnect_eq. unfold registry_wf. cbn.
  repeat split; try constructor. intros n r [].
Qed.

Lemma wf_unsubscribe r w : registry_wf w -> registry_wf (exec (channel_unsubscribe r) w).
Proof.
  intros H.
  destruct (nth_error (heap w) r) as [c|] eqn:Hc.
  2:{ unfold exec, channel_unsubscribe, unsubscribe.
      now erewrite bind_throw by (apply deref_none; exact Hc). }
  destruct (subscribed c) eqn:Hs.
  2:{ unfold exec. now rewrite (unsubscribe_not_subscribed w r c Hc Hs). }
  unfold exec. rewrite (channel_unsubscribe_eq w r c Hc Hs). cbv zeta.
  set (w1 := exec (sendMessage (FUnsubscribe (name c))) w).
  assert (Hh : heap w1 = heap w) by apply sendMessage_keeps_heap.
  set (w2 := set_heap _ w1).
  assert (H2 : registry_wf w2).
  { apply (wf_of_reg w); [|exact H]. subst w2.
    rewrite (wf_store w1 r c); [apply sendMessage_keeps_reg | now rewrite Hh | reflexivity]. }
  rewrite (handleChannelUnsubscribe_eq w2 r (set_handlers [] (set_subscribed false c))).
  2:{ subst w2. cbn. apply nth_error_list_update with (y := c). now rewrite Hh. }
  cbv zeta.
  match goal with |- context [if ?b then _ else _] => destruct b end.
  - apply wf_disconnect.
  - cbn [snd]. now apply wf_delete.
Qed.

Lemma step_wf w e : registry_wf w -> registry_wf (step w e).
Proof.
  intros H.
  assert (Hk : forall m : M unit, keeps reg m -> registry_wf (exec m w)).
  { intros m K. apply (wf_of_reg w); [apply K | exact H]. }
  destruct e; unfold step, handle.
  - assert (E : exec (channel n ;; ret tt) w = exec (channel n) w).
    { unfold exec, bind, ret. now destruct (channel n w) as [[a|] w1]. }
    rewrite E. now apply wf_channel.
  - apply (wf_of_reg w); [apply on_keeps_reg | exact H].
  - apply (wf_of_reg w); [apply off_keeps_reg | exact H].
  - apply (wf_of_reg w); [apply subscribe_keeps_reg | exact H].
  - now apply wf_unsubscribe.
  - apply Hk. keeps_all.
  - apply wf_disconnect.
  - apply Hk. keeps_all.
  - apply Hk. keeps_all.
  - apply Hk. keeps_all.
  - apply Hk. keeps_all.
  - apply Hk. keeps_all.
  - apply Hk. keeps_all.
Qed.

Lemma run_wf es : forall w, registry_wf w -> registry_wf (run w es).
Proof.
  induction es as [|e es IH]; intros w H; cbn.
  - exact H.
  - apply IH, step_wf, H.
Qed.

Lemma initial_wf so co go : registry_wf (initial so co go).
Proof. unfold registry_wf. cbn. repeat split; try constructor. intros n r []. Qed.

(** X2.  After every sequence of events on a fresh client the registry holds
    no name twice and no object twice, every entry names an existing object
    whose name is the entry's key, and so [channel(name)] returns an object
    with that name. *)
Theorem registry_invariant :
  forall (sendOutcomes ctorOutcomes getItemOutcomes : list bool) (es : list Event),
    let w := run (initial sendOutcomes ctorOutcomes getItemOutcomes) es in
    NoDup (map fst (channels (client w))) /\
    NoDup (map snd (channels (client w))) /\
    (forall n r, In (n, r) (channels (client w)) ->
                 exists c, nth_error (heap w) r = Some c /\ name c = n) /\
    (forall n, exists r c,
        fst (channel n w) = Normal r /\
        nth_error (heap (exec (channel n) w)) r = Some c /\ name c = n).
Proof.
  intros so co go es w.
  assert (H : registry_wf w) by (apply run_wf, initial_wf).
  assert (Hobj : forall w0, registry_wf w0 ->
            forall n r, In (n, r) (channels (client w0)) ->
                        exists c, nth_error (heap w0) r = Some c /\ name c = n).
  { intros w0 (_ & _ & Ho) n r Hin. apply Ho in Hin.
    rewrite nth_error_map in Hin.
    destruct (nth_error (heap w0) r) as [c|]; [|discriminate].
    exists c. split; [reflexivity|]. cbn in Hin. congruence. }
  destruct H as (Hk & Hv & Ho).
  repeat split; try assumption.
  - apply Hobj. now repeat split.
  - intros n.
    destruct (channel_registers n w) as (r & E1 & E3 & _).
    assert (H1 : registry_wf (exec (channel n) w)) by (apply wf_channel; now repeat split).
    apply (Map_get_in String.eqb String.eqb_eq) in E3.
    destruct (Hobj _ H1 n r E3) as (c & Hc & Hn).
    exists r, c. rewrite E1. now repeat split.
Qed.

(** ** Lazy connection *)

Lemma registration_keeps_transport e :
  is_registration e = true -> keeps transport (handle e).
Proof.
  destruct e; cbn; intros H; try discriminate; unfold handle; keeps_all.
Qed.

(** X3.  Looking up or creating channels and registering or removing
    handlers, in any number and order, never touches the transport: the
    socket handle, the connection state, the timers, the queue, the sockets
    made and everything sent or scheduled so far stay as they were; no
    connection is attempted before [subscribe()] or [connect()]. *)
Theorem registration_never_connects :
  forall (w : World) (es : list Event),
    forallb is_registration es = true ->
    transport (run w es) = transport w.
Proof.
  intros w es. revert w. induction es as [|e es IH]; intros w H; cbn in *.
  - reflexivity.
  - apply andb_true_iff in H. destruct H as [H1 H2].
    fold (run (step w e) es). rewrite IH by exact H2.
    apply (registration_keeps_transport e H1).
Qed.

(** ** Handler registration *)

Section MapSetFacts.
Context {K V : Type} (eqb : K -> K -> bool).
Hypothesis eqb_eq : forall a b, eqb a b = true <-> a = b.

Lemma Map_set_set k (v v' : V) m :
  Map_set eqb k v (Map_set eqb k v' m) = Map_set eqb k v m.
Proof.
  induction m as [|[k0 v0] m IH]; cbn.
  - now rewrite (eqb_same eqb eqb_eq).
  - destruct (eqb k k0) eqn:E; cbn; rewrite E; [reflexivity | now rewrite IH].
Qed.

Lemma Map_set_in k (v : V) m x :
  In x (Map_set eqb k v m) -> x = (k, v) \/ In x m.
Proof.
  induction m as [|[k0 v0] m IH]; cbn.
  - intros [H|[]]. now left.
  - destruct (eqb k k0) eqn:E; cbn.
    + apply eqb_eq in E. subst k0. intros [H|H]; [now left | right; now right].
    + intros [H|H]; [right; now left|]. destruct (IH H); [now left | right; now right].
Qed.

Lemma Map_set_keys k (v : V) m :
  map fst (Map_set eqb k v m) =
  if Map_has eqb k m then map fst m else map fst m ++ [k].
Proof.
  unfold Map_has. induction m as [|[k0 v0] m IH]; cbn.
  - reflexivity.
  - destruct (eqb k k0) eqn:E; cbn.
    + reflexivity.
    + rewrite IH. now destruct (Map_get eqb k m).
Qed.

Lemma Map_set_NoDup_keys k (v : V) m :
  NoDup (map fst m) -> NoDup (map fst (Map_set eqb k v m)).
Proof.
  intros H. rewrite Map_set_keys. unfold Map_has.
  destruct (Map_get eqb k m) eqn:E; [exact H|].
  apply NoDup_app; [exact H | constructor; [tauto | constructor] |].
  intros a Ha [<-|[]]. now apply (Map_get_none_keys eqb eqb_eq) in E.
Qed.
End MapSetFacts.

Lemma Set_add_in h s :
  exists h0, In h0 (Set_add RealtimeHandler_eqb h s) /\ hid h0 = hid h.
Proof.
  induction s as [|y s IH]; cbn.
  - exists h. now split; [left|].
  - destruct (RealtimeHandler_eqb h y) eqn:E.
    + exists y. split; [now left|]. apply Nat.eqb_eq in E. now symmetry.
    + destruct IH as (h0 & Hin & Hid). exists h0. split; [now right | exact Hid].
Qed.

Lemma Set_add_keeps h s x : In x s -> In x (Set_add RealtimeHandler_eqb h s).
Proof.
  induction s as [|y s IH]; cbn; [tauto|].
  destruct (RealtimeHandler_eqb h y); cbn; intros [H|H]; auto.
Qed.

Lemma Set_add_hids h s :
  map hid (Set_add RealtimeHandler_eqb h s) =
  if existsb (Nat.eqb (hid h)) (map hid s) then map hid s else map hid s ++ [hid h].
Proof.
  induction s as [|y s IH]; cbn.
  - reflexivity.
  - unfold RealtimeHandler_eqb at 1. destruct (Nat.eqb (hid h) (hid y)); cbn.
    + reflexivity.
    + rewrite IH. now destruct (existsb (Nat.eqb (hid h)) (map hid s)).
Qed.

Lemma Set_add_NoDup h s :
  NoDup (map hid s) -> NoDup (map hid (Set_add RealtimeHandler_eqb h s)).
Proof.
  intros H. rewrite Set_add_hids.
  destruct (existsb (Nat.eqb (hid h)) (map hid s)) eqn:E; [exact H|].
  apply NoDup_app; [exact H | constructor; [tauto | constructor] |].
  intros a Ha [<-|[]].
  assert (existsb (Nat.eqb (hid h)) (map hid s) = true); [|congruence].
  apply existsb_exists. exists (hid h). split; [exact Ha | apply Nat.eqb_refl].
Qed.

Lemma Set_add_idem h s :
  Set_add RealtimeHandler_eqb h (Set_add RealtimeHandler_eqb h s) =
  Set_add RealtimeHandler_eqb h s.
Proof.
  induction s as [|y s IH]; cbn.
  - unfold RealtimeHandler_eqb. now rewrite Nat.eqb_refl.
  - destruct (RealtimeHandler_eqb h y) eqn:E; cbn; rewrite E; [reflexivity | now rewrite IH].
Qed.

Lemma Set_delete_incl h s x : In x (Set_delete RealtimeHandler_eqb h s) -> In x s.
Proof.
  induction s as [|y s IH]; cbn; [tauto|].
  destruct (RealtimeHandler_eqb h y); cbn; [tauto|].
  intros [H|H]; auto.
Qed.

Lemma Set_delete_NoDup h s :
  NoDup (map hid s) -> NoDup (map hid (Set_delete RealtimeHandler_eqb h s)).
Proof.
  induction s as [|y s IH]; cbn; intros H; [constructor|].
  inversion H as [|? ? Hn Hd]; subst.
  destruct (RealtimeHandler_eqb h y); [exact Hd|]. cbn. constructor.
  - intros Hin. apply Hn. apply in_map_iff in Hin. destruct Hin as (x & E & Hx).
    apply in_map_iff. exists x. split; [exact E|]. now apply Set_delete_incl with (h := h).
  - now apply IH.
Qed.

Lemma Set_delete_gone h s :
  NoDup (map hid s) -> ~ In (hid h) (map hid (Set_delete RealtimeHandler_eqb h s)).
Proof.
  induction s as [|y s IH]; cbn; intros H; [tauto|].
  inversion H as [|? ? Hn Hd]; subst.
  unfold RealtimeHandler_eqb at 1. destruct (Nat.eqb (hid h) (hid y)) eqn:E.
  - apply Nat.eqb_eq in E. now rewrite E.
  - cbn. intros [Hy|Hin].
    + apply Nat.eqb_neq in E. congruence.
    + now apply IH.
Qed.

Lemma Set_delete_add h s :
  ~ In (hid h) (map hid s) ->
  Set_delete RealtimeHandler_eqb h (Set_add RealtimeHandler_eqb h s) = s.
Proof.
  induction s as [|y s IH]; cbn; intros H.
  - unfold RealtimeHandler_eqb. now rewrite Nat.eqb_refl.
  - assert (E : RealtimeHandler_eqb h y = false).
    { unfold RealtimeHandler_eqb. apply Nat.eqb_neq.
      intros Heq. apply H. left. now symmetry. }
    rewrite E. cbn. rewrite E. rewrite IH; [reflexivity | tauto].
Qed.

Lemma list_update_twice {A} (l : list A) i x y :
  list_update (list_update l i x) i y = list_update l i y.
Proof.
  revert i. induction l as [|a l IH]; intros [|i]; cbn; try reflexivity.
  now rewrite IH.
Qed.

Lemma handlers_for_set ev hs m c :
  handlers c = Map_set RealtimeEventType_eqb ev hs m ->
  handlers_for ev c = hs /\
  forall ev', ev' <> ev ->
              Map_get RealtimeEventType_eqb ev' (handlers c) =
              Map_get RealtimeEventType_eqb ev' m.
Proof.
  intros E. unfold handlers_for. rewrite E. split.
  - now rewrite (Map_get_set_same _ RealtimeEventType_eqb_eq).
  - intros ev' Hne. now apply (Map_get_set_diff _ RealtimeEventType_eqb_eq).
Qed.

(** What [on] writes. *)
Lemma on_eq w r c ev h :
  nth_error (heap w) r = Some c ->
  on r ev h w =
  (Normal tt,
   set_heap
     (list_update (heap w) r
        (set_handlers
           (Map_set RealtimeEventType_eqb ev
                    (Set_add RealtimeHandler_eqb h (handlers_for ev c)) (handlers c))
           c))
     w).
Proof.
  intros Hc. unfold on.
  erewrite bind_normal by (apply deref_some; exact Hc).
  unfold handlers_for, Map_has.
  destruct (Map_get RealtimeEventType_eqb ev (handlers c)) as [set|] eqn:E.
  - rewrite E. reflexivity.
  - rewrite (Map_get_set_same _ RealtimeEventType_eqb_eq).
    rewrite (Map_set_set _ RealtimeEventType_eqb_eq). reflexivity.
Qed.

Lemma off_eq w r c ev cb :
  nth_error (heap w) r = Some c ->
  off r ev cb w =
  (Normal tt,
   match cb with
   | None =>
       set_heap (list_update (heap w) r
                   (set_handlers (Map_delete RealtimeEventType_eqb ev (handlers c)) c)) w
   | Some h =>
       match Map_get RealtimeEventType_eqb ev (handlers c) with
       | Some eventHandlers =>
           set_heap (list_update (heap w) r
                       (set_handlers
                          (Map_set RealtimeEventType_eqb ev
                                   (Set_delete RealtimeHandler_eqb h eventHandlers)
                                   (handlers c)) c)) w
       | None => w
       end
   end).
Proof.
  intros Hc. unfold off.
  erewrite bind_normal by (apply deref_some; exact Hc).
  destruct cb as [h|]; [|reflexivity].
  destruct (Map_get RealtimeEventType_eqb ev (handlers c)); reflexivity.
Qed.

Lemma Forall_list_update {A} (P : A -> Prop) l i x :
  Forall P l -> P x -> Forall P (list_update l i x).
Proof.
  intros H Hx. revert i. induction H as [|a l Ha Hl IH]; intros [|i]; cbn;
    constructor; auto.
Qed.

Lemma Forall_nth_error {A} (P : A -> Prop) l i x :
  Forall P l -> nth_error l i = Some x -> P x.
Proof.
  intros H. revert i. induction H as [|a l Ha Hl IH]; intros [|i] E; cbn in E;
    try discriminate.
  - now injection E as <-.
  - now apply IH with (i := i).
Qed.

Lemma channel_wf_set c ev hs :
  channel_wf c ->
  NoDup (map hid hs) ->
  channel_wf (set_handlers (Map_set RealtimeEventType_eqb ev hs (handlers c)) c).
Proof.
  intros [Hk Hs] Hn. split; cbn.
  - now apply (Map_set_NoDup_keys _ RealtimeEventType_eqb_eq).
  - intros ev' hs' Hin.
    apply (Map_set_in _ RealtimeEventType_eqb_eq) in Hin.
    destruct Hin as [E|Hin]; [now injection E as -> -> | now apply Hs with (ev := ev')].
Qed.

Lemma handlers_for_NoDup c ev : channel_wf c -> NoDup (map hid (handlers_for ev c)).
Proof.
  intros [_ Hs]. unfold handlers_for.
  destruct (Map_get RealtimeEventType_eqb ev (handlers c)) as [hs|] eqn:E.
  - apply (Map_get_in _ RealtimeEventType_eqb_eq) in E. now apply Hs with (ev := ev).
  - constructor.
Qed.

Lemma heap_wf_keeps w w' : heap w' = heap w -> heap_wf w -> heap_wf w'.
Proof. unfold heap_wf. now intros ->. Qed.

Lemma handleChannelSubscribe_keeps_heap r : keeps heap (handleChannelSubscribe r).
Proof. keeps_all. Qed.

Lemma handleChannelUnsubscribe_keeps_heap r : keeps heap (handleChannelUnsubscribe r).
Proof. keeps_all. Qed.

Lemma step_heap_wf w e : heap_wf w -> heap_wf (step w e).
Proof.
  intros H.
  assert (Hk : forall m : M unit, keeps heap m -> heap_wf (exec m w)).
  { intros m K. apply (heap_wf_keeps w); [apply K | exact H]. }
  destruct e; unfold step, handle.
  - unfold exec, bind. rewrite channel_cases.
    destruct (Map_get String.eqb n (channels (client w))); cbn; [exact H|].
    unfold heap_wf. cbn. apply Forall_app. split; [exact H|].
    constructor; [|constructor]. split; cbn; [constructor | intros ev hs []].
  - destruct (nth_error (heap w) r) as [c|] eqn:Hc.
    + unfold exec. rewrite (on_eq w r c event callback Hc). cbn.
      apply Forall_list_update; [exact H|].
      assert (Hwf : channel_wf c) by (apply (Forall_nth_error _ _ _ _ H Hc)).
      apply channel_wf_set; [exact Hwf|].
      apply Set_add_NoDup. now apply handlers_for_NoDup.
    + unfold exec, on. now erewrite bind_throw by (apply deref_none; exact Hc).
  - destruct (nth_error (heap w) r) as [c|] eqn:Hc.
    + unfold exec. rewrite (off_eq w r c event callback Hc). cbn.
      assert (Hwf : channel_wf c) by (apply (Forall_nth_error _ _ _ _ H Hc)).
      destruct callback as [h|].
      * destruct (Map_get RealtimeEventType_eqb event (handlers c)) as [hs|] eqn:E;
          [|exact H].
        apply Forall_list_update; [exact H|].
        apply channel_wf_set; [exact Hwf|].
        apply Set_delete_NoDup.
        apply (Map_get_in _ RealtimeEventType_eqb_eq) in E.
        destruct Hwf as [_ Hs]. now apply Hs with (ev := event).
      * apply Forall_list_update; [exact H|].
        destruct Hwf as [Hk' Hs]. split; cbn.
        -- now apply Map_delete_NoDup_keys.
        -- intros ev hs Hin. apply Hs with (ev := ev).
           now apply Map_delete_incl with (eqb := RealtimeEventType_eqb) (k := event).
    + unfold exec, off. now erewrite bind_throw by (apply deref_none; exact Hc).
  - destruct (nth_error (heap w) r) as [c|] eqn:Hc.
    + destruct (subscribed c) eqn:Hs.
      * unfold exec. now rewrite (subscribe_subscribed w r c Hc Hs).
      * unfold exec. rewrite (channel_subscribe_eq w r c Hc Hs). cbv zeta.
        apply (heap_wf_keeps (set_heap (list_update (heap (exec (sendMessage (FSubscribe (name c))) w)) r (set_subscribed true c)) (exec (sendMessage (FSubscribe (name c))) w)));
          [apply (handleChannelSubscribe_keeps_heap r)|].
        unfold heap_wf. cbn. rewrite sendMessage_keeps_heap.
        apply Forall_list_update; [exact H|].
        exact (Forall_nth_error _ _ _ _ H Hc).
    + unfold exec, channel_subscribe, subscribe.
      now erewrite bind_throw by (apply deref_none; exact Hc).
  - destruct (nth_error (heap w) r) as [c|] eqn:Hc.
    + destruct (subscribed c) eqn:Hs.
      * unfold exec. rewrite (channel_unsubscribe_eq w r c Hc Hs). cbv zeta.
        apply (heap_wf_keeps (set_heap (list_update (heap (exec (sendMessage (FUnsubscribe (name c))) w)) r (set_handlers [] (set_subscribed false c))) (exec (sendMessage (FUnsubscribe (name c))) w)));
          [apply (handleChannelUnsubscribe_keeps_heap r)|].
        unfold heap_wf. cbn. rewrite sendMessage_keeps_heap.
        apply Forall_list_update; [exact H|].
        split; cbn; [constructor | intros ev hs []].
      * unfold exec. now rewrite (unsubscribe_not_subscribed w r c Hc Hs).
    + unfold exec, channel_unsubscribe, unsubscribe.
      now erewrite bind_throw by (apply deref_none; exact Hc).
  - apply Hk. keeps_all.
  - apply Hk. keeps_all.
  - apply Hk. keeps_all.
  - apply Hk. keeps_all.
  - apply Hk. keeps_all.
  - apply Hk. keeps_all.
  - apply Hk. keeps_all.
  - apply Hk. keeps_all.
Qed.

Lemma run_heap_wf es : forall w, heap_wf w -> heap_wf (run w es).
Proof.
  induction es as [|e es IH]; intros w H; cbn.
  - exact H.
  - apply IH, step_heap_wf, H.
Qed.

Lemma reachable_channel_wf so co go es r c :
  nth_error (heap (run (initial so co go) es)) r = Some c -> channel_wf c.
Proof.
  apply Forall_nth_error. apply run_heap_wf. constructor.
Qed.

Lemma handlers_for_other c c' ev ev' :
  Map_get RealtimeEventType_eqb ev' (handlers c') =
  Map_get RealtimeEventType_eqb ev' (handlers c) ->
  ev' <> ev -> handlers_for ev' c' = handlers_for ev' c.
Proof. intros E _. unfold handlers_for. now rewrite E. Qed.

(** X4.  [on(event, callback)] on an existing channel returns normally and
    adds the callback to the set of that event type, at the end, unless a
    callback with the same identity is there already; the sets of the other
    event types, the name, the subscribed flag, the other channels, the
    client and the transport stay as they were, and registering the same
    callback again changes nothing. *)
Theorem on_registers_once :
  forall (w : World) (r : ChanRef) (c : RealtimeChannel)
         (ev : RealtimeEventType) (h : RealtimeHandler),
    nth_error (heap w) r = Some c ->
    let w' := exec (on r ev h) w in
    on r ev h w = (Normal tt, w') /\
    (exists c',
        nth_error (heap w') r = Some c' /\
        name c' = name c /\ subscribed c' = subscribed c /\
        handlers_for ev c' = Set_add RealtimeHandler_eqb h (handlers_for ev c) /\
        (exists h0, In h0 (handlers_for ev c') /\ hid h0 = hid h) /\
        (forall h1, In h1 (handlers_for ev c) -> In h1 (handlers_for ev c')) /\
        (forall ev', ev' <> ev -> handlers_for ev' c' = handlers_for ev' c)) /\
    (forall r', r' <> r -> nth_error (heap w') r' = nth_error (heap w) r') /\
    client w' = client w /\
    transport w' = transport w /\
    exec (on r ev h) w' = w'.
Proof.
  intros w r c ev h Hc w'.
  set (c' := set_handlers
               (Map_set RealtimeEventType_eqb ev
                        (Set_add RealtimeHandler_eqb h (handlers_for ev c)) (handlers c)) c).
  assert (E : on r ev h w = (Normal tt, set_heap (list_update (heap w) r c') w))
    by (now apply on_eq).
  assert (Ew : w' = set_heap (list_update (heap w) r c') w).
  { subst w'. unfold exec. now rewrite E. }
  assert (Hc' : nth_error (heap w') r = Some c').
  { rewrite Ew. cbn. now apply nth_error_list_update with (y := c). }
  destruct (handlers_for_set ev _ (handlers c) c' eq_refl) as [F1 F2].
  repeat apply conj.
  - now rewrite Ew.
  - exists c'. repeat apply conj; try reflexivity.
    + exact Hc'.
    + exact F1.
    + rewrite F1. apply Set_add_in.
    + intros h1 H1. rewrite F1. now apply Set_add_keeps.
    + intros ev' Hne. apply handlers_for_other with (ev := ev); [now apply F2 | exact Hne].
  - intros r' Hne. rewrite Ew. cbn. apply nth_error_list_update_other. congruence.
  - now rewrite Ew.
  - now rewrite Ew.
  - unfold exec. rewrite (on_eq w' r c' ev h Hc'). cbn [snd].
    rewrite F1, Set_add_idem.
    replace (handlers c') with
      (Map_set RealtimeEventType_eqb ev
               (Set_add RealtimeHandler_eqb h (handlers_for ev c)) (handlers c))
      by reflexivity.
    rewrite (Map_set_set _ RealtimeEventType_eqb_eq).
    rewrite Ew. unfold set_heap, set_handlers. cbn.
    now rewrite list_update_twice.
Qed.

(** X5.  In every world a fresh client can reach, on an existing channel:
    [off(event, callback)] returns normally and leaves no callback with that
    identity in the set of the event type, the rest of the set in its
    order; [off(event)] leaves no handler for the event type; both leave
    the other event types, the name, the subscribed flag, the registry and
    the transport alone; and [on] followed by [off] of a callback that was
    not registered gives back the handlers of every event type. *)
Theorem off_unregisters :
  forall (sendOutcomes ctorOutcomes getItemOutcomes : list bool) (es : list Event)
         (r : ChanRef) (c : RealtimeChannel) (ev : RealtimeEventType),
    let w := run (initial sendOutcomes ctorOutcomes getItemOutcomes) es in
    nth_error (heap w) r = Some c ->
    (forall h,
        let w' := exec (off r ev (Some h)) w in
        off r ev (Some h) w = (Normal tt, w') /\
        reg w' = reg w /\ transport w' = transport w /\
        exists c',
          nth_error (heap w') r = Some c' /\
          subscribed c' = subscribed c /\
          handlers_for ev c' = Set_delete RealtimeHandler_eqb h (handlers_for ev c) /\
          (forall h0, In h0 (handlers_for ev c') -> hid h0 <> hid h) /\
          (forall ev', ev' <> ev -> handlers_for ev' c' = handlers_for ev' c)) /\
    (let w' := exec (off r ev None) w in
     off r ev None w = (Normal tt, w') /\
     reg w' = reg w /\ transport w' = transport w /\
     exists c',
       nth_error (heap w') r = Some c' /\
       subscribed c' = subscribed c /\
       handlers_for ev c' = [] /\
       (forall ev', ev' <> ev -> handlers_for ev' c' = handlers_for ev' c)) /\
    (forall h,
        (forall h0, In h0 (handlers_for ev c) -> hid h0 <> hid h) ->
        exists c'',
          nth_error (heap (exec (off r ev (Some h)) (exec (on r ev h) w))) r = Some c'' /\
          forall ev', handlers_for ev' c'' = handlers_for ev' c).
Proof.
  intros so co go es r c ev w Hc.
  assert (Hwf : channel_wf c) by (now apply (reachable_channel_wf so co go es r c)).
  split; [|split].
  - intros h w'.
    assert (E := off_eq w r c ev (Some h) Hc).
    assert (Ew : w' = snd (off r ev (Some h) w)) by reflexivity.
    rewrite E in Ew. cbn [snd] in Ew.
    split; [now rewrite E, Ew|].
    destruct (Map_get RealtimeEventType_eqb ev (handlers c)) as [hs|] eqn:Eg.
    + set (c' := set_handlers
                   (Map_set RealtimeEventType_eqb ev
                            (Set_delete RealtimeHandler_eqb h hs) (handlers c)) c) in *.
      destruct (handlers_for_set ev _ (handlers c) c' eq_refl) as [F1 F2].
      assert (Hf : handlers_for ev c = hs) by (unfold handlers_for; now rewrite Eg).
      split; [rewrite Ew; now apply wf_store with (c := c)|].
      split; [now rewrite Ew|].
      exists c'. repeat apply conj.
      * rewrite Ew. cbn. now apply nth_error_list_update with (y := c).
      * reflexivity.
      * now rewrite F1, Hf.
      * intros h0 H0 Heq. rewrite F1 in H0.
        apply (Set_delete_gone h hs).
        -- rewrite <- Hf. now apply handlers_for_NoDup.
        -- rewrite <- Heq. now apply in_map.
      * intros ev' Hne. apply handlers_for_other with (ev := ev); [now apply F2 | exact Hne].
    + assert (Hf : handlers_for ev c = []) by (unfold handlers_for; now rewrite Eg).
      rewrite Ew. split; [reflexivity|]. split; [reflexivity|].
      exists c. repeat apply conj; try reflexivity.
      * exact Hc.
      * now rewrite Hf.
      * rewrite Hf. intros h0 [].
  - intros w'.
    assert (E := off_eq w r c ev None Hc).
    assert (Ew : w' = snd (off r ev None w)) by reflexivity.
    rewrite E in Ew. cbn [snd] in Ew.
    split; [now rewrite E, Ew|].
    split; [rewrite Ew; now apply wf_store with (c := c)|].
    split; [now rewrite Ew|].
    eexists. repeat apply conj.
    + rewrite Ew. cbn. now apply nth_error_list_update with (y := c).
    + reflexivity.
    + unfold handlers_for. cbn.
      rewrite (Map_get_delete_same _ RealtimeEventType_eqb_eq); [reflexivity|].
      now destruct Hwf.
    + intros ev' Hne. unfold handlers_for. cbn.
      now rewrite (Map_get_delete_diff _ RealtimeEventType_eqb_eq).
  - intros h Hnew.
    assert (Ew : exec (on r ev h) w =
                 set_heap (list_update (heap w) r
                   (set_handlers
                      (Map_set RealtimeEventType_eqb ev
                               (Set_add RealtimeHandler_eqb h (handlers_for ev c))
                               (handlers c)) c)) w).
    { unfold exec. now rewrite (on_eq w r c ev h Hc). }
    rewrite Ew. unfold exec.
    erewrite off_eq by (cbn; apply nth_error_list_update with (y := c); exact Hc).
    cbn [snd set_handlers handlers name subscribed].
    rewrite (Map_get_set_same _ RealtimeEventType_eqb_eq).
    rewrite (Map_set_set _ RealtimeEventType_eqb_eq).
    rewrite Set_delete_add.
    2:{ intros Hin. apply in_map_iff in Hin. destruct Hin as (h0 & Heq & H0).
        now apply (Hnew h0 H0). }
    eexists. split.
    + cbn. rewrite list_update_twice. apply nth_error_list_update with (y := c). exact Hc.
    + intros ev'. unfold handlers_for at 1. cbn.
      destruct (RealtimeEventType_eqb ev' ev) eqn:Ee.
      * apply RealtimeEventType_eqb_eq in Ee. subst ev'.
        now rewrite (Map_get_set_same _ RealtimeEventType_eqb_eq).
      * rewrite (Map_get_set_diff _ RealtimeEventType_eqb_eq).
        -- reflexivity.
        -- intros ->. rewrite (eqb_same _ RealtimeEventType_eqb_eq) in Ee. discriminate.
Qed.

(** ** Dispatch by event type *)

(** X6.  [dispatch] calls nothing but the handlers registered for the
    payload's type and those registered for ['*'], each once per set it is
    in and with the payload dispatched: a handler registered only for
    another type is not called, and when the payload's type is itself
    ['*'] every wildcard handler is called twice. *)
Theorem dispatch_by_type :
  forall (w : World) (r : ChanRef) (c : RealtimeChannel) (p : RealtimePayload),
    nth_error (heap w) r = Some c ->
    let calls := skipn (length (trace w)) (trace (exec (dispatch r p) w)) in
    (forall e, In e calls ->
               exists h, e = Invoked (hid h) p /\
                         (In h (handlers_for (ptype p) c) \/ In h (handlers_for STAR c))) /\
    length calls = length (handlers_for (ptype p) c) + length (handlers_for STAR c) /\
    (forall ev h,
        In h (handlers_for ev c) ->
        (forall h0, In h0 (handlers_for (ptype p) c) \/ In h0 (handlers_for STAR c) ->
                    hid h0 <> hid h) ->
        ~ In (Invoked (hid h) p) calls) /\
    (ptype p = STAR ->
     calls = map (fun h => Invoked (hid h) p) (handlers_for STAR c) ++
             map (fun h => Invoked (hid h) p) (handlers_for STAR c)).
Proof.
  intros w r c p Hc calls.
  assert (E : calls = map (fun h => Invoked (hid h) p)
                          (handlers_for (ptype p) c ++ handlers_for STAR c)).
  { subst calls. unfold exec. rewrite (dispatch_eq w r c p Hc). fields.
    now rewrite skipn_app, skipn_all, Nat.sub_diag. }
  assert (Hin : forall e, In e calls ->
             exists h, e = Invoked (hid h) p /\
                       (In h (handlers_for (ptype p) c) \/ In h (handlers_for STAR c))).
  { intros e He. rewrite E in He. apply in_map_iff in He.
    destruct He as (h & <- & Hh). exists h. split; [reflexivity|].
    now apply in_app_or. }
  repeat apply conj.
  - exact Hin.
  - now rewrite E, length_map, length_app.
  - intros ev h _ Hother Hcall.
    destruct (Hin _ Hcall) as (h0 & Heq & H0).
    injection Heq as Heq. now apply (Hother h0 H0).
  - intros Hstar. rewrite E, Hstar. now rewrite map_app.
Qed.

(** ** Inbound frames *)

Lemma handleMessage_cases data w :
  handleMessage data w =
  (Normal tt,
   match data with
   | Envelope t (Some n) (Some p) =>
       if String.eqb t "event" && negb (String.eqb n "") then
         match Map_get String.eqb n (channels (client w)) with
         | Some r =>
             match nth_error (heap w) r with
             | Some c =>
                 set_trace (trace w ++ map (fun h => Invoked (hid h) p)
                                           (handlers_for (ptype p) c ++ handlers_for STAR c)) w
             | None => w
             end
         | None => w
         end
       else w
   | _ => w
   end).
Proof.
  unfold handleMessage, try_catch.
  destruct data as [|t [n|] [p|]]; try reflexivity.
  - unfold bind at 1. cbn [JSON_parse ret].
    destruct (String.eqb t "event" && negb (String.eqb n "")); [|reflexivity].
    unfold bind at 1, get.
    destruct (Map_get String.eqb n (channels (client w))) as [r|]; [|reflexivity].
    destruct (nth_error (heap w) r) as [c|] eqn:Hc.
    + now rewrite (dispatch_eq w r c p Hc).
    + unfold dispatch. now erewrite bind_throw by (apply deref_none; exact Hc).
  - unfold bind at 1. cbn [JSON_parse ret].
    destruct (String.eqb t "event" && negb (String.eqb n "")); [|reflexivity].
    unfold bind at 1, get.
    now destruct (Map_get String.eqb n (channels (client w))).
Qed.

(** X7.  An inbound frame that does not parse, whose type is not "event",
    that names no channel, the empty name or a name that is not registered,
    or that carries no payload, is dropped: [handleMessage] returns
    normally and nothing changes. *)
Theorem handleMessage_ignores :
  forall (w : World),
    handleMessage Unparsable w = (Normal tt, w) /\
    (forall t n p, t <> "event" -> handleMessage (Envelope t n p) w = (Normal tt, w)) /\
    (forall t p, handleMessage (Envelope t None p) w = (Normal tt, w)) /\
    (forall t p, handleMessage (Envelope t (Some "") p) w = (Normal tt, w)) /\
    (forall t n p, Map_get String.eqb n (channels (client w)) = None ->
                   handleMessage (Envelope t (Some n) p) w = (Normal tt, w)) /\
    (forall t n, handleMessage (Envelope t n None) w = (Normal tt, w)).
Proof.
  intros w. repeat apply conj.
  - now rewrite handleMessage_cases.
  - intros t n p Ht. rewrite handleMessage_cases.
    destruct n as [n|], p as [p|]; try reflexivity.
    apply String.eqb_neq in Ht. now rewrite Ht.
  - intros t p. rewrite handleMessage_cases. now destruct p.
  - intros t p. rewrite handleMessage_cases. destruct p; [|reflexivity].
    cbn. now rewrite andb_false_r.
  - intros t n p Hn. rewrite handleMessage_cases. destruct p; [|reflexivity].
    rewrite Hn. now destruct (String.eqb t "event" && negb (String.eqb n "")).
  - intros t n. rewrite handleMessage_cases. now destruct n.
Qed.

(** X8.  An "event" frame for a registered channel is handed to that
    channel: [handleMessage] returns normally after calling the channel's
    handlers for the payload's type and then its wildcard handlers, and
    changes nothing but the trace of calls. *)
Theorem handleMessage_routes :
  forall (w : World) (n : string) (r : ChanRef) (c : RealtimeChannel)
         (p : RealtimePayload),
    n <> "" ->
    Map_get String.eqb n (channels (client w)) = Some r ->
    nth_error (heap w) r = Some c ->
    handleMessage (Envelope "event" (Some n) (Some p)) w =
    (Normal tt,
     set_trace (trace w ++ map (fun h => Invoked (hid h) p)
                               (handlers_for (ptype p) c ++ handlers_for STAR c)) w) /\
    handleMessage (Envelope "event" (Some n) (Some p)) w = dispatch r p w.
Proof.
  intros w n r c p Hn Hr Hc.
  rewrite handleMessage_cases, Hr, Hc, (dispatch_eq w r c p Hc).
  apply String.eqb_neq in Hn. rewrite Hn. cbn. now split.
Qed.

(** ** unsubscribe *)

Lemma sendMessage_keeps_channels f : keeps (fun w => channels (client w)) (sendMessage f).
Proof. keeps_all. Qed.

(** X9.  In every world a fresh client can reach, [unsubscribe()] on a
    subscribed channel returns normally and leaves the object unsubscribed
    and without handlers and its name unregistered (the other entries stay,
    unless the registry became empty and the manager disconnected); an
    inbound frame for that name is then dropped, a dispatch on the old
    object calls nothing, and [channel] with the same name makes a new
    object without handlers. *)
Theorem unsubscribe_forgets :
  forall (sendOutcomes ctorOutcomes getItemOutcomes : list bool) (es : list Event)
         (r : ChanRef) (c : RealtimeChannel),
    let w := run (initial sendOutcomes ctorOutcomes getItemOutcomes) es in
    nth_error (heap w) r = Some c ->
    subscribed c = true ->
    let w' := exec (channel_unsubscribe r) w in
    channel_unsubscribe r w = (Normal tt, w') /\
    nth_error (heap w') r = Some (mkChannel (name c) [] false) /\
    Map_get String.eqb (name c) (channels (client w')) = None /\
    (channels (client w') = Map_delete String.eqb (name c) (channels (client w)) \/
     channels (client w') = []) /\
    (forall t p, handleMessage (Envelope t (Some (name c)) p) w' = (Normal tt, w')) /\
    (forall p, trace (exec (dispatch r p) w') = trace w') /\
    exists r2,
      fst (channel (name c) w') = Normal r2 /\ r2 <> r /\
      nth_error (heap (exec (channel (name c)) w')) r2 = Some (mkChannel (name c) [] false).
Proof.
  intros so co go es r c w Hc Hs w'.
  assert (Hwf : registry_wf w) by (apply run_wf, initial_wf).
  set (w1 := exec (sendMessage (FUnsubscribe (name c))) w).
  assert (Hh : heap w1 = heap w) by apply sendMessage_keeps_heap.
  assert (Hch : channels (client w1) = channels (client w))
    by apply (sendMessage_keeps_channels (FUnsubscribe (name c)) w).
  set (c0 := set_handlers [] (set_subscribed false c)).
  set (w2 := set_heap (list_update (heap w1) r c0) w1).
  assert (Hc2 : nth_error (heap w2) r = Some c0).
  { subst w2. cbn. apply nth_error_list_update with (y := c). now rewrite Hh. }
  set (w3 := set_client (set_channels (Map_delete String.eqb (name c) (channels (client w2)))
                                      (client w2)) w2).
  assert (E : channel_unsubscribe r w =
              if negb (existsb (subscribed_at w3) (Map_values (channels (client w3)))) &&
                 Nat.eqb (length (channels (client w3))) 0
              then disconnect w3 else (Normal tt, w3)).
  { rewrite (channel_unsubscribe_eq w r c Hc Hs). cbv zeta. fold w1. fold c0. fold w2.
    now rewrite (handleChannelUnsubscribe_eq w2 r c0 Hc2). }
  assert (Hgone : Map_get String.eqb (name c) (channels (client w3)) = None).
  { subst w3. cbn. rewrite Hch. apply (Map_get_delete_same _ String.eqb_eq).
    now destruct Hwf. }
  assert (F : channel_unsubscribe r w = (Normal tt, w') /\
              heap w' = heap w2 /\
              Map_get String.eqb (name c) (channels (client w')) = None /\
              (channels (client w') = Map_delete String.eqb (name c) (channels (client w)) \/
               channels (client w') = [])).
  { assert (Ew : w' = snd (channel_unsubscribe r w)) by reflexivity.
    rewrite E in Ew. rewrite E.
    destruct (negb (existsb (subscribed_at w3) (Map_values (channels (client w3)))) &&
              Nat.eqb (length (channels (client w3))) 0).
    - rewrite disconnect_eq in Ew. rewrite disconnect_eq. cbn [snd] in Ew.
      rewrite Ew. cbn. repeat split; auto.
    - cbn [snd] in Ew. rewrite Ew. repeat split; auto.
      left. subst w3. cbn. now rewrite Hch. }
  destruct F as (F1 & F2 & F3 & F4).
  assert (Hc' : nth_error (heap w') r = Some (mkChannel (name c) [] false)).
  { rewrite F2. exact Hc2. }
  repeat apply conj; try assumption.
  - intros t p. rewrite handleMessage_cases. destruct p; [|reflexivity].
    rewrite F3. now destruct (String.eqb t "event" && negb (String.eqb (name c) "")).
  - intros p. unfold exec. rewrite (dispatch_eq w' r _ p Hc').
    unfold handlers_for. cbn. now rewrite app_nil_r.
  - destruct (channel_registers (name c) w') as (r2 & G1 & _ & G5).
    destruct G5 as (G5 & G6); [exact F3|].
    exists r2. rewrite G1. repeat split.
    + rewrite G5. intros Heq.
      assert (r < length (heap w')) by (apply nth_error_Some; congruence). lia.
    + exact G6.
Qed.

(** ** connect *)

Lemma connect_eq w :
  connect w =
  match connectionState (client w) with
  | CONNECTED | CONNECTING => (Normal tt, w)
  | _ =>
      if hd false (getItemThrows w) then
        (Throw,
         mkWorld
           (mkClient (ws (client w)) (channels (client w)) CONNECTING
                     (reconnectAttempts (client w)) (reconnectTimeout (client w))
                     (heartbeatInterval (client w)) (messageQueue (client w)))
           (heap w) (sockets w) (wired w) (trace w)
           (sendThrows w) (ctorThrows w) (tl (getItemThrows w)))
      else if hd false (ctorThrows w) then
        (Normal tt,
         mkWorld
           (mkClient None (channels (client w)) RECONNECTING
                     (reconnectAttempts (client w))
                     (match reconnectTimeout (client w) with
                      | Some d => Some d
                      | None => Some (reconnectDelay (reconnectAttempts (client w)))
                      end)
                     None (messageQueue (client w)))
           (heap w) (sockets w) (wired w)
           (trace w ++ match reconnectTimeout (client w) with
                       | Some _ => []
                       | None => [TimeoutSet (reconnectDelay (reconnectAttempts (client w)))]
                       end)
           (sendThrows w) (tl (ctorThrows w)) (tl (getItemThrows w)))
      else
        (Normal tt,
         mkWorld
           (mkClient (Some (sockets w)) (channels (client w)) CONNECTING
                     (reconnectAttempts (client w)) (reconnectTimeout (client w))
                     (heartbeatInterval (client w)) (messageQueue (client w)))
           (heap w) (S (sockets w)) (sockets w :: wired w)
           (trace w ++ [SocketCreated (sockets w)])
           (sendThrows w) (tl (ctorThrows w)) (tl (getItemThrows w)))
  end.
Proof.
  destruct w as [c hp sk wi tr st ct gt]. destruct c as [ws0 ch cst att rt hb q].
  unfold connect, bind, get, this, modify, storage_getItem, try_catch, new_WebSocket,
    setupWebSocket, handleDisconnect, stopHeartbeat, scheduleReconnect, emit, this,
    modify, ret, bind, get.
  destruct cst; cbn; try reflexivity;
    destruct gt as [|[|] gt]; cbn; try reflexivity;
      destruct ct as [|[|] ct]; cbn; try reflexivity;
        destruct hb, rt; cbn; rewrite ?app_nil_r; reflexivity.
Qed.


(** X10.  While CONNECTING or CONNECTED [connect()] does nothing.
    Otherwise it sets the state to CONNECTING and reads the token from the
    storage adapter.  When that read raises, [connect()] raises: the state
    stays CONNECTING, no socket is made, no timer is armed and nothing else
    changes.  This is the only way [connect()] raises.  When the read
    returns, the WebSocket constructor is called once: when that returns,
    the new socket is the handle, its callbacks are installed and the state
    is CONNECTING (a pending reconnect timer and the attempt counter are
    left as they are); when it raises, the state is RECONNECTING with no
    handle and no heartbeat, and a reconnect timer with the backoff delay
    of the current attempt count is armed unless one is pending already. *)
Theorem connect_outcomes :
  forall w : World,
    connect w =
    match connectionState (client w) with
    | CONNECTED | CONNECTING => (Normal tt, w)
    | _ =>
        if hd false (getItemThrows w) then
          (Throw,
           mkWorld
             (mkClient (ws (client w)) (channels (client w)) CONNECTING
                       (reconnectAttempts (client w)) (reconnectTimeout (client w))
                       (heartbeatInterval (client w)) (messageQueue (client w)))
             (heap w) (sockets w) (wired w) (trace w)
             (sendThrows w) (ctorThrows w) (tl (getItemThrows w)))
        else if hd false (ctorThrows w) then
          (Normal tt,
           mkWorld
             (mkClient None (channels (client w)) RECONNECTING
                       (reconnectAttempts (client w))
                       (match reconnectTimeout (client w) with
                        | Some d => Some d
                        | None => Some (reconnectDelay (reconnectAttempts (client w)))
                        end)
                       None (messageQueue (client w)))
             (heap w) (sockets w) (wired w)
             (trace w ++ match reconnectTimeout (client w) with
                         | Some _ => []
                         | None => [TimeoutSet (reconnectDelay (reconnectAttempts (client w)))]
                         end)
             (sendThrows w) (tl (ctorThrows w)) (tl (getItemThrows w)))
        else
          (Normal tt,
           mkWorld
             (mkClient (Some (sockets w)) (channels (client w)) CONNECTING
                       (reconnectAttempts (client w)) (reconnectTimeout (client w))
                       (heartbeatInterval (client w)) (messageQueue (client w)))
             (heap w) (S (sockets w)) (sockets w :: wired w)
             (trace w ++ [SocketCreated (sockets w)])
             (sendThrows w) (tl (ctorThrows w)) (tl (getItemThrows w)))
    end /\
    (fst (connect w) = Throw <->
     (connectionState (client w) = DISCONNECTED \/
      connectionState (client w) = RECONNECTING) /\
     hd false (getItemThrows w) = true).
Proof.
  intros w. split; [apply connect_eq|].
  rewrite connect_eq.
  destruct (connectionState (client w)); destruct (hd false (getItemThrows w));
    try destruct (hd false (ctorThrows w)); cbn;
    split; try discriminate; try tauto;
    intros [[H|H] H']; discriminate.
Qed.

(** ** Invariants of the connection *)

Section StepInvariant.
Context {X : Type} (view : World -> X) (I : World -> Prop).
Hypothesis I_view : forall w w', view w' = view w -> I w -> I w'.
Hypothesis view_heap : forall h w, view (set_heap h w) = view w.
Hypothesis view_channels :
  forall ch w, view (set_client (set_channels ch (client w)) w) = view w.
Hypothesis view_neutral : forall e, neutral e = true -> keeps view (handle e).
Hypothesis view_send : forall f, keeps view (sendMessage f).
Hypothesis I_connect : forall w, I w -> I (exec connect w).
Hypothesis I_disconnect : forall w, I w -> I (exec disconnect w).
Hypothesis I_handleDisconnect : forall w, I w -> I (exec handleDisconnect w).
Hypothesis I_onopen : forall w, I w -> I (exec onopen w).
Hypothesis I_reconnectTimer : forall w, I w -> I (exec reconnectTimer w).

Lemma step_invariant w e : I w -> I (step w e).
Proof.
  intros H.
  assert (N : forall e0, neutral e0 = true -> I (step w e0)).
  { intros e0 He. apply (I_view w); [apply (view_neutral e0 He) | exact H]. }
  destruct e; try (apply N; reflexivity); unfold step, handle.
  - (* subscribe *)
    destruct (nth_error (heap w) r) as [c|] eqn:Hc.
    + destruct (subscribed c) eqn:Hs.
      * unfold exec. now rewrite (subscribe_subscribed w r c Hc Hs).
      * unfold exec. rewrite (channel_subscribe_eq w r c Hc Hs). cbv zeta.
        set (w1 := exec (sendMessage (FSubscribe (name c))) w).
        set (w2 := set_heap _ w1).
        assert (H2 : I w2).
        { apply (I_view w); [|exact H]. subst w2. rewrite view_heap. apply view_send. }
        unfold handleChannelSubscribe, bind, get.
        destruct (ConnectionState_eqb (connectionState (client w2)) DISCONNECTED).
        -- now apply I_connect.
        -- exact H2.
    + unfold exec, channel_subscribe, subscribe.
      now erewrite bind_throw by (apply deref_none; exact Hc).
  - (* unsubscribe *)
    destruct (nth_error (heap w) r) as [c|] eqn:Hc.
    + destruct (subscribed c) eqn:Hs.
      * unfold exec. rewrite (channel_unsubscribe_eq w r c Hc Hs). cbv zeta.
        set (w1 := exec (sendMessage (FUnsubscribe (name c))) w).
        assert (Hh : heap w1 = heap w) by apply sendMessage_keeps_heap.
        set (w2 := set_heap _ w1).
        assert (H2 : I w2).
        { apply (I_view w); [|exact H]. subst w2. rewrite view_heap. apply view_send. }
        rewrite (handleChannelUnsubscribe_eq w2 r (set_handlers [] (set_subscribed false c))).
        2:{ subst w2. cbn. apply nth_error_list_update with (y := c). now rewrite Hh. }
        cbv zeta. set (w3 := set_client _ w2).
        assert (H3 : I w3).
        { apply (I_view w2); [|exact H2]. subst w3. apply view_channels. }
        match goal with |- context [if ?b then _ else _] => destruct b end.
        -- now apply I_disconnect.
        -- exact H3.
      * unfold exec. now rewrite (unsubscribe_not_subscribed w r c Hc Hs).
    + unfold exec, channel_unsubscribe, unsubscribe.
      now erewrite bind_throw by (apply deref_none; exact Hc).
  - now apply I_connect.
  - now apply I_disconnect.
  - unfold exec, bind, get, when. destruct (is_wired s w); [now apply I_onopen | exact H].
  - unfold exec, bind, get, when, onclose.
    destruct (is_wired s w); [now apply I_handleDisconnect | exact H].
  - unfold exec, bind at 1, get.
    destruct (reconnectTimeout (client w)); [now apply I_reconnectTimer | exact H].
Qed.

Lemma run_invariant es : forall w, I w -> I (run w es).
Proof.
  induction es as [|e es IH]; intros w H; cbn.
  - exact H.
  - apply IH, step_invariant, H.
Qed.
End StepInvariant.

Lemma handleDisconnect_eq w :
  handleDisconnect w =
  (Normal tt,
   match connectionState (client w) with
   | DISCONNECTED =>
       set_client (set_ws None (set_heartbeatInterval None (client w))) w
   | _ =>
       mkWorld
         (mkClient None (channels (client w)) RECONNECTING
                   (reconnectAttempts (client w))
                   (match reconnectTimeout (client w) with
                    | Some d => Some d
                    | None => Some (reconnectDelay (reconnectAttempts (client w)))
                    end)
                   None (messageQueue (client w)))
         (heap w) (sockets w) (wired w)
         (trace w ++ match reconnectTimeout (client w) with
                     | Some _ => []
                     | None => [TimeoutSet (reconnectDelay (reconnectAttempts (client w)))]
                     end)
         (sendThrows w) (ctorThrows w) (getItemThrows w)
   end).
Proof.
  destruct w as [c hp sk wi tr st ct gt]. destruct c as [ws0 ch cst att rt hb q].
  unfold handleDisconnect, stopHeartbeat, scheduleReconnect, bind, get, this, emit,
    modify, ret.
  destruct cst, hb, rt; cbn; rewrite ?app_nil_r; reflexivity.
Qed.

Lemma reconnectTimer_eq w :
  reconnectTimer w =
  connect (set_client (set_reconnectAttempts (S (reconnectAttempts (client w)))
                         (set_reconnectTimeout None (client w))) w).
Proof. reflexivity. Qed.

Lemma onopen_timers w :
  timers (exec onopen w) =
  (CONNECTED, Some HEARTBEAT_INTERVAL_MS, reconnectTimeout (client w)).
Proof.
  assert (K : keeps timers (flushMessageQueue ;; resubscribeChannels)) by keeps_all.
  unfold onopen, exec.
  unfold bind at 1, this at 1, modify. unfold bind at 1, this at 1, modify.
  unfold bind at 1. rewrite startHeartbeat_eq.
  etransitivity; [apply K|]. reflexivity.
Qed.

Lemma timers_view w w' :
  timers w' = timers w -> timers_consistent w -> timers_consistent w'.
Proof.
  unfold timers, timers_consistent. intros E H. injection E as E1 E2 E3.
  now rewrite E1, E2, E3.
Qed.

Ltac timers_cases w Hst :=
  destruct (connectionState (client w)) eqn:Hst;
  try destruct (hd false (getItemThrows w));
  try destruct (hd false (ctorThrows w));
  cbn; rewrite ?Hst; repeat split; intros;
  try congruence; auto;
  try (destruct (reconnectTimeout (client w)); congruence);
  try (exfalso; match goal with
                | Ha : heartbeatInterval _ <> None -> _, Hh : heartbeatInterval _ <> None |- _ =>
                    apply Ha in Hh; congruence
                end).

Lemma timers_connect w : timers_consistent w -> timers_consistent (exec connect w).
Proof.
  intros (Ha & Hb & Hc). unfold exec. rewrite connect_eq.
  unfold timers_consistent. timers_cases w Hst.
Qed.

Lemma timers_disconnect w : timers_consistent w -> timers_consistent (exec disconnect w).
Proof.
  intros _. unfold exec. rewrite disconnect_eq. unfold timers_consistent. cbn.
  repeat split; congruence.
Qed.

Lemma timers_handleDisconnect w :
  timers_consistent w -> timers_consistent (exec handleDisconnect w).
Proof.
  intros (Ha & Hb & Hc). unfold exec. rewrite handleDisconnect_eq. cbn [snd].
  unfold timers_consistent.
  destruct (connectionState (client w)) eqn:Hst;
    cbn; rewrite ?Hst; repeat split; intros;
    try congruence; auto;
    try (destruct (reconnectTimeout (client w)); congruence).
Qed.

Lemma timers_onopen w : timers_consistent w -> timers_consistent (exec onopen w).
Proof.
  intros (Ha & Hb & Hc). pose proof (onopen_timers w) as E.
  unfold timers in E. injection E as E1 E2 E3.
  unfold timers_consistent. rewrite E1, E2, E3. repeat split; congruence.
Qed.

Lemma timers_reconnectTimer w :
  timers_consistent w -> timers_consistent (exec reconnectTimer w).
Proof.
  intros (Ha & Hb & Hc). unfold exec. rewrite reconnectTimer_eq.
  set (w2 := set_client _ w).
  rewrite connect_eq.
  unfold timers_consistent. subst w2. cbn.
  timers_cases w Hst.
Qed.

Lemma neutral_keeps_timers e : neutral e = true -> keeps timers (handle e).
Proof. destruct e; cbn; intros H; try discriminate; unfold handle; keeps_all. Qed.

Lemma sendMessage_keeps_timers f : keeps timers (sendMessage f).
Proof. keeps_all. Qed.

(** X11.  After every sequence of events on a fresh client: a heartbeat
    interval runs only while the state is CONNECTED, a client in state
    RECONNECTING always has its reconnect timer armed (a retry is pending),
    and a client in state DISCONNECTED has no reconnect timer armed (after
    [disconnect()] nothing reconnects by itself). *)
Theorem timers_invariant :
  forall (sendOutcomes ctorOutcomes getItemOutcomes : list bool) (es : list Event),
    let w := run (initial sendOutcomes ctorOutcomes getItemOutcomes) es in
    (heartbeatInterval (client w) <> None -> connectionState (client w) = CONNECTED) /\
    (connectionState (client w) = RECONNECTING -> reconnectTimeout (client w) <> None) /\
    (connectionState (client w) = DISCONNECTED -> reconnectTimeout (client w) = None).
Proof.
  intros so co go es w.
  apply (run_invariant timers timers_consistent timers_view
           (fun _ _ => eq_refl) (fun _ _ => eq_refl)
           neutral_keeps_timers sendMessage_keeps_timers
           timers_connect timers_disconnect timers_handleDisconnect
           timers_onopen timers_reconnectTimer).
  unfold timers_consistent. cbn. repeat split; congruence.
Qed.

Lemma socks_view w w' :
  socks w' = socks w -> sockets_consistent w -> sockets_consistent w'.
Proof.
  unfold socks, sockets_consistent, is_wired. intros E H.
  injection E as E1 E2 E3 E4 E5. now rewrite E1, E2, E3, E4, E5.
Qed.

Lemma created_app t l :
  created_sockets (t ++ l) = created_sockets t ++ created_sockets l.
Proof. apply flat_map_app. Qed.

Lemma closed_sockets_app t l :
  closed_sockets (t ++ l) = closed_sockets t ++ closed_sockets l.
Proof. apply flat_map_app. Qed.

Lemma sockets_connect w : sockets_consistent w -> sockets_consistent (exec connect w).
Proof.
  intros (Hcr & Hwi & Hnd & Hcl & Hws).
  unfold exec. rewrite connect_eq.
  assert (Hdrop : forall t,
             created_sockets t = [] -> closed_sockets t = [] ->
             sockets_consistent
               (mkWorld
                  (mkClient None (channels (client w)) RECONNECTING
                            (reconnectAttempts (client w))
                            (match reconnectTimeout (client w) with
                             | Some d => Some d
                             | None => Some (reconnectDelay (reconnectAttempts (client w)))
                             end)
                            None (messageQueue (client w)))
                  (heap w) (sockets w) (wired w) (trace w ++ t)
                  (sendThrows w) (tl (ctorThrows w)) (tl (getItemThrows w)))).
  { intros t T1 T2. unfold sockets_consistent, closed, is_wired. cbn.
    rewrite created_app, closed_sockets_app, T1, T2, !app_nil_r.
    repeat split; try assumption; try apply Hwi; try discriminate. }
  assert (Hnew : sockets_consistent
               (mkWorld
                  (mkClient (Some (sockets w)) (channels (client w)) CONNECTING
                            (reconnectAttempts (client w)) (reconnectTimeout (client w))
                            (heartbeatInterval (client w)) (messageQueue (client w)))
                  (heap w) (S (sockets w)) (sockets w :: wired w)
                  (trace w ++ [SocketCreated (sockets w)])
                  (sendThrows w) (tl (ctorThrows w)) (tl (getItemThrows w)))).
  { unfold sockets_consistent, closed, is_wired. cbn.
    rewrite created_app, closed_sockets_app, Hcr, app_nil_r. cbn.
    repeat split.
    - change (0 :: seq 1 (sockets w)) with (seq 0 (S (sockets w))). now rewrite seq_S.
    - intros H. apply orb_true_iff in H. destruct H as [H|H].
      + apply Nat.eqb_eq in H. lia.
      + apply Hwi in H. lia.
    - intros H. apply orb_true_iff.
      destruct (Nat.eq_dec s (sockets w)) as [->|Hne].
      + left. apply Nat.eqb_refl.
      + right. apply Hwi. lia.
    - exact Hnd.
    - intros s Hs. apply Hcl in Hs. lia.
    - injection H as <-. lia.
    - injection H as <-. intros Hin. apply Hcl in Hin. lia. }
  destruct (connectionState (client w)).
  - exact (conj Hcr (conj Hwi (conj Hnd (conj Hcl Hws)))).
  - exact (conj Hcr (conj Hwi (conj Hnd (conj Hcl Hws)))).
  - destruct (hd false (getItemThrows w));
      [exact (conj Hcr (conj Hwi (conj Hnd (conj Hcl Hws))))|].
    destruct (hd false (ctorThrows w)); [|exact Hnew].
    apply Hdrop; now destruct (reconnectTimeout (client w)).
  - destruct (hd false (getItemThrows w));
      [exact (conj Hcr (conj Hwi (conj Hnd (conj Hcl Hws))))|].
    destruct (hd false (ctorThrows w)); [|exact Hnew].
    apply Hdrop; now destruct (reconnectTimeout (client w)).
Qed.

Lemma sockets_disconnect w :
  sockets_consistent w -> sockets_consistent (exec disconnect w).
Proof.
  intros (Hcr & Hwi & Hnd & Hcl & Hws).
  unfold exec. rewrite disconnect_eq. cbn [snd].
  unfold sockets_consistent, closed, is_wired. cbn.
  rewrite created_app, closed_sockets_app.
  destruct (ws (client w)) as [s|] eqn:E; cbn; rewrite ?app_nil_r.
  - destruct (Hws s eq_refl) as [Hlt Hnot].
    repeat split; try assumption; try apply Hwi; try discriminate.
    + apply NoDup_app; [exact Hnd | constructor; [tauto | constructor] |].
      intros a Ha [<-|[]]. contradiction.
    + intros s0 Hin. apply in_app_or in Hin. destruct Hin as [Hin|[<-|[]]]; auto.
  - repeat split; try assumption; try apply Hwi; try discriminate.
Qed.

Lemma sockets_handleDisconnect w :
  sockets_consistent w -> sockets_consistent (exec handleDisconnect w).
Proof.
  intros (Hcr & Hwi & Hnd & Hcl & Hws).
  unfold exec. rewrite handleDisconnect_eq. cbn [snd].
  unfold sockets_consistent, closed, is_wired.
  destruct (connectionState (client w)); cbn;
    rewrite ?created_app, ?closed_sockets_app;
    try (destruct (reconnectTimeout (client w)); cbn);
    rewrite ?app_nil_r;
    repeat split; try assumption; try apply Hwi; try discriminate.
Qed.

Lemma onopen_keeps_socks : keeps socks onopen.
Proof. keeps_all. Qed.

Lemma sockets_reconnectTimer w :
  sockets_consistent w -> sockets_consistent (exec reconnectTimer w).
Proof.
  intros H. unfold exec. rewrite reconnectTimer_eq.
  apply sockets_connect. now apply (socks_view w).
Qed.

Lemma neutral_keeps_socks e : neutral e = true -> keeps socks (handle e).
Proof. destruct e; cbn; intros H; try discriminate; unfold handle; keeps_all. Qed.

Lemma sendMessage_keeps_socks f : keeps socks (sendMessage f).
Proof. keeps_all. Qed.

Lemma run_sockets_consistent so co go es :
  sockets_consistent (run (initial so co go) es).
Proof.
  apply (run_invariant socks sockets_consistent socks_view
           (fun _ _ => eq_refl) (fun _ _ => eq_refl)
           neutral_keeps_socks sendMessage_keeps_socks
           sockets_connect sockets_disconnect sockets_handleDisconnect
           (fun w H => socks_view w _ (onopen_keeps_socks w) H)
           sockets_reconnectTimer).
  unfold sockets_consistent, is_wired, closed. cbn.
  repeat split; try discriminate; try lia; try constructor; try tauto.
Qed.

(** X12.  After every sequence of events on a fresh client: the sockets
    made are numbered 0, 1, ... in the order of their making and each has
    its callbacks installed; the manager has closed only sockets it made
    and none of them twice; and the handle, when there is one, is a socket
    that was made and that the manager has not closed. *)
Theorem sockets_invariant :
  forall (sendOutcomes ctorOutcomes getItemOutcomes : list bool) (es : list Event),
    let w := run (initial sendOutcomes ctorOutcomes getItemOutcomes) es in
    created_sockets (trace w) = seq 0 (sockets w) /\
    (forall s, is_wired s w = true <-> s < sockets w) /\
    NoDup (closed w) /\
    (forall s, In s (closed w) -> s < sockets w) /\
    (forall s, ws (client w) = Some s -> s < sockets w /\ ~ In s (closed w)).
Proof.
  intros so co go es w. apply run_sockets_consistent.
Qed.
(** ** Resubscription *)

Lemma for_of_resubscribe rs :
  forall w,
    Forall (fun r => nth_error (heap w) r <> None) rs ->
    for_of rs (fun channel =>
                 b <- isSubscribed channel ;;
                 if b then n <- getName channel ;; sendMessage (FSubscribe n)
                 else ret tt) w =
    for_of (map FSubscribe
                (flat_map (fun r => match nth_error (heap w) r with
                                    | Some c => if subscribed c then [name c] else []
                                    | None => []
                                    end) rs))
           sendMessage w.
Proof.
  induction rs as [|r rs IH]; intros w Hv; cbn [for_of flat_map map].
  - reflexivity.
  - inversion Hv as [|? ? Hr Hrs]; subst.
    destruct (nth_error (heap w) r) as [c|] eqn:Hc; [|congruence].
    unfold bind at 1. unfold bind at 1, isSubscribed, bind at 1.
    rewrite (deref_some r c w Hc). unfold ret at 1.
    destruct (subscribed c) eqn:Hs.
    + unfold getName, bind at 1, bind at 1. rewrite (deref_some r c w Hc).
      unfold ret at 1. cbn [app map for_of].
      assert (Hh : heap (exec (sendMessage (FSubscribe (name c))) w) = heap w)
        by apply sendMessage_keeps_heap.
      rewrite sendMessage_normal.
      erewrite (bind_normal (sendMessage (FSubscribe (name c))))
        by apply sendMessage_normal.
      rewrite <- Hh. apply IH. now rewrite Hh.
    + unfold ret at 1. cbn [app]. now apply IH.
Qed.

Lemma resubscribeChannels_eq w :
  Forall (fun r => nth_error (heap w) r <> None) (Map_values (channels (client w))) ->
  resubscribeChannels w = for_of (map FSubscribe (subscribed_names w)) sendMessage w.
Proof.
  intros Hv. unfold resubscribeChannels, bind at 1, get.
  now rewrite for_of_resubscribe.
Qed.

Lemma wf_values_valid w :
  registry_wf w ->
  Forall (fun r => nth_error (heap w) r <> None) (Map_values (channels (client w))).
Proof.
  intros (_ & _ & Hobj). apply Forall_forall. intros r Hin.
  unfold Map_values in Hin. apply in_map_iff in Hin.
  destruct Hin as ([n r0] & E & Hin). cbn in E. subst r0.
  apply Hobj in Hin. rewrite nth_error_map in Hin.
  destruct (nth_error (heap w) r); [discriminate | discriminate].
Qed.

Lemma subscribed_names_in w n :
  registry_wf w ->
  (In n (subscribed_names w) <->
   exists r c, In (n, r) (channels (client w)) /\
               nth_error (heap w) r = Some c /\ subscribed c = true).
Proof.
  intros (_ & _ & Hobj). unfold subscribed_names, Map_values. rewrite in_flat_map. split.
  - intros (r & Hr & Hn). apply in_map_iff in Hr. destruct Hr as ([n0 r0] & E & Hin).
    cbn in E. subst r0.
    destruct (nth_error (heap w) r) as [c|] eqn:Hc; [|contradiction].
    destruct (subscribed c) eqn:Hs; [|contradiction].
    destruct Hn as [<-|[]].
    pose proof (Hobj _ _ Hin) as Hname. rewrite nth_error_map, Hc in Hname.
    cbn in Hname. injection Hname as <-.
    exists r, c. now repeat split.
  - intros (r & c & Hin & Hc & Hs). exists r. split.
    + apply in_map_iff. now exists (n, r).
    + rewrite Hc, Hs. left.
      pose proof (Hobj _ _ Hin) as Hname. rewrite nth_error_map, Hc in Hname.
      cbn in Hname. congruence.
Qed.

Lemma subscribed_names_NoDup w : registry_wf w -> NoDup (subscribed_names w).
Proof.
  intros (Hk & _ & Hobj). unfold subscribed_names, Map_values.
  revert Hk Hobj. generalize (channels (client w)) as l.
  induction l as [|[n r] l IH]; cbn; intros Hk Hobj; [constructor|].
  inversion Hk as [|? ? Hn Hd]; subst.
  assert (IH' := IH Hd (fun n0 r0 H => Hobj n0 r0 (or_intror H))).
  destruct (nth_error (heap w) r) as [c|] eqn:Hc; [|exact IH'].
  destruct (subscribed c); [|exact IH']. cbn. constructor; [|exact IH'].
  intros Hin. apply in_flat_map in Hin. destruct Hin as (r1 & Hr1 & Hn1).
  apply in_map_iff in Hr1. destruct Hr1 as ([n1 r1'] & E & Hin1). cbn in E. subst r1'.
  destruct (nth_error (heap w) r1) as [c1|] eqn:Hc1; [|contradiction].
  destruct (subscribed c1); [|contradiction]. destruct Hn1 as [E1|[]].
  pose proof (Hobj n r (or_introl eq_refl)) as N0. rewrite nth_error_map, Hc in N0.
  pose proof (Hobj n1 r1 (or_intror Hin1)) as N1. rewrite nth_error_map, Hc1 in N1.
  cbn in N0, N1. apply Hn. apply in_map_iff. exists (n1, r1). split; [|exact Hin1].
  cbn. congruence.
Qed.

(** X13.  In every world a fresh client can reach, with the state CONNECTED
    and a socket handle, [resubscribeChannels] returns normally and hands
    to [send] one "subscribe" frame for each registered channel that is
    subscribed, in registry order and none twice, and none for a channel
    that is not subscribed; a frame whose [send] raises is queued, and when
    no [send] raises exactly these frames are put on the wire. *)
Theorem resubscribe_sends_subscribed :
  forall (sendOutcomes ctorOutcomes getItemOutcomes : list bool) (es : list Event) (s : SocketId),
    let w := run (initial sendOutcomes ctorOutcomes getItemOutcomes) es in
    connectionState (client w) = CONNECTED ->
    ws (client w) = Some s ->
    let frames := map FSubscribe (subscribed_names w) in
    resubscribeChannels w =
    (Normal tt,
     mkWorld
       (set_messageQueue (messageQueue (client w) ++ requeued (sendThrows w) frames)
                         (client w))
       (heap w) (sockets w) (wired w)
       (trace w ++ map (Sent s) (transmitted (sendThrows w) frames))
       (skipn (length frames) (sendThrows w)) (ctorThrows w) (getItemThrows w)) /\
    NoDup (subscribed_names w) /\
    (forall n, In n (subscribed_names w) <->
               exists r c, In (n, r) (channels (client w)) /\
                           nth_error (heap w) r = Some c /\ subscribed c = true) /\
    (sendThrows w = [] ->
     trace (exec resubscribeChannels w) = trace w ++ map (Sent s) frames /\
     messageQueue (client (exec resubscribeChannels w)) = messageQueue (client w)).
Proof.
  intros so co go es s w Hst Hws frames.
  assert (Hwf : registry_wf w) by (apply run_wf, initial_wf).
  assert (E : resubscribeChannels w =
              (Normal tt,
               mkWorld
                 (set_messageQueue (messageQueue (client w) ++ requeued (sendThrows w) frames)
                                   (client w))
                 (heap w) (sockets w) (wired w)
                 (trace w ++ map (Sent s) (transmitted (sendThrows w) frames))
                 (skipn (length frames) (sendThrows w)) (ctorThrows w) (getItemThrows w))).
  { rewrite resubscribeChannels_eq by (now apply wf_values_valid).
    now apply for_of_send. }
  repeat apply conj.
  - exact E.
  - now apply subscribed_names_NoDup.
  - intros n. now apply subscribed_names_in.
  - intros Hno. unfold exec. rewrite E. cbn. rewrite Hno.
    now rewrite transmitted_no_throw, requeued_no_throw, app_nil_r.
Qed.

(** ** Opening and reconnecting *)

Lemma onopen_eq w :
  onopen w =
  (flushMessageQueue ;; resubscribeChannels)
    (set_client (mkClient (ws (client w)) (channels (client w)) CONNECTED 0
                          (reconnectTimeout (client w)) (Some HEARTBEAT_INTERVAL_MS)
                          (messageQueue (client w))) w).
Proof.
  unfold onopen.
  unfold bind at 1, this at 1, modify. unfold bind at 1, this at 1, modify.
  unfold bind at 1. rewrite startHeartbeat_eq. reflexivity.
Qed.

Lemma onopen_wf w s :
  registry_wf w ->
  ws (client w) = Some s ->
  sendThrows w = [] ->
  onopen w =
  (Normal tt,
   mkWorld
     (mkClient (Some s) (channels (client w)) CONNECTED 0
               (reconnectTimeout (client w)) (Some HEARTBEAT_INTERVAL_MS) [])
     (heap w) (sockets w) (wired w)
     (trace w ++ map (Sent s) (messageQueue (client w) ++
                               map FSubscribe (subscribed_names w)))
     [] (ctorThrows w) (getItemThrows w)).
Proof.
  intros Hwf Hws Hno.
  rewrite onopen_eq.
  set (w1 := set_client _ w).
  erewrite bind_normal
    by (apply (flushMessageQueue_connected w1 s); [reflexivity | exact Hws]).
  set (w2 := mkWorld _ _ _ _ _ _ _ _).
  assert (Hwf2 : registry_wf w2) by (apply (wf_of_reg w); [reflexivity | exact Hwf]).
  rewrite resubscribeChannels_eq by (now apply wf_values_valid).
  rewrite (for_of_send _ w2 s) by (subst w2; cbn; auto).
  subst w2 w1. unfold subscribed_names, Map_values. cbn. rewrite Hno. cbn.
  rewrite ?transmitted_no_throw, ?requeued_no_throw, ?skipn_nil.
  rewrite ?transmitted_no_throw, ?requeued_no_throw, ?skipn_nil.
  rewrite Hws, map_app, <- app_assoc. reflexivity.
Qed.

(** X14.  In every world a fresh client can reach, when a socket opens
    while the manager holds a handle and no [send] raises, [onopen] returns
    normally with the state CONNECTED, the attempt counter 0 and the
    heartbeat running, and has put on the wire, through the handle, first
    the queued frames in queue order and then one "subscribe" frame for
    each subscribed registered channel; the queue is empty afterwards and
    registry, channels and reconnect timer are untouched. *)
Theorem onopen_transmits :
  forall (sendOutcomes ctorOutcomes getItemOutcomes : list bool) (es : list Event) (s : SocketId),
    let w := run (initial sendOutcomes ctorOutcomes getItemOutcomes) es in
    ws (client w) = Some s ->
    sendThrows w = [] ->
    onopen w =
    (Normal tt,
     mkWorld
       (mkClient (Some s) (channels (client w)) CONNECTED 0
                 (reconnectTimeout (client w)) (Some HEARTBEAT_INTERVAL_MS) [])
       (heap w) (sockets w) (wired w)
       (trace w ++ map (Sent s) (messageQueue (client w) ++
                                 map FSubscribe (subscribed_names w)))
       [] (ctorThrows w) (getItemThrows w)).
Proof.
  intros so co go es s w Hws Hno.
  apply onopen_wf; [apply run_wf, initial_wf | exact Hws | exact Hno].
Qed.

Lemma close_then_timer w s :
  connectionState (client w) = CONNECTED ->
  reconnectTimeout (client w) = None ->
  ctorThrows w = [] ->
  getItemThrows w = [] ->
  is_wired s w = true ->
  run w [Socket_close s; Timer_reconnect] =
  mkWorld
    (mkClient (Some (sockets w)) (channels (client w)) CONNECTING
              (S (reconnectAttempts (client w))) None None (messageQueue (client w)))
    (heap w) (S (sockets w)) (sockets w :: wired w)
    (trace w ++ [TimeoutSet (reconnectDelay (reconnectAttempts (client w)));
                 SocketCreated (sockets w)])
    (sendThrows w) [] [].
Proof.
  intros Hst Hrt Hct Hgt Hwi.
  cbn [run fold_left].
  assert (E1 : step w (Socket_close s) = snd (handleDisconnect w)).
  { unfold step, handle, exec, bind, get, when, onclose. now rewrite Hwi. }
  rewrite E1, handleDisconnect_eq, Hst, Hrt. cbn [snd].
  set (w1 := mkWorld _ _ _ _ _ _ _ _).
  assert (E2 : step w1 Timer_reconnect = snd (reconnectTimer w1)) by reflexivity.
  rewrite E2, reconnectTimer_eq, connect_eq. subst w1. cbn.
  rewrite Hct, Hgt. cbn. now rewrite <- app_assoc.
Qed.

(** X15.  In every world a fresh client can reach that is CONNECTED with a
    socket handle, an empty queue, no reconnect timer pending and no call
    raising: when the transport closes, the timer fires and the new socket
    opens, the manager has armed one timer with the backoff delay of the
    attempt count, made one socket, and sent on it one "subscribe" frame
    for each subscribed registered channel and nothing else; it is
    CONNECTED again on the new socket with the attempt counter back at 0,
    and registry and channels are as before. *)
Theorem reconnect_resubscribes :
  forall (sendOutcomes ctorOutcomes getItemOutcomes : list bool) (es : list Event) (s : SocketId),
    let w := run (initial sendOutcomes ctorOutcomes getItemOutcomes) es in
    connectionState (client w) = CONNECTED ->
    ws (client w) = Some s ->
    messageQueue (client w) = [] ->
    reconnectTimeout (client w) = None ->
    sendThrows w = [] ->
    ctorThrows w = [] ->
    getItemThrows w = [] ->
    run w [Socket_close s; Timer_reconnect; Socket_open (sockets w)] =
    mkWorld
      (mkClient (Some (sockets w)) (channels (client w)) CONNECTED 0 None
                (Some HEARTBEAT_INTERVAL_MS) [])
      (heap w) (S (sockets w)) (sockets w :: wired w)
      (trace w ++ [TimeoutSet (reconnectDelay (reconnectAttempts (client w)));
                   SocketCreated (sockets w)] ++
       map (fun n => Sent (sockets w) (FSubscribe n)) (subscribed_names w))
      [] [] [].
Proof.
  intros so co go es s w Hst Hws Hq Hrt Hsend Hct Hgt.
  assert (Hwi : is_wired s w = true).
  { destruct (run_sockets_consistent so co go es) as (_ & Hw & _ & _ & Hh).
    apply Hw. now apply Hh. }
  change [Socket_close s; Timer_reconnect; Socket_open (sockets w)]
    with ([Socket_close s; Timer_reconnect] ++ [Socket_open (sockets w)]).
  rewrite run_app.
  pose proof (close_then_timer w s Hst Hrt Hct Hgt Hwi) as E.
  assert (E3 : run w [Socket_close s; Timer_reconnect] =
               run (initial so co go) (es ++ [Socket_close s; Timer_reconnect])).
  { subst w. now rewrite run_app. }
  cbn [run fold_left] in *. fold (run (initial so co go) es) in *. fold w in E, E3 |- *.
  set (w3 := step (step w (Socket_close s)) Timer_reconnect) in *.
  assert (Hopen : step w3 (Socket_open (sockets w)) = exec onopen w3).
  { unfold step, handle, exec, bind, get, when, is_wired. rewrite E. cbn.
    now rewrite Nat.eqb_refl. }
  rewrite Hopen. unfold exec.
  assert (Hwf3 : registry_wf w3).
  { subst w3. apply step_wf, step_wf. subst w. apply run_wf, initial_wf. }
  rewrite (onopen_wf w3 (sockets w) Hwf3).
  - rewrite E. unfold subscribed_names. cbn. rewrite Hq. cbn.
    rewrite map_map. now rewrite <- app_assoc.
  - now rewrite E.
  - now rewrite E.
Qed.

(** ** The in-memory storage adapter *)

Lemma storage_after_NoDup ops : NoDup (map fst (storage_after ops)).
Proof.
  unfold storage_after.
  assert (G : forall st, NoDup (map fst st) ->
              NoDup (map fst (fold_left (fun st op => match op with
                                                      | SetItem k v => setItem st k v
                                                      | RemoveItem k => removeItem st k
                                                      end) ops st))).
  { induction ops as [|[k v|k] ops IH]; intros st H; cbn.
    - exact H.
    - apply IH. now apply (Map_set_NoDup_keys _ String.eqb_eq).
    - apply IH. now apply Map_delete_NoDup_keys. }
  apply G. constructor.
Qed.

(** X16.  For an in-memory adapter after any sequence of writes:
    [getItem] after [setItem] of the same key gives the value written, the
    last one when written twice; after [removeItem] it gives null; a write
    or a removal under one key does not change what is read under another;
    and a new adapter holds nothing. *)
Theorem memory_storage_round_trip :
  forall (ops : list StorageOp) (k v : string),
    let st := storage_after ops in
    getItem (setItem st k v) k = Some v /\
    getItem (removeItem st k) k = None /\
    (forall v', getItem (setItem (setItem st k v') k v) k = Some v) /\
    (forall k', k' <> k ->
                getItem (setItem st k v) k' = getItem st k' /\
                getItem (removeItem st k) k' = getItem st k') /\
    getItem (storage_after []) k = None.
Proof.
  intros ops k v st. unfold getItem, setItem, removeItem. repeat apply conj.
  - apply (Map_get_set_same _ String.eqb_eq).
  - apply (Map_get_delete_same _ String.eqb_eq). apply storage_after_NoDup.
  - intros v'. apply (Map_get_set_same _ String.eqb_eq).
  - intros k' Hne. split.
    + now apply (Map_get_set_diff _ String.eqb_eq).
    + now apply (Map_get_delete_diff _ String.eqb_eq).
  - reflexivity.
Qed.

(** ** The further theorems at sample inputs *)

Lemma registration_never_connects_witness :
  forallb is_registration
          [Call_channel "a"; Call_on 0 INSERT (quiet 1); Call_off 0 INSERT None;
           Call_channel "b"] = true /\
  transport (run (initial [] [] [])
                 [Call_channel "a"; Call_on 0 INSERT (quiet 1); Call_off 0 INSERT None;
                  Call_channel "b"]) = transport (initial [] [] []).
Proof.
  split; [reflexivity|].
  apply registration_never_connects. reflexivity.
Defined.

Lemma on_registers_once_witness :
  nth_error (heap handlers_world) 0 = Some handlers_channel /\
  exec (on 0 UPDATE (quiet 2)) (exec (on 0 UPDATE (quiet 2)) handlers_world) =
  exec (on 0 UPDATE (quiet 2)) handlers_world /\
  client (exec (on 0 DELETE (quiet 7)) handlers_world) = client handlers_world.
Proof.
  assert (H : nth_error (heap handlers_world) 0 = Some handlers_channel)
    by (vm_compute; reflexivity).
  destruct (on_registers_once handlers_world 0 handlers_channel UPDATE (quiet 2) H)
    as (_ & _ & _ & _ & _ & E).
  destruct (on_registers_once handlers_world 0 handlers_channel DELETE (quiet 7) H)
    as (_ & _ & _ & E' & _).
  repeat apply conj; [exact H | exact E | exact E'].
Defined.

Lemma off_unregisters_witness :
  nth_error (heap (run (initial [] [] []) handlers_events)) 0 = Some handlers_channel /\
  off 0 UPDATE None (run (initial [] [] []) handlers_events) =
  (Normal tt, exec (off 0 UPDATE None) (run (initial [] [] []) handlers_events)).
Proof.
  assert (H : nth_error (heap (run (initial [] [] []) handlers_events)) 0 =
              Some handlers_channel) by (vm_compute; reflexivity).
  destruct (off_unregisters [] [] [] handlers_events 0 handlers_channel UPDATE H)
    as (_ & (E & _) & _).
  split; [exact H | exact E].
Defined.

Lemma dispatch_by_type_witness :
  nth_error (heap handlers_world) 0 = Some handlers_channel /\
  length (skipn (length (trace handlers_world))
                (trace (exec (dispatch 0 update_payload) handlers_world))) = 4.
Proof.
  assert (H : nth_error (heap handlers_world) 0 = Some handlers_channel)
    by (vm_compute; reflexivity).
  destruct (dispatch_by_type handlers_world 0 handlers_channel update_payload H)
    as (_ & E & _).
  split; [exact H|]. rewrite E. vm_compute. reflexivity.
Defined.

Lemma handleMessage_routes_witness :
  "a" <> "" /\
  Map_get String.eqb "a" (channels (client handlers_world)) = Some 0 /\
  nth_error (heap handlers_world) 0 = Some handlers_channel /\
  handleMessage (Envelope "event" (Some "a") (Some update_payload)) handlers_world =
  dispatch 0 update_payload handlers_world.
Proof.
  assert (H1 : "a" <> "") by discriminate.
  assert (H2 : Map_get String.eqb "a" (channels (client handlers_world)) = Some 0)
    by (vm_compute; reflexivity).
  assert (H3 : nth_error (heap handlers_world) 0 = Some handlers_channel)
    by (vm_compute; reflexivity).
  destruct (handleMessage_routes handlers_world "a" 0 handlers_channel update_payload
                                 H1 H2 H3) as [_ E].
  repeat apply conj; [exact H1 | exact H2 | exact H3 | exact E].
Defined.

Lemma unsubscribe_forgets_witness :
  nth_error (heap (run (initial [] [] []) abc_connected)) 0 = Some (mkChannel "a" [] true) /\
  Map_get String.eqb "a"
          (channels (client (exec (channel_unsubscribe 0)
                                  (run (initial [] [] []) abc_connected)))) = None /\
  nth_error (heap (exec (channel_unsubscribe 0) (run (initial [] [] []) abc_connected))) 0 =
  Some (mkChannel "a" [] false).
Proof.
  assert (H : nth_error (heap (run (initial [] [] []) abc_connected)) 0 =
              Some (mkChannel "a" [] true)) by (vm_compute; reflexivity).
  destruct (unsubscribe_forgets [] [] [] abc_connected 0 (mkChannel "a" [] true) H eq_refl)
    as (_ & E1 & E2 & _).
  repeat apply conj; [exact H | exact E2 | exact E1].
Defined.

Lemma resubscribe_sends_subscribed_witness :
  connectionState (client (run (initial [] [] []) abc_connected)) = CONNECTED /\
  ws (client (run (initial [] [] []) abc_connected)) = Some 0 /\
  subscribed_names (run (initial [] [] []) abc_connected) = ["a"; "b"] /\
  NoDup (subscribed_names (run (initial [] [] []) abc_connected)).
Proof.
  assert (H1 : connectionState (client (run (initial [] [] []) abc_connected)) = CONNECTED)
    by (vm_compute; reflexivity).
  assert (H2 : ws (client (run (initial [] [] []) abc_connected)) = Some 0)
    by (vm_compute; reflexivity).
  destruct (resubscribe_sends_subscribed [] [] [] abc_connected 0 H1 H2) as (_ & E & _).
  repeat apply conj; [exact H1 | exact H2 | vm_compute; reflexivity | exact E].
Defined.

Lemma onopen_transmits_witness :
  ws (client (run (initial [] [] []) abc_pending)) = Some 0 /\
  sendThrows (run (initial [] [] []) abc_pending) = [] /\
  trace (exec onopen (run (initial [] [] []) abc_pending)) =
  [SocketCreated 0; Sent 0 (FSubscribe "a"); Sent 0 (FSubscribe "b");
   Sent 0 (FSubscribe "a"); Sent 0 (FSubscribe "b")].
Proof.
  assert (H1 : ws (client (run (initial [] [] []) abc_pending)) = Some 0)
    by (vm_compute; reflexivity).
  assert (H2 : sendThrows (run (initial [] [] []) abc_pending) = [])
    by (vm_compute; reflexivity).
  pose proof (onopen_transmits [] [] [] abc_pending 0 H1 H2) as E.
  repeat apply conj; [exact H1 | exact H2 |].
  unfold exec. rewrite E. vm_compute. reflexivity.
Defined.

Lemma reconnect_resubscribes_witness :
  connectionState (client (run (initial [] [] []) abc_connected)) = CONNECTED /\
  ws (client (run (initial [] [] []) abc_connected)) = Some 0 /\
  skipn 5 (trace (run (run (initial [] [] []) abc_connected)
                      [Socket_close 0; Timer_reconnect;
                       Socket_open (sockets (run (initial [] [] []) abc_connected))])) =
  [TimeoutSet 1000; SocketCreated 1; Sent 1 (FSubscribe "a"); Sent 1 (FSubscribe "b")].
Proof.
  assert (H1 : connectionState (client (run (initial [] [] []) abc_connected)) = CONNECTED)
    by (vm_compute; reflexivity).
  assert (H2 : ws (client (run (initial [] [] []) abc_connected)) = Some 0)
    by (vm_compute; reflexivity).
  pose proof (reconnect_resubscribes [] [] [] abc_connected 0 H1 H2
                eq_refl eq_refl eq_refl eq_refl eq_refl) as E.
  repeat apply conj; [exact H1 | exact H2 |].
  rewrite E. vm_compute. reflexivity.
Defined.
